(** * libdjinterop, Engine Library back end: schema validation helpers and
      the versioned storage facade

    A shallow embedding of

    - [schema_validate_utils.hpp] (the catalog snapshots held in [std::set]s
      and the [validate] overloads), and
    - [el_storage.cpp] (version detection and the row-level operations on
      [Track], [MetaData], [MetaDataInteger] and [PerformanceData]).

    C++ [int] and [int64_t] values are carried as [Z]: the code compares,
    stores and returns them but never computes with them.  [std::string] is
    [string], [std::optional<T>] is [option T], [double] is the primitive
    binary64 [float].  A thrown exception is the [Throw] alternative of
    [result].

    What SQLite does with the values is part of the embedding where the
    facade shows it: the rowid of a new row stays within [int64_t]
    ([next_rowid]), a [double] is stored as SQLite stores it
    ([bind_double]), and the rows of a statement without [ORDER BY] come
    in the order of the key through which they are found
    ([get_all_meta_data_integer]). *)

From Stdlib Require Import ZArith List String Ascii Bool Lia.
From Stdlib Require Import OrdersEx DecimalString Sorted RelationClasses.
From Stdlib Require Import Floats.
From Stdlib Require Import Permutation.
Import ListNotations.

Set Implicit Arguments.
Open Scope Z_scope.

(** ** Exceptions and results *)

(** The exceptions of [djinterop/exceptions.hpp] that the embedded code
    throws, and the two error conditions of the SQLite wrapper that a
    single-row extraction can meet. *)
Inductive exn : Type :=
| database_inconsistency (what : string)
| track_deleted (id : Z)
| track_database_inconsistency (what : string) (id : Z)
| sqlite_no_rows
| sqlite_more_rows
| sqlite_error.

Inductive result (A : Type) : Type :=
| Ok (a : A)
| Throw (e : exn).

Arguments Ok {A} a.
Arguments Throw {A} e.

Definition bind {A B : Type} (r : result A) (k : A -> result B) : result B :=
  match r with
  | Ok a => k a
  | Throw e => Throw e
  end.

Declare Scope result_scope.
Delimit Scope result_scope with result.
Notation "x <- r ;; k" := (bind r (fun x => k))
  (at level 61, r at next level, right associativity) : result_scope.
Notation "r ;;; k" := (bind r (fun _ => k))
  (at level 61, right associativity) : result_scope.

(** ** Strings *)

(** [std::string::operator<]: lexicographic on the characters taken as
    unsigned values. *)
Definition string_lt (a b : string) : bool :=
  match String_as_OT.compare a b with
  | Lt => true
  | _ => false
  end.

(** [std::to_string(int)] *)
Definition to_string (z : Z) : string :=
  NilZero.string_of_int (Z.to_int z).

(** The one-character string holding a double quote. *)
Definition dquote : string := String (ascii_of_nat 34) EmptyString.

(** [mentions s msg]: the text [s] occurs in [msg]. *)
Fixpoint mentions (s msg : string) : bool :=
  String.prefix s msg ||
  match msg with
  | EmptyString => false
  | String _ msg' => mentions s msg'
  end.

(** ** [std::set] with a key-only [operator<] *)

Section StdSet.

Variables (A K : Type).
Variable key : A -> K.
Variable ltK : K -> K -> bool.

(** The four [operator<] overloads all have this shape. *)
Definition entry_lt (o1 o2 : A) : bool := ltK (key o1) (key o2).

(** [std::set::insert] on the in-order sequence of the tree: the new
    element goes before the first element it is less than; when an
    equivalent element (neither less than the other) is met, nothing is
    inserted. *)
Fixpoint set_insert (x : A) (s : list A) : list A :=
  match s with
  | [] => [x]
  | y :: s' =>
      if entry_lt x y then x :: y :: s'
      else if entry_lt y x then y :: set_insert x s'
      else y :: s'
  end.

(** A snapshot constructor: every row of the query is inserted, in the
    order the query yields them, into an initially empty set. *)
Definition set_of_rows (rows : list A) : list A :=
  fold_left (fun s x => set_insert x s) rows [].

(** The first entry of a sequence whose key is [k], for a decidable
    equality [eqK] of keys. *)
Definition entry_of_key (eqK : K -> K -> bool) (k : K) (s : list A)
  : option A :=
  find (fun e => eqK (key e) k) s.

End StdSet.

(** ** Catalog snapshots ([schema_validate_utils.hpp]) *)

Record master_list_entry : Type := {
  ml_db_name : string;
  ml_item_name : string;
  ml_table_name : string
}.

Record table_info_entry : Type := {
  ti_db_name : string;
  ti_table_name : string;
  ti_col_id : Z;
  ti_col_name : string;
  ti_col_type : string;
  ti_nullable : Z;
  ti_default_value : string;
  ti_part_of_pk : Z
}.

Record index_list_entry : Type := {
  il_db_name : string;
  il_table_name : string;
  il_index_id : Z;
  il_index_name : string;
  il_unique : Z;
  il_creation_method : string;
  il_partial_index : Z
}.

Record index_info_entry : Type := {
  ii_db_name : string;
  ii_index_name : string;
  ii_col_index_id : Z;
  ii_col_table_id : Z;
  ii_col_name : string
}.

(** Rows as the catalog queries yield them, before the constructors add the
    names they were called with. *)
Definition master_row : Type := (string * string)%type.
Definition table_info_row : Type :=
  (Z * string * string * Z * string * Z)%type.
Definition index_list_row : Type := (Z * string * Z * string * Z)%type.
Definition index_info_row : Type := (Z * Z * string)%type.

(** The entry each constructor's callback builds from a query row. *)
Definition master_list_entry_of (db_name : string) (r : master_row)
  : master_list_entry :=
  let '(item_name, table_name) := r in
  {| ml_db_name := db_name; ml_item_name := item_name;
     ml_table_name := table_name |}.

Definition table_info_entry_of (db_name table_name : string)
    (r : table_info_row) : table_info_entry :=
  let '(col_id, col_name, col_type, nullable, default_value, part_of_pk) :=
    r in
  {| ti_db_name := db_name; ti_table_name := table_name;
     ti_col_id := col_id; ti_col_name := col_name; ti_col_type := col_type;
     ti_nullable := nullable; ti_default_value := default_value;
     ti_part_of_pk := part_of_pk |}.

Definition index_list_entry_of (db_name table_name : string)
    (r : index_list_row) : index_list_entry :=
  let '(index_id, index_name, unique, creation_method, partial_index) := r in
  {| il_db_name := db_name; il_table_name := table_name;
     il_index_id := index_id; il_index_name := index_name;
     il_unique := unique; il_creation_method := creation_method;
     il_partial_index := partial_index |}.

Definition index_info_entry_of (db_name index_name : string)
    (r : index_info_row) : index_info_entry :=
  let '(col_index_id, col_table_id, col_name) := r in
  {| ii_db_name := db_name; ii_index_name := index_name;
     ii_col_index_id := col_index_id; ii_col_table_id := col_table_id;
     ii_col_name := col_name |}.

(** [master_list::master_list]: [rows] is the result of the
    [sqlite_master] query for [item_type]. *)
Definition master_list (db_name : string) (rows : list master_row)
  : list master_list_entry :=
  set_of_rows ml_item_name string_lt
    (map (master_list_entry_of db_name) rows).

(** [table_info::table_info]: [rows] is the result of the [table_info]
    pragma. *)
Definition table_info (db_name table_name : string)
    (rows : list table_info_row) : list table_info_entry :=
  set_of_rows ti_col_name string_lt
    (map (table_info_entry_of db_name table_name) rows).

(** [index_list::index_list] *)
Definition index_list (db_name table_name : string)
    (rows : list index_list_row) : list index_list_entry :=
  set_of_rows il_index_name string_lt
    (map (index_list_entry_of db_name table_name) rows).

(** [index_info::index_info] *)
Definition index_info (db_name index_name : string)
    (rows : list index_info_row) : list index_info_entry :=
  set_of_rows ii_col_index_id Z.ltb
    (map (index_info_entry_of db_name index_name) rows).

(** ** The [validate] overloads

    An iterator pair [(iter, end)] is the list of the entries from [iter]
    up to [end]; [iter == end] is the empty list and [*iter] is its head. *)

Section Validate.

Local Open Scope string_scope.

Definition validate_master_list (iter : list master_list_entry)
    (db_name item_type item_name table_name : string) : result unit :=
  match iter with
  | [] =>
      Throw (database_inconsistency
        ("Item " ++ item_name ++ " of type " ++ item_type ++
         " (relating to table " ++ table_name ++ ") missing from DB " ++
         db_name))
  | e :: _ =>
      if negb (ml_item_name e =? item_name) then
        Throw (database_inconsistency
          ("Item " ++ ml_item_name e ++ " of type " ++ item_type ++
           " (relating to table " ++ ml_table_name e ++ ") on " ++
           db_name ++ " in wrong order, expected " ++ item_name ++
           " (relating to table " ++ table_name ++ ")"))
      else Ok tt
  end.

Definition validate_table_info (iter : list table_info_entry)
    (col_name col_type : string) (nullable : Z) (default_value : string)
    (part_of_pk : Z) : result unit :=
  match iter with
  | [] => Throw (database_inconsistency ("Column " ++ col_name ++ " missing"))
  | e :: _ =>
      if negb (ti_col_name e =? col_name) then
        Throw (database_inconsistency
          ("Column " ++ ti_col_name e ++ " on " ++ ti_table_name e ++
           " in wrong order, expected " ++ col_name))
      else if negb (ti_col_type e =? col_type) then
        Throw (database_inconsistency
          ("Column " ++ col_name ++ " on " ++ ti_table_name e ++
           " has wrong type: " ++ ti_col_type e ++ ", expected " ++
           col_type))
      else if negb (ti_nullable e =? nullable)%Z then
        Throw (database_inconsistency
          ("Column " ++ col_name ++ " on " ++ ti_table_name e ++
           " has wrong nullability: " ++ to_string (ti_nullable e)))
      else if negb (ti_default_value e =? default_value) then
        Throw (database_inconsistency
          ("Column " ++ col_name ++ " on " ++ ti_table_name e ++
           " has wrong default value: " ++ dquote ++ ti_default_value e ++
           dquote ++ ", expected " ++ dquote ++ default_value ++ dquote))
      else if negb (ti_part_of_pk e =? part_of_pk)%Z then
        Throw (database_inconsistency
          ("Column " ++ col_name ++ " on " ++ ti_table_name e ++
           " has wrong PK membership: " ++ to_string (ti_part_of_pk e)))
      else Ok tt
  end.

Definition validate_index_list (iter : list index_list_entry)
    (index_name : string) (unique : Z) (creation_method : string)
    (partial_index : Z) : result unit :=
  match iter with
  | [] => Throw (database_inconsistency ("Index " ++ index_name ++ " missing"))
  | e :: _ =>
      if negb (il_index_name e =? index_name) then
        Throw (database_inconsistency
          ("Index " ++ il_index_name e ++ " on " ++ il_table_name e ++
           " in wrong order, expected " ++ index_name))
      else if negb (il_unique e =? unique)%Z then
        Throw (database_inconsistency
          ("Index " ++ index_name ++ " on " ++ il_table_name e ++
           " has wrong uniqueness: " ++ to_string (il_unique e)))
      else if negb (il_creation_method e =? creation_method) then
        Throw (database_inconsistency
          ("Index " ++ index_name ++ " on " ++ il_table_name e ++
           " has wrong creation method: " ++ dquote ++
           il_creation_method e ++ dquote))
      else if negb (il_partial_index e =? partial_index)%Z then
        Throw (database_inconsistency
          ("Index " ++ index_name ++ " on " ++ il_table_name e ++
           " has wrong " ++ dquote ++ "partiality" ++ dquote ++ ": " ++
           to_string (il_partial_index e)))
      else Ok tt
  end.

Definition validate_index_info (iter : list index_info_entry)
    (col_index_id : Z) (col_name : string) : result unit :=
  match iter with
  | [] =>
      Throw (database_inconsistency
        ("Col " ++ col_name ++ " missing from index"))
  | e :: _ =>
      if negb (ii_col_index_id e =? col_index_id)%Z then
        Throw (database_inconsistency
          ("Col " ++ col_name ++ " on " ++ ii_index_name e ++
           " has wrong rank within the index: " ++
           to_string (ii_col_index_id e)))
      else if negb (ii_col_name e =? col_name) then
        Throw (database_inconsistency
          ("Col " ++ ii_col_name e ++ " on " ++ ii_index_name e ++
           " in wrong order, expected " ++ col_name))
      else Ok tt
  end.

Definition validate_no_more {Entry : Type} (iter : list Entry)
    (validation_type item : string) : result unit :=
  match iter with
  | [] => Ok tt
  | _ :: _ =>
      Throw (database_inconsistency
        (validation_type ++ " for " ++ item ++
         " has more entries than expected"))
  end.

End Validate.

(** ** The lockstep walk of the per-version validators *)

(** One line of a reference schema definition, per catalog kind: the
    arguments a validator passes to the matching [validate] overload. *)
Record master_def : Type := {
  md_item_name : string;
  md_table_name : string
}.

Record column_def : Type := {
  cd_col_name : string;
  cd_col_type : string;
  cd_nullable : Z;
  cd_default_value : string;
  cd_part_of_pk : Z
}.

Record index_def : Type := {
  id_index_name : string;
  id_unique : Z;
  id_creation_method : string;
  id_partial_index : Z
}.

Record index_col_def : Type := {
  icd_col_index_id : Z;
  icd_col_name : string
}.

Section Lockstep.

Variables (Entry Ref : Type).
Variable step : list Entry -> Ref -> result unit.

(** Modelled from the spec: the per-version validators
    ([schema/schema_1_6_0.cpp] and its siblings) are not among the
    sources.  The spec says that validation walks the reference list and
    the observed list in lockstep and ends by checking that no observed
    entry is left: one [validate] call per reference line, the iterator
    advanced after each, then [validate_no_more]. *)
Fixpoint validate_all (iter : list Entry) (refs : list Ref)
    (validation_type item : string) : result unit :=
  match refs with
  | [] => validate_no_more iter validation_type item
  | r :: refs' =>
      (step iter r ;;;
       validate_all (tl iter) refs' validation_type item)%result
  end.

End Lockstep.

Definition validate_master_lists (db_name item_type : string)
    (iter : list master_list_entry) (refs : list master_def) : result unit :=
  validate_all
    (fun it r =>
       validate_master_list it db_name item_type (md_item_name r)
         (md_table_name r))
    iter refs "sqlite_master" db_name.

Definition validate_columns (table_name : string)
    (iter : list table_info_entry) (refs : list column_def) : result unit :=
  validate_all
    (fun it r =>
       validate_table_info it (cd_col_name r) (cd_col_type r)
         (cd_nullable r) (cd_default_value r) (cd_part_of_pk r))
    iter refs "table_info" table_name.

Definition validate_indices (table_name : string)
    (iter : list index_list_entry) (refs : list index_def) : result unit :=
  validate_all
    (fun it r =>
       validate_index_list it (id_index_name r) (id_unique r)
         (id_creation_method r) (id_partial_index r))
    iter refs "index_list" table_name.

Definition validate_index_columns (index_name : string)
    (iter : list index_info_entry) (refs : list index_col_def) : result unit :=
  validate_all
    (fun it r => validate_index_info it (icd_col_index_id r) (icd_col_name r))
    iter refs "index_info" index_name.

(** What each overload compares between an observed entry and a reference
    line. *)
Definition master_matches (e : master_list_entry) (r : master_def) : bool :=
  (ml_item_name e =? md_item_name r)%string.

Definition column_matches (e : table_info_entry) (r : column_def) : bool :=
  (ti_col_name e =? cd_col_name r)%string &&
  (ti_col_type e =? cd_col_type r)%string &&
  (ti_nullable e =? cd_nullable r) &&
  (ti_default_value e =? cd_default_value r)%string &&
  (ti_part_of_pk e =? cd_part_of_pk r).

Definition index_matches (e : index_list_entry) (r : index_def) : bool :=
  (il_index_name e =? id_index_name r)%string &&
  (il_unique e =? id_unique r) &&
  (il_creation_method e =? id_creation_method r)%string &&
  (il_partial_index e =? id_partial_index r).

Definition index_col_matches (e : index_info_entry) (r : index_col_def)
  : bool :=
  (ii_col_index_id e =? icd_col_index_id r) &&
  (ii_col_name e =? icd_col_name r)%string.

(** [raises r kind names]: [r] is a thrown [database_inconsistency] whose
    message contains the text [kind] and every text of [names]. *)
Definition raises (r : result unit) (kind : string) (names : list string)
  : Prop :=
  match r with
  | Throw (database_inconsistency msg) =>
      mentions kind msg = true /\
      forallb (fun n => mentions n msg) names = true
  | _ => False
  end.

(** ** Semantic versions *)

Record semantic_version : Type := {
  maj : Z;
  min : Z;
  pat : Z;
  metadata : option string
}.

(** Modelled from the spec: [semantic_version.hpp] and the named versions of
    [enginelibrary.hpp] are not among the sources.  The spec describes a
    version as an ordered triple (major, minor, patch) with lexicographic
    comparison, and 1.18.0 as having a firmware variant and a desktop
    variant; the variant tag is carried in [metadata] and takes no part in
    the ordering. *)
Definition version_ge (a b : semantic_version) : bool :=
  if negb (maj a =? maj b) then maj a >? maj b
  else if negb (min a =? min b) then min a >? min b
  else pat a >=? pat b.

Definition option_string_eqb (a b : option string) : bool :=
  match a, b with
  | Some x, Some y => (x =? y)%string
  | None, None => true
  | _, _ => false
  end.

Definition version_eqb (a b : semantic_version) : bool :=
  (maj a =? maj b) && (min a =? min b) && (pat a =? pat b) &&
  option_string_eqb (metadata a) (metadata b).

Definition plain_version (a b c : Z) : semantic_version :=
  {| maj := a; min := b; pat := c; metadata := None |}.

Definition version_1_6_0 : semantic_version := plain_version 1 6 0.
Definition version_1_7_1 : semantic_version := plain_version 1 7 1.
Definition version_1_9_1 : semantic_version := plain_version 1 9 1.
Definition version_1_11_1 : semantic_version := plain_version 1 11 1.
Definition version_1_13_0 : semantic_version := plain_version 1 13 0.
Definition version_1_13_1 : semantic_version := plain_version 1 13 1.
Definition version_1_13_2 : semantic_version := plain_version 1 13 2.
Definition version_1_15_0 : semantic_version := plain_version 1 15 0.
Definition version_1_17_0 : semantic_version := plain_version 1 17 0.
Definition version_1_18_0_fw : semantic_version :=
  {| maj := 1; min := 18; pat := 0; metadata := Some "fw"%string |}.
Definition version_1_18_0_ep : semantic_version :=
  {| maj := 1; min := 18; pat := 0; metadata := Some "ep"%string |}.

(** ** Rows and tables *)

(** The columns of the [Track] table that the facade names in its SQL. *)
Module Track.

Inductive column : Type :=
| playOrder | length | lengthCalculated | bpm | year | path | filename
| bitrate | bpmAnalyzed | trackType | isExternalTrack
| uuidOfExternalDatabase | idTrackInExternalDatabase | idAlbumArt
| fileBytes | pdbImportKey | uri | isBeatGridLocked.

Definition column_eq_dec (a b : column) : {a = b} + {a <> b}.
Proof. decide equality. Defined.

(** [names c cols]: the statement's column list names [c]. *)
Definition names (c : column) (cols : list column) : bool :=
  if in_dec column_eq_dec c cols then true else false.

End Track.

(** [track_row] of [el_storage.hpp], with the members in the order in which
    [get_track] initialises them. *)
Module track_row.

Record t : Type := {
  play_order : option Z;
  length : option Z;
  length_calculated : option Z;
  bpm : option Z;
  year : option Z;
  relative_path : option string;
  filename : option string;
  bitrate : option Z;
  bpm_analyzed : option float;
  track_type : option Z;
  is_external_track : option Z;
  uuid_of_external_database : option string;
  id_track_in_external_database : option Z;
  album_art_id : option Z;
  file_bytes : option Z;
  pdb_import_key : option Z;
  uri : option string;
  is_beatgrid_locked : option Z
}.

End track_row.

(** [keep cols c v]: the cell of column [c] when the statement names it,
    SQL [NULL] (an empty optional) otherwise. *)
Definition keep {V : Type} (cols : list Track.column) (c : Track.column)
    (v : option V) : option V :=
  if Track.names c cols then v else None.

(** The row an [INSERT INTO Track (cols) VALUES (...)] stores when the values
    bound are those of [x], and equally the [track_row] a
    [SELECT cols FROM Track] callback builds from the stored row [x]:
    columns that the statement does not name are [NULL], and members that
    the callback does not initialise are empty. *)
Definition project (cols : list Track.column) (x : track_row.t)
  : track_row.t :=
  {| track_row.play_order := keep cols Track.playOrder (track_row.play_order x);
     track_row.length := keep cols Track.length (track_row.length x);
     track_row.length_calculated :=
       keep cols Track.lengthCalculated (track_row.length_calculated x);
     track_row.bpm := keep cols Track.bpm (track_row.bpm x);
     track_row.year := keep cols Track.year (track_row.year x);
     track_row.relative_path :=
       keep cols Track.path (track_row.relative_path x);
     track_row.filename := keep cols Track.filename (track_row.filename x);
     track_row.bitrate := keep cols Track.bitrate (track_row.bitrate x);
     track_row.bpm_analyzed :=
       keep cols Track.bpmAnalyzed (track_row.bpm_analyzed x);
     track_row.track_type :=
       keep cols Track.trackType (track_row.track_type x);
     track_row.is_external_track :=
       keep cols Track.isExternalTrack (track_row.is_external_track x);
     track_row.uuid_of_external_database :=
       keep cols Track.uuidOfExternalDatabase
         (track_row.uuid_of_external_database x);
     track_row.id_track_in_external_database :=
       keep cols Track.idTrackInExternalDatabase
         (track_row.id_track_in_external_database x);
     track_row.album_art_id :=
       keep cols Track.idAlbumArt (track_row.album_art_id x);
     track_row.file_bytes :=
       keep cols Track.fileBytes (track_row.file_bytes x);
     track_row.pdb_import_key :=
       keep cols Track.pdbImportKey (track_row.pdb_import_key x);
     track_row.uri := keep cols Track.uri (track_row.uri x);
     track_row.is_beatgrid_locked :=
       keep cols Track.isBeatGridLocked (track_row.is_beatgrid_locked x) |}.

(** [assign cols c v old]: the cell of column [c] after an
    [UPDATE Track SET cols = ...]: the bound value when the statement names
    the column, the stored one otherwise. *)
Definition assign {V : Type} (cols : list Track.column) (c : Track.column)
    (v old : option V) : option V :=
  if Track.names c cols then v else old.

Definition overwrite (cols : list Track.column) (x old : track_row.t)
  : track_row.t :=
  {| track_row.play_order :=
       assign cols Track.playOrder (track_row.play_order x)
         (track_row.play_order old);
     track_row.length :=
       assign cols Track.length (track_row.length x) (track_row.length old);
     track_row.length_calculated :=
       assign cols Track.lengthCalculated (track_row.length_calculated x)
         (track_row.length_calculated old);
     track_row.bpm := assign cols Track.bpm (track_row.bpm x) (track_row.bpm old);
     track_row.year :=
       assign cols Track.year (track_row.year x) (track_row.year old);
     track_row.relative_path :=
       assign cols Track.path (track_row.relative_path x)
         (track_row.relative_path old);
     track_row.filename :=
       assign cols Track.filename (track_row.filename x)
         (track_row.filename old);
     track_row.bitrate :=
       assign cols Track.bitrate (track_row.bitrate x) (track_row.bitrate old);
     track_row.bpm_analyzed :=
       assign cols Track.bpmAnalyzed (track_row.bpm_analyzed x)
         (track_row.bpm_analyzed old);
     track_row.track_type :=
       assign cols Track.trackType (track_row.track_type x)
         (track_row.track_type old);
     track_row.is_external_track :=
       assign cols Track.isExternalTrack (track_row.is_external_track x)
         (track_row.is_external_track old);
     track_row.uuid_of_external_database :=
       assign cols Track.uuidOfExternalDatabase
         (track_row.uuid_of_external_database x)
         (track_row.uuid_of_external_database old);
     track_row.id_track_in_external_database :=
       assign cols Track.idTrackInExternalDatabase
         (track_row.id_track_in_external_database x)
         (track_row.id_track_in_external_database old);
     track_row.album_art_id :=
       assign cols Track.idAlbumArt (track_row.album_art_id x)
         (track_row.album_art_id old);
     track_row.file_bytes :=
       assign cols Track.fileBytes (track_row.file_bytes x)
         (track_row.file_bytes old);
     track_row.pdb_import_key :=
       assign cols Track.pdbImportKey (track_row.pdb_import_key x)
         (track_row.pdb_import_key old);
     track_row.uri := assign cols Track.uri (track_row.uri x) (track_row.uri old);
     track_row.is_beatgrid_locked :=
       assign cols Track.isBeatGridLocked (track_row.is_beatgrid_locked x)
         (track_row.is_beatgrid_locked old) |}.

(** Modelled from the spec: the enumerations [metadata_str_type] and
    [metadata_int_type] are declared in [el_storage.hpp], which is not among
    the sources.  Each is an [int64_t] with named values; the unknown slots
    carry their number in their name, and the integer slots follow the order
    4, 5, 1, 2, 3, 6, 8, 7, 9, 10, 11 that the comment in
    [set_meta_data_integer] and the spec give for the canonical write.  The
    named string slots are numbered 1 to 7, 10, 12 and 13; the results
    below use of these numbers only that the fifteen are pairwise
    different. *)
Module metadata_str_type.
Definition title : Z := 1.
Definition artist : Z := 2.
Definition album : Z := 3.
Definition genre : Z := 4.
Definition comment : Z := 5.
Definition publisher : Z := 6.
Definition composer : Z := 7.
Definition unknown_8 : Z := 8.
Definition unknown_9 : Z := 9.
Definition duration_mm_ss : Z := 10.
Definition ever_played : Z := 12.
Definition file_extension : Z := 13.
Definition unknown_15 : Z := 15.
Definition unknown_16 : Z := 16.
Definition unknown_17 : Z := 17.
End metadata_str_type.

Module metadata_int_type.
Definition last_played_ts : Z := 1.
Definition last_modified_ts : Z := 2.
Definition last_accessed_ts : Z := 3.
Definition musical_key : Z := 4.
Definition rating : Z := 5.
Definition unknown_6 : Z := 6.
Definition unknown_7 : Z := 7.
Definition unknown_8 : Z := 8.
Definition unknown_9 : Z := 9.
Definition last_play_hash : Z := 10.
Definition unknown_11 : Z := 11.
Definition unknown_12 : Z := 12.
End metadata_int_type.

(** A stored row of [MetaData] and of [MetaDataInteger]: the third column
    may hold SQL [NULL]. *)
Module MetaData.
Record row : Type := { id : Z; type : Z; text : option string }.
End MetaData.

Module MetaDataInteger.
Record row : Type := { id : Z; type : Z; value : option Z }.
End MetaDataInteger.

(** [meta_data_row] and [meta_data_integer_row] of [el_storage.hpp], as the
    bulk readers build them. *)
Module meta_data_row.
Record t : Type := { id : Z; type : Z; value : string }.
End meta_data_row.

Module meta_data_integer_row.
Record t : Type := { id : Z; type : Z; value : Z }.
End meta_data_integer_row.

(** A stored row of [PerformanceData]. *)
Module PerformanceData.
Record row : Type := {
  id : Z;
  isAnalyzed : Z;
  isRendered : Z;
  trackData : list Byte.byte;
  highResolutionWaveFormData : list Byte.byte;
  overviewWaveFormData : list Byte.byte;
  beatData : list Byte.byte;
  quickCues : list Byte.byte;
  loops : list Byte.byte;
  hasSeratoValues : Z;
  hasRekordboxValues : Z;
  hasTraktorValues : Z
}.
End PerformanceData.

Record sqlite_master_row : Type := {
  sm_type : string;
  sm_name : string;
  sm_tbl_name : string
}.

(** The three columns of an [Information] row that the facade reads. *)
Record information_row : Type := {
  schemaVersionMajor : Z;
  schemaVersionMinor : Z;
  schemaVersionPatch : Z
}.

(** The attached stores as the facade sees them.  An [Information] table
    that does not exist is [None]; [music_Track_table_info] is the result of
    [PRAGMA music.table_info('Track')]. *)
Record database : Type := {
  music_sqlite_master : list sqlite_master_row;
  perfdata_sqlite_master : list sqlite_master_row;
  music_Information : option (list information_row);
  perfdata_Information : option (list information_row);
  music_Track_table_info : list table_info_row;
  Track_rows : list (Z * track_row.t);
  MetaData_rows : list MetaData.row;
  MetaDataInteger_rows : list MetaDataInteger.row;
  PerformanceData_rows : list PerformanceData.row
}.

Definition with_Track (rows : list (Z * track_row.t)) (db : database)
  : database :=
  {| music_sqlite_master := music_sqlite_master db;
     perfdata_sqlite_master := perfdata_sqlite_master db;
     music_Information := music_Information db;
     perfdata_Information := perfdata_Information db;
     music_Track_table_info := music_Track_table_info db;
     Track_rows := rows;
     MetaData_rows := MetaData_rows db;
     MetaDataInteger_rows := MetaDataInteger_rows db;
     PerformanceData_rows := PerformanceData_rows db |}.

Definition with_MetaData (rows : list MetaData.row) (db : database)
  : database :=
  {| music_sqlite_master := music_sqlite_master db;
     perfdata_sqlite_master := perfdata_sqlite_master db;
     music_Information := music_Information db;
     perfdata_Information := perfdata_Information db;
     music_Track_table_info := music_Track_table_info db;
     Track_rows := Track_rows db;
     MetaData_rows := rows;
     MetaDataInteger_rows := MetaDataInteger_rows db;
     PerformanceData_rows := PerformanceData_rows db |}.

Definition with_MetaDataInteger (rows : list MetaDataInteger.row)
    (db : database) : database :=
  {| music_sqlite_master := music_sqlite_master db;
     perfdata_sqlite_master := perfdata_sqlite_master db;
     music_Information := music_Information db;
     perfdata_Information := perfdata_Information db;
     music_Track_table_info := music_Track_table_info db;
     Track_rows := Track_rows db;
     MetaData_rows := MetaData_rows db;
     MetaDataInteger_rows := rows;
     PerformanceData_rows := PerformanceData_rows db |}.

Definition with_perfdata_Information (rows : option (list information_row))
    (db : database) : database :=
  {| music_sqlite_master := music_sqlite_master db;
     perfdata_sqlite_master := perfdata_sqlite_master db;
     music_Information := music_Information db;
     perfdata_Information := rows;
     music_Track_table_info := music_Track_table_info db;
     Track_rows := Track_rows db;
     MetaData_rows := MetaData_rows db;
     MetaDataInteger_rows := MetaDataInteger_rows db;
     PerformanceData_rows := PerformanceData_rows db |}.

(** ** The SQLite wrapper *)

(** [db << sql >> callback]: the callback runs once per result row, in
    order; what it captures by reference is the state [S], and an exception
    it throws ends the statement. *)
Fixpoint for_each_row {Row S : Type} (f : S -> Row -> result S)
    (rows : list Row) (s : S) : result S :=
  match rows with
  | [] => Ok s
  | r :: rows' => (s' <- f s r ;; for_each_row f rows' s')%result
  end.

(** [db << sql >> std::tie(...)] and [db << sql >> value]: exactly one
    result row is expected. *)
Definition extract_single {Row : Type} (rows : option (list Row))
  : result Row :=
  match rows with
  | None => Throw sqlite_error
  | Some [] => Throw sqlite_no_rows
  | Some [r] => Ok r
  | Some (_ :: _ :: _) => Throw sqlite_more_rows
  end.

(** The largest rowid, the largest [int64_t]. *)
Definition INT64_MAX : Z := 9223372036854775807.

(** The rowid SQLite gives to a row inserted without one: 1 in an empty
    table, one more than the largest in use otherwise; when the largest
    rowid is itself in use, SQLite searches an unused rowid at random,
    between 1 and 2^62, and gives up with an error when it finds none.
    [random_rowid] is the candidate that search settles on: a candidate
    that is in use, or is out of that range, stands for a search that found
    none. *)
Definition next_rowid (random_rowid : Z) (ids : list Z) : result Z :=
  match ids with
  | [] => Ok 1
  | i :: ids' =>
      let largest := fold_left Z.max ids' i in
      if largest <? INT64_MAX then Ok (largest + 1)
      else if (0 <? random_rowid) &&
              (random_rowid <=? INT64_MAX / 2 + 1) &&
              negb (existsb (Z.eqb random_rowid) ids)
      then Ok random_rowid
      else Throw sqlite_error
  end.

(** Modelled from the spec: the definitions of the [MetaData] and
    [MetaDataInteger] tables are in the music store's schema, which is not
    among the sources.  The spec keeps at most one row per (id, type) and
    has metadata replaced per (id, type) key: [REPLACE INTO] removes the
    stored row with the key of the new row and adds the new row; the rows
    of a multi-row statement are processed in the order they are listed. *)
Definition replace_into {Row : Type} (same_key : Row -> Row -> bool)
    (table : list Row) (r : Row) : list Row :=
  filter (fun old => negb (same_key r old)) table ++ [r].

(** No row of a statement is replaced by a later row of the same
    statement. *)
Fixpoint distinct_keys {Row : Type} (same_key : Row -> Row -> bool)
    (rows : list Row) : bool :=
  match rows with
  | [] => true
  | r :: rows' =>
      negb (existsb (fun r' => same_key r' r) rows') &&
      distinct_keys same_key rows'
  end.

Definition MetaData_same_key (a b : MetaData.row) : bool :=
  (MetaData.id a =? MetaData.id b) && (MetaData.type a =? MetaData.type b).

Definition MetaDataInteger_same_key (a b : MetaDataInteger.row) : bool :=
  (MetaDataInteger.id a =? MetaDataInteger.id b) &&
  (MetaDataInteger.type a =? MetaDataInteger.type b).

(** ** Version detection ([el_storage.cpp], anonymous namespace) *)

(** [get_column_type], on the rows of [PRAGMA db_name.table_info(...)]. *)
Definition get_column_type (rows : list table_info_row)
    (column_name : string) : option string :=
  fold_left
    (fun column_type '(col_id, col_name, col_type, nullable, default_value,
                       part_of_pk) =>
       if (col_name =? column_name)%string then Some col_type
       else column_type)
    rows None.

(** [SELECT COUNT( * ) FROM sqlite_master WHERE name = 'Information'] *)
Definition count_named (name : string) (master : list sqlite_master_row)
  : Z :=
  Z.of_nat
    (List.length (filter (fun r => (sm_name r =? name)%string) master)).

Definition select_schema_version (rows : option (list information_row))
  : result semantic_version :=
  (r <- extract_single rows ;;
   Ok (plain_version (schemaVersionMajor r) (schemaVersionMinor r)
         (schemaVersionPatch r)))%result.

Definition get_version (db : database) : result semantic_version :=
  let table_count :=
    count_named "Information" (music_sqlite_master db) +
    count_named "Information" (perfdata_sqlite_master db) in
  if negb (table_count =? 2) then
    Throw (database_inconsistency
      "Did not find an `Information` table for both the music and performance databases")
  else
    (music_version <- select_schema_version (music_Information db) ;;
     (* the second statement also reads [music.Information] *)
     perfdata_version <- select_schema_version (music_Information db) ;;
     if negb (version_eqb music_version perfdata_version) then
       Throw (database_inconsistency
         "The stated schema versions do not match between the music and performance data databases!")
     else if (maj music_version =? 1) && (min music_version =? 18) &&
             (pat music_version =? 0) then
       let has_numeric_bools :=
         option_string_eqb
           (get_column_type (music_Track_table_info db) "isExternalTrack")
           (Some "NUMERIC"%string) in
       Ok (if has_numeric_bools then version_1_18_0_ep
           else version_1_18_0_fw)
     else Ok music_version)%result.

(** ** The storage facade ([el_storage]) *)

Record el_storage : Type := {
  version : semantic_version;
  db : database
}.

Definition with_db (f : database -> database) (s : el_storage) : el_storage :=
  {| version := version s; db := f (db s) |}.

(** The column lists of the four SQL shapes, as each statement spells them
    out. *)
Definition columns_1_18_0 : list Track.column :=
  [Track.playOrder; Track.length; Track.lengthCalculated; Track.bpm;
   Track.year; Track.path; Track.filename; Track.bitrate; Track.bpmAnalyzed;
   Track.trackType; Track.isExternalTrack; Track.uuidOfExternalDatabase;
   Track.idTrackInExternalDatabase; Track.idAlbumArt; Track.fileBytes;
   Track.pdbImportKey; Track.uri; Track.isBeatGridLocked].

Definition columns_1_15_0 : list Track.column :=
  [Track.playOrder; Track.length; Track.lengthCalculated; Track.bpm;
   Track.year; Track.path; Track.filename; Track.bitrate; Track.bpmAnalyzed;
   Track.trackType; Track.isExternalTrack; Track.uuidOfExternalDatabase;
   Track.idTrackInExternalDatabase; Track.idAlbumArt; Track.fileBytes;
   Track.pdbImportKey; Track.uri].

Definition columns_1_7_1 : list Track.column :=
  [Track.playOrder; Track.length; Track.lengthCalculated; Track.bpm;
   Track.year; Track.path; Track.filename; Track.bitrate; Track.bpmAnalyzed;
   Track.trackType; Track.isExternalTrack; Track.uuidOfExternalDatabase;
   Track.idTrackInExternalDatabase; Track.idAlbumArt; Track.pdbImportKey].

Definition columns_1_6_0 : list Track.column :=
  [Track.playOrder; Track.length; Track.lengthCalculated; Track.bpm;
   Track.year; Track.path; Track.filename; Track.bitrate; Track.bpmAnalyzed;
   Track.trackType; Track.isExternalTrack; Track.uuidOfExternalDatabase;
   Track.idTrackInExternalDatabase; Track.idAlbumArt].

(** A [double] as SQLite holds it once it is bound to a statement and
    stored in a column of real numbers: a NaN is stored as [NULL], and a
    negative zero is read back as zero; every other value is read back as
    it was bound. *)
Definition bind_double (f : float) : option float :=
  if PrimFloat.is_nan f then None
  else if PrimFloat.eqb f PrimFloat.zero then Some PrimFloat.zero
  else Some f.

(** The values of a [track_row] as they are bound to the parameters of a
    statement: the integers and the strings as they are, the one [double]
    through [bind_double]. *)
Definition bound (x : track_row.t) : track_row.t :=
  {| track_row.play_order := track_row.play_order x;
     track_row.length := track_row.length x;
     track_row.length_calculated := track_row.length_calculated x;
     track_row.bpm := track_row.bpm x;
     track_row.year := track_row.year x;
     track_row.relative_path := track_row.relative_path x;
     track_row.filename := track_row.filename x;
     track_row.bitrate := track_row.bitrate x;
     track_row.bpm_analyzed :=
       match track_row.bpm_analyzed x with
       | Some f => bind_double f
       | None => None
       end;
     track_row.track_type := track_row.track_type x;
     track_row.is_external_track := track_row.is_external_track x;
     track_row.uuid_of_external_database :=
       track_row.uuid_of_external_database x;
     track_row.id_track_in_external_database :=
       track_row.id_track_in_external_database x;
     track_row.album_art_id := track_row.album_art_id x;
     track_row.file_bytes := track_row.file_bytes x;
     track_row.pdb_import_key := track_row.pdb_import_key x;
     track_row.uri := track_row.uri x;
     track_row.is_beatgrid_locked := track_row.is_beatgrid_locked x |}.

(** [INSERT INTO Track (cols) VALUES (...)] followed by
    [last_insert_rowid()]; the statement throws when SQLite finds no
    rowid for the new row. *)
Definition insert_into_Track (cols : list Track.column) (x : track_row.t)
    (random_rowid : Z) (s : el_storage) : result (Z * el_storage) :=
  (rowid <- next_rowid random_rowid (map fst (Track_rows (db s))) ;;
   Ok (rowid,
       with_db
         (fun d =>
            with_Track (Track_rows d ++ [(rowid, project cols (bound x))])
              d)
         s))%result.

(** [el_storage::create_track]; the eighteen arguments are passed as one
    [track_row].  [random_rowid] is the engine's choice of a rowid when the
    largest one is in use (see [next_rowid]). *)
Definition create_track (s : el_storage) (x : track_row.t)
    (random_rowid : Z) : result (Z * el_storage) :=
  if version_ge (version s) version_1_18_0_fw then
    insert_into_Track columns_1_18_0 x random_rowid s
  else if version_ge (version s) version_1_15_0 then
    insert_into_Track columns_1_15_0 x random_rowid s
  else if version_ge (version s) version_1_7_1 then
    insert_into_Track columns_1_7_1 x random_rowid s
  else
    insert_into_Track columns_1_6_0 x random_rowid s.

(** [SELECT cols FROM Track WHERE id = ?] with the callback of
    [get_track]: a second row finds [result] already set. *)
Definition select_from_Track (cols : list Track.column) (id : Z)
    (s : el_storage) : result (option track_row.t) :=
  for_each_row
    (fun (result : option track_row.t) (row : Z * track_row.t) =>
       match result with
       | Some _ =>
           Throw (track_database_inconsistency
                    "More than one track with the same id" id)
       | None => Ok (Some (project cols (snd row)))
       end)
    (filter (fun row => fst row =? id) (Track_rows (db s)))
    None.

(** [el_storage::get_track] *)
Definition get_track (s : el_storage) (id : Z) : result track_row.t :=
  (result <-
     (if version_ge (version s) version_1_18_0_fw then
        select_from_Track columns_1_18_0 id s
      else if version_ge (version s) version_1_15_0 then
        select_from_Track columns_1_15_0 id s
      else if version_ge (version s) version_1_7_1 then
        select_from_Track columns_1_7_1 id s
      else
        select_from_Track columns_1_6_0 id s) ;;
   match result with
   | None => Throw (track_deleted id)
   | Some row => Ok row
   end)%result.

(** [UPDATE Track SET cols = ... WHERE id = ?] *)
Definition update_Track (cols : list Track.column) (id : Z) (x : track_row.t)
    (s : el_storage) : el_storage :=
  with_db
    (fun d =>
       with_Track
         (map (fun row =>
                 if fst row =? id
                 then (fst row, overwrite cols (bound x) (snd row))
                 else row)
              (Track_rows d)) d)
    s.

(** [el_storage::update_track] *)
Definition update_track (s : el_storage) (id : Z) (x : track_row.t)
  : el_storage :=
  if version_ge (version s) version_1_18_0_fw then
    update_Track columns_1_18_0 id x s
  else if version_ge (version s) version_1_15_0 then
    update_Track columns_1_15_0 id x s
  else if version_ge (version s) version_1_7_1 then
    update_Track columns_1_7_1 id x s
  else
    update_Track columns_1_6_0 id x s.

Definition is_some {V : Type} (o : option V) : bool :=
  match o with
  | Some _ => true
  | None => false
  end.

(** [el_storage::get_all_meta_data]:
    [SELECT id, type, text FROM MetaData WHERE id = ? AND text IS NOT NULL]
    and one [push_back] per result row. *)
Definition get_all_meta_data (s : el_storage) (id : Z)
  : list meta_data_row.t :=
  flat_map
    (fun r =>
       match MetaData.text r with
       | Some text =>
           if MetaData.id r =? id then
             [{| meta_data_row.id := MetaData.id r;
                 meta_data_row.type := MetaData.type r;
                 meta_data_row.value := text |}]
           else []
       | None => []
       end)
    (MetaData_rows (db s)).

(** [el_storage::get_meta_data] *)
Definition get_meta_data (s : el_storage) (id type : Z)
  : result (option string) :=
  for_each_row
    (fun (result : option string) (text : string) =>
       match result with
       | None => Ok (Some text)
       | Some _ =>
           Throw (track_database_inconsistency
                    "More than one MetaData entry of the same type for the same track"
                    id)
       end)
    (flat_map
       (fun r =>
          match MetaData.text r with
          | Some text =>
              if (MetaData.id r =? id) && (MetaData.type r =? type)
              then [text] else []
          | None => []
          end)
       (MetaData_rows (db s)))
    None.

(** [REPLACE INTO MetaData (id, type, text) VALUES ...], one statement with
    one or more rows. *)
Definition replace_into_MetaData (rows : list MetaData.row) (s : el_storage)
  : el_storage :=
  with_db
    (fun d =>
       with_MetaData
         (fold_left (replace_into MetaData_same_key) rows (MetaData_rows d))
         d)
    s.

(** [el_storage::set_meta_data(id, type, const std::string&)] *)
Definition set_meta_data_string (s : el_storage) (id type : Z)
    (content : string) : el_storage :=
  replace_into_MetaData
    [{| MetaData.id := id; MetaData.type := type;
        MetaData.text := Some content |}] s.

(** [el_storage::set_meta_data(id, type, stdx::optional<std::string>)] *)
Definition set_meta_data (s : el_storage) (id type : Z)
    (content : option string) : el_storage :=
  match content with
  | Some c => set_meta_data_string s id type c
  | None =>
      replace_into_MetaData
        [{| MetaData.id := id; MetaData.type := type;
            MetaData.text := None |}] s
  end.

(** The ten named arguments of the canonical string-metadata write. *)
Record meta_data_fields : Type := {
  title : option string;
  artist : option string;
  album : option string;
  genre : option string;
  comment : option string;
  publisher : option string;
  composer : option string;
  duration_mm_ss : option string;
  ever_played : option string;
  file_extension : option string
}.

(** The [VALUES] list of the canonical string-metadata statement. *)
Definition canonical_meta_data (id : Z) (f : meta_data_fields)
  : list MetaData.row :=
  let no_value : option string := None in
  let row type text :=
    {| MetaData.id := id; MetaData.type := type; MetaData.text := text |} in
  [row metadata_str_type.title (title f);
   row metadata_str_type.artist (artist f);
   row metadata_str_type.album (album f);
   row metadata_str_type.genre (genre f);
   row metadata_str_type.comment (comment f);
   row metadata_str_type.publisher (publisher f);
   row metadata_str_type.composer (composer f);
   row metadata_str_type.unknown_8 no_value;
   row metadata_str_type.unknown_9 no_value;
   row metadata_str_type.duration_mm_ss (duration_mm_ss f);
   row metadata_str_type.ever_played (ever_played f);
   row metadata_str_type.file_extension (file_extension f);
   row metadata_str_type.unknown_15 (Some "1"%string);
   row metadata_str_type.unknown_16 (Some "1"%string);
   row metadata_str_type.unknown_17 no_value].

(** [el_storage::set_meta_data(id, title, ..., file_extension)] *)
Definition set_meta_data_all (s : el_storage) (id : Z)
    (f : meta_data_fields) : el_storage :=
  replace_into_MetaData (canonical_meta_data id f) s.




(** [REPLACE INTO MetaDataInteger (id, type, value) VALUES ...] *)
Definition replace_into_MetaDataInteger (rows : list MetaDataInteger.row)
    (s : el_storage) : el_storage :=
  with_db
    (fun d =>
       with_MetaDataInteger
         (fold_left (replace_into MetaDataInteger_same_key) rows
            (MetaDataInteger_rows d))
         d)
    s.

(** [el_storage::set_meta_data_integer(id, type, content)] *)
Definition set_meta_data_integer (s : el_storage) (id type : Z)
    (content : option Z) : el_storage :=
  replace_into_MetaDataInteger
    [{| MetaDataInteger.id := id; MetaDataInteger.type := type;
        MetaDataInteger.value := content |}] s.

(** The six named arguments of the canonical integer-metadata write. *)
Record meta_data_integer_fields : Type := {
  musical_key : option Z;
  rating : option Z;
  last_played_timestamp : option Z;
  last_modified_timestamp : option Z;
  last_accessed_timestamp : option Z;
  last_play_hash : option Z
}.

(** The [VALUES] list of the canonical integer-metadata statement. *)
Definition canonical_meta_data_integer (id : Z)
    (f : meta_data_integer_fields) : list MetaDataInteger.row :=
  let no_value : option Z := None in
  let row type value :=
    {| MetaDataInteger.id := id; MetaDataInteger.type := type;
       MetaDataInteger.value := value |} in
  [row metadata_int_type.musical_key (musical_key f);
   row metadata_int_type.rating (rating f);
   row metadata_int_type.last_played_ts (last_played_timestamp f);
   row metadata_int_type.last_modified_ts (last_modified_timestamp f);
   row metadata_int_type.last_accessed_ts (last_accessed_timestamp f);
   row metadata_int_type.unknown_6 no_value;
   row metadata_int_type.unknown_8 no_value;
   row metadata_int_type.unknown_7 no_value;
   row metadata_int_type.unknown_9 no_value;
   row metadata_int_type.last_play_hash (last_play_hash f);
   row metadata_int_type.unknown_11 (Some 1);
   row metadata_int_type.unknown_12 (Some 1)].

(** [el_storage::set_meta_data_integer(id, musical_key, ...,
    last_play_hash)] *)
Definition set_meta_data_integer_all (s : el_storage) (id : Z)
    (f : meta_data_integer_fields) : el_storage :=
  replace_into_MetaDataInteger (canonical_meta_data_integer id f) s.

(** ** Performance data *)

Section PerformanceDataRows.

(** The six decoded blob shapes of [performance_data_format.hpp], which
    is not among the sources, are taken as parameters: for each its type,
    its default-constructed value and its [decode], which may throw. *)
Variables track_data high_res_waveform_data overview_waveform_data
  beat_data quick_cues_data loops_data : Type.

Variable default_track_data : track_data.
Variable default_high_res_waveform_data : high_res_waveform_data.
Variable default_overview_waveform_data : overview_waveform_data.
Variable default_beat_data : beat_data.
Variable default_quick_cues_data : quick_cues_data.
Variable default_loops_data : loops_data.

Variable track_data_decode : list Byte.byte -> result track_data.
Variable high_res_waveform_data_decode :
  list Byte.byte -> result high_res_waveform_data.
Variable overview_waveform_data_decode :
  list Byte.byte -> result overview_waveform_data.
Variable beat_data_decode : list Byte.byte -> result beat_data.
Variable quick_cues_data_decode : list Byte.byte -> result quick_cues_data.
Variable loops_data_decode : list Byte.byte -> result loops_data.

(** [performance_data_row] of [el_storage.hpp], with the members in the
    order in which [get_performance_data] initialises them. *)
Record performance_data_row : Type := {
  pd_id : Z;
  pd_is_analyzed : Z;
  pd_is_rendered : Z;
  pd_track_data : track_data;
  pd_high_res_waveform_data : high_res_waveform_data;
  pd_overview_waveform_data : overview_waveform_data;
  pd_beat_data : beat_data;
  pd_quick_cues_data : quick_cues_data;
  pd_loops_data : loops_data;
  pd_has_serato_values : Z;
  pd_has_rekordbox_values : Z;
  pd_has_traktor_values : Z
}.

(** [performance_data_row{id}]: aggregate initialisation gives the first
    member and value-initialises the others. *)
Definition performance_data_row_of_id (id : Z) : performance_data_row :=
  {| pd_id := id;
     pd_is_analyzed := 0;
     pd_is_rendered := 0;
     pd_track_data := default_track_data;
     pd_high_res_waveform_data := default_high_res_waveform_data;
     pd_overview_waveform_data := default_overview_waveform_data;
     pd_beat_data := default_beat_data;
     pd_quick_cues_data := default_quick_cues_data;
     pd_loops_data := default_loops_data;
     pd_has_serato_values := 0;
     pd_has_rekordbox_values := 0;
     pd_has_traktor_values := 0 |}.

(** The part of the three callbacks of [get_performance_data] that is the
    same for every version: the six blobs are decoded in column order.
    [rekordbox] and [traktor] are the values for the last two members: the
    column read, or zero where the statement does not select it. *)
Definition decode_row (r : PerformanceData.row) (rekordbox traktor : Z)
  : result performance_data_row :=
  (td <- track_data_decode (PerformanceData.trackData r) ;;
   hr <- high_res_waveform_data_decode
           (PerformanceData.highResolutionWaveFormData r) ;;
   ov <- overview_waveform_data_decode
           (PerformanceData.overviewWaveFormData r) ;;
   bd <- beat_data_decode (PerformanceData.beatData r) ;;
   qc <- quick_cues_data_decode (PerformanceData.quickCues r) ;;
   lp <- loops_data_decode (PerformanceData.loops r) ;;
   Ok {| pd_id := PerformanceData.id r;
         pd_is_analyzed := PerformanceData.isAnalyzed r;
         pd_is_rendered := PerformanceData.isRendered r;
         pd_track_data := td;
         pd_high_res_waveform_data := hr;
         pd_overview_waveform_data := ov;
         pd_beat_data := bd;
         pd_quick_cues_data := qc;
         pd_loops_data := lp;
         pd_has_serato_values := PerformanceData.hasSeratoValues r;
         pd_has_rekordbox_values := rekordbox;
         pd_has_traktor_values := traktor |})%result.

(** [SELECT ... FROM PerformanceData WHERE id = ?] with the callback of
    [get_performance_data]. *)
Definition select_from_PerformanceData
    (columns : PerformanceData.row -> Z * Z) (id : Z) (s : el_storage)
  : result (option performance_data_row) :=
  for_each_row
    (fun (result : option performance_data_row) r =>
       match result with
       | Some _ =>
           Throw (track_database_inconsistency
                    "More than one track with the same id"
                    (PerformanceData.id r))
       | None =>
           (row <- decode_row r (fst (columns r)) (snd (columns r)) ;;
            Ok (Some row))%result
       end)
    (filter (fun r => PerformanceData.id r =? id)
       (PerformanceData_rows (db s)))
    None.

(** [el_storage::get_performance_data] *)
Definition get_performance_data (s : el_storage) (id : Z)
  : result performance_data_row :=
  (result <-
     (if version_ge (version s) version_1_11_1 then
        select_from_PerformanceData
          (fun r => (PerformanceData.hasRekordboxValues r,
                     PerformanceData.hasTraktorValues r)) id s
      else if version_ge (version s) version_1_7_1 then
        select_from_PerformanceData
          (fun r => (PerformanceData.hasRekordboxValues r, 0)) id s
      else
        select_from_PerformanceData (fun r => (0, 0)) id s) ;;
   match result with
   | None =>
       (* a track without performance data has not been analysed yet:
          default data is returned *)
       Ok (performance_data_row_of_id id)
   | Some row => Ok row
   end)%result.

End PerformanceDataRows.

(** ** The other operations of the facade *)

(** [el_storage::get_meta_data_integer] *)
Definition get_meta_data_integer (s : el_storage) (id type : Z)
  : result (option Z) :=
  for_each_row
    (fun (result : option Z) (value : Z) =>
       match result with
       | None => Ok (Some value)
       | Some _ =>
           Throw (track_database_inconsistency
                    "More than one MetaDataInteger entry of the same type for the same track"
                    id)
       end)
    (flat_map
       (fun r =>
          match MetaDataInteger.value r with
          | Some value =>
              if (MetaDataInteger.id r =? id) &&
                 (MetaDataInteger.type r =? type)
              then [value] else []
          | None => []
          end)
       (MetaDataInteger_rows (db s)))
    None.

Definition with_PerformanceData (rows : list PerformanceData.row)
    (db : database) : database :=
  {| music_sqlite_master := music_sqlite_master db;
     perfdata_sqlite_master := perfdata_sqlite_master db;
     music_Information := music_Information db;
     perfdata_Information := perfdata_Information db;
     music_Track_table_info := music_Track_table_info db;
     Track_rows := Track_rows db;
     MetaData_rows := MetaData_rows db;
     MetaDataInteger_rows := MetaDataInteger_rows db;
     PerformanceData_rows := rows |}.

(** [el_storage::clear_performance_data]:
    [DELETE FROM PerformanceData WHERE id = ?] *)
Definition clear_performance_data (s : el_storage) (id : Z) : el_storage :=
  with_db
    (fun d =>
       with_PerformanceData
         (filter (fun r => negb (PerformanceData.id r =? id))
            (PerformanceData_rows d))
         d)
    s.

(** The key of [PerformanceData]: the table definition of the performance
    store ends in [PRIMARY KEY ( [id] )]. *)
Definition PerformanceData_same_key (a b : PerformanceData.row) : bool :=
  PerformanceData.id a =? PerformanceData.id b.

(** [INSERT OR REPLACE INTO PerformanceData (...) VALUES (...)] *)
Definition replace_into_PerformanceData (r : PerformanceData.row)
    (s : el_storage) : el_storage :=
  with_db
    (fun d =>
       with_PerformanceData
         (replace_into PerformanceData_same_key (PerformanceData_rows d) r)
         d)
    s.

Section PerformanceDataWrites.

(** The [encode] members of the six blob shapes, parameters like their
    [decode] counterparts. *)
Variables track_data high_res_waveform_data overview_waveform_data
  beat_data quick_cues_data loops_data : Type.

Variable track_data_encode : track_data -> list Byte.byte.
Variable high_res_waveform_data_encode :
  high_res_waveform_data -> list Byte.byte.
Variable overview_waveform_data_encode :
  overview_waveform_data -> list Byte.byte.
Variable beat_data_encode : beat_data -> list Byte.byte.
Variable quick_cues_data_encode : quick_cues_data -> list Byte.byte.
Variable loops_data_encode : loops_data -> list Byte.byte.

(** [el_storage::set_performance_data]; the twelve arguments are passed as
    one [performance_data_row].  A column that the statement of the version
    does not name is left without a value; no statement of the same version
    reads it, and the stored row carries 0 there. *)
Definition set_performance_data (s : el_storage)
    (x : performance_data_row track_data high_res_waveform_data
           overview_waveform_data beat_data quick_cues_data loops_data)
  : el_storage :=
  let row rekordbox traktor :=
    {| PerformanceData.id := pd_id x;
       PerformanceData.isAnalyzed := pd_is_analyzed x;
       PerformanceData.isRendered := pd_is_rendered x;
       PerformanceData.trackData := track_data_encode (pd_track_data x);
       PerformanceData.highResolutionWaveFormData :=
         high_res_waveform_data_encode (pd_high_res_waveform_data x);
       PerformanceData.overviewWaveFormData :=
         overview_waveform_data_encode (pd_overview_waveform_data x);
       PerformanceData.beatData := beat_data_encode (pd_beat_data x);
       PerformanceData.quickCues :=
         quick_cues_data_encode (pd_quick_cues_data x);
       PerformanceData.loops := loops_data_encode (pd_loops_data x);
       PerformanceData.hasSeratoValues := pd_has_serato_values x;
       PerformanceData.hasRekordboxValues := rekordbox;
       PerformanceData.hasTraktorValues := traktor |} in
  if version_ge (version s) version_1_11_1 then
    replace_into_PerformanceData
      (row (pd_has_rekordbox_values x) (pd_has_traktor_values x)) s
  else if version_ge (version s) version_1_7_1 then
    replace_into_PerformanceData (row (pd_has_rekordbox_values x) 0) s
  else
    replace_into_PerformanceData (row 0 0) s.

End PerformanceDataWrites.

(** ** Definitions the statements below compare the code with *)

(** The version in which a [Track] column was added, after the comments of
    [create_track] and [update_track] ("Added in 1.7.1", "Added in 1.15.0",
    "Added in 1.18.0"); [None] for the columns every version has. *)
Definition added_in (c : Track.column) : option semantic_version :=
  match c with
  | Track.fileBytes => Some version_1_15_0
  | Track.pdbImportKey => Some version_1_7_1
  | Track.uri => Some version_1_15_0
  | Track.isBeatGridLocked => Some version_1_18_0_fw
  | _ => None
  end.

Definition exists_in (v : semantic_version) (c : Track.column) : bool :=
  match added_in c with
  | None => true
  | Some v0 => version_ge v v0
  end.

(** The spec's fields-of(V). *)
Definition fields_of (v : semantic_version) : list Track.column :=
  filter (exists_in v) columns_1_18_0.

(** The column list that [create_track], [get_track] and [update_track]
    each select by the same chain of version tests. *)
Definition active_columns (v : semantic_version) : list Track.column :=
  if version_ge v version_1_18_0_fw then columns_1_18_0
  else if version_ge v version_1_15_0 then columns_1_15_0
  else if version_ge v version_1_7_1 then columns_1_7_1
  else columns_1_6_0.

(** Deleting the [MetaData] rows of one (id, type) key: what a
    [DELETE FROM MetaData WHERE id = ? AND type = ?] would do.  The facade
    has no such operation; it is what writing an absent content is compared
    with. *)
Definition delete_meta_data (s : el_storage) (id type : Z) : el_storage :=
  with_db
    (fun d =>
       with_MetaData
         (filter
            (fun r => negb ((MetaData.id r =? id) && (MetaData.type r =? type)))
            (MetaData_rows d))
         d)
    s.

(** The fifteen type tags of the canonical string-metadata write. *)
Definition canonical_str_types : list Z :=
  [metadata_str_type.title; metadata_str_type.artist;
   metadata_str_type.album; metadata_str_type.genre;
   metadata_str_type.comment; metadata_str_type.publisher;
   metadata_str_type.composer; metadata_str_type.unknown_8;
   metadata_str_type.unknown_9; metadata_str_type.duration_mm_ss;
   metadata_str_type.ever_played; metadata_str_type.file_extension;
   metadata_str_type.unknown_15; metadata_str_type.unknown_16;
   metadata_str_type.unknown_17].

(** What the bulk reader makes of one stored row of the track it reads:
    nothing when the text is [NULL]. *)
Definition visible (r : MetaData.row) : list meta_data_row.t :=
  match MetaData.text r with
  | Some text =>
      [{| meta_data_row.id := MetaData.id r;
          meta_data_row.type := MetaData.type r;
          meta_data_row.value := text |}]
  | None => []
  end.

(** How many of the ten named fields of a canonical write are given. *)
Definition number_given (f : meta_data_fields) : nat :=
  List.length
    (filter is_some
       [title f; artist f; album f; genre f; comment f; publisher f;
        composer f; duration_mm_ss f; ever_played f; file_extension f]).





(** The last two members of a [performance_data_row] as a version reads
    and writes them: the columns [hasRekordboxValues] (from 1.7.1) and
    [hasTraktorValues] (from 1.11.1) are zero before they exist. *)
Definition performance_flags (v : semantic_version) (rekordbox traktor : Z)
  : Z * Z :=
  (if version_ge v version_1_7_1 then rekordbox else 0,
   if version_ge v version_1_11_1 then traktor else 0).

(** A row of the [table_info] pragma without its column id. *)
Definition without_col_id (r : table_info_row)
  : string * string * Z * string * Z :=
  let '(col_id, col_name, col_type, nullable, default_value, part_of_pk) :=
    r in
  (col_name, col_type, nullable, default_value, part_of_pk).

(** An entry with its column id forgotten. *)
Definition forget_col_id (e : table_info_entry) : table_info_entry :=
  {| ti_db_name := ti_db_name e; ti_table_name := ti_table_name e;
     ti_col_id := 0; ti_col_name := ti_col_name e;
     ti_col_type := ti_col_type e; ti_nullable := ti_nullable e;
     ti_default_value := ti_default_value e;
     ti_part_of_pk := ti_part_of_pk e |}.

(** The name and the declared type of a row of the [table_info] pragma. *)
Definition row_col_name (r : table_info_row) : string :=
  let '(col_id, col_name, col_type, nullable, default_value, part_of_pk) :=
    r in col_name.

Definition row_col_type (r : table_info_row) : string :=
  let '(col_id, col_name, col_type, nullable, default_value, part_of_pk) :=
    r in col_type.

(** A [track_row] without any value. *)
Definition empty_track_row : track_row.t :=
  {| track_row.play_order := None; track_row.length := None;
     track_row.length_calculated := None; track_row.bpm := None;
     track_row.year := None; track_row.relative_path := None;
     track_row.filename := None; track_row.bitrate := None;
     track_row.bpm_analyzed := None; track_row.track_type := None;
     track_row.is_external_track := None;
     track_row.uuid_of_external_database := None;
     track_row.id_track_in_external_database := None;
     track_row.album_art_id := None; track_row.file_bytes := None;
     track_row.pdb_import_key := None; track_row.uri := None;
     track_row.is_beatgrid_locked := None |}.

(** The stored row after a statement of version [v] has written [x] over
    the row [old], member by member: the fourteen columns of every version
    take the values of [x], the [double] as SQLite stores it; a column
    added in a later version takes the value of [x] from that version on
    and keeps the value of [old] before. *)
Definition written_row (v : semantic_version) (x old : track_row.t)
  : track_row.t :=
  {| track_row.play_order := track_row.play_order x;
     track_row.length := track_row.length x;
     track_row.length_calculated := track_row.length_calculated x;
     track_row.bpm := track_row.bpm x;
     track_row.year := track_row.year x;
     track_row.relative_path := track_row.relative_path x;
     track_row.filename := track_row.filename x;
     track_row.bitrate := track_row.bitrate x;
     track_row.bpm_analyzed :=
       match track_row.bpm_analyzed x with
       | Some f => bind_double f
       | None => None
       end;
     track_row.track_type := track_row.track_type x;
     track_row.is_external_track := track_row.is_external_track x;
     track_row.uuid_of_external_database :=
       track_row.uuid_of_external_database x;
     track_row.id_track_in_external_database :=
       track_row.id_track_in_external_database x;
     track_row.album_art_id := track_row.album_art_id x;
     track_row.file_bytes :=
       if version_ge v version_1_15_0 then track_row.file_bytes x
       else track_row.file_bytes old;
     track_row.pdb_import_key :=
       if version_ge v version_1_7_1 then track_row.pdb_import_key x
       else track_row.pdb_import_key old;
     track_row.uri :=
       if version_ge v version_1_15_0 then track_row.uri x
       else track_row.uri old;
     track_row.is_beatgrid_locked :=
       if version_ge v version_1_18_0_fw then track_row.is_beatgrid_locked x
       else track_row.is_beatgrid_locked old |}.

(** The arguments [x] with the values of [y] in place of those for the
    columns that were added in a version later than [v]. *)
Definition with_later_values (v : semantic_version) (x y : track_row.t)
  : track_row.t :=
  {| track_row.play_order := track_row.play_order x;
     track_row.length := track_row.length x;
     track_row.length_calculated := track_row.length_calculated x;
     track_row.bpm := track_row.bpm x;
     track_row.year := track_row.year x;
     track_row.relative_path := track_row.relative_path x;
     track_row.filename := track_row.filename x;
     track_row.bitrate := track_row.bitrate x;
     track_row.bpm_analyzed := track_row.bpm_analyzed x;
     track_row.track_type := track_row.track_type x;
     track_row.is_external_track := track_row.is_external_track x;
     track_row.uuid_of_external_database :=
       track_row.uuid_of_external_database x;
     track_row.id_track_in_external_database :=
       track_row.id_track_in_external_database x;
     track_row.album_art_id := track_row.album_art_id x;
     track_row.file_bytes :=
       if version_ge v version_1_15_0 then track_row.file_bytes x
       else track_row.file_bytes y;
     track_row.pdb_import_key :=
       if version_ge v version_1_7_1 then track_row.pdb_import_key x
       else track_row.pdb_import_key y;
     track_row.uri :=
       if version_ge v version_1_15_0 then track_row.uri x
       else track_row.uri y;
     track_row.is_beatgrid_locked :=
       if version_ge v version_1_18_0_fw then track_row.is_beatgrid_locked x
       else track_row.is_beatgrid_locked y |}.

(** The keys of the three keyed tables, and the tables that hold at most
    one row per key, as a table with that key does. *)
Definition MetaData_key (r : MetaData.row) : Z * Z :=
  (MetaData.id r, MetaData.type r).

Definition MetaDataInteger_key (r : MetaDataInteger.row) : Z * Z :=
  (MetaDataInteger.id r, MetaDataInteger.type r).

Definition MetaData_keyed (s : el_storage) : Prop :=
  NoDup (map MetaData_key (MetaData_rows (db s))).

Definition MetaDataInteger_keyed (s : el_storage) : Prop :=
  NoDup (map MetaDataInteger_key (MetaDataInteger_rows (db s))).

Definition PerformanceData_keyed (s : el_storage) : Prop :=
  NoDup (map PerformanceData.id (PerformanceData_rows (db s))).

(** ** Sample libraries *)

Definition Information_table : sqlite_master_row :=
  {| sm_type := "table"; sm_name := "Information";
     sm_tbl_name := "Information" |}.

Definition Track_table : sqlite_master_row :=
  {| sm_type := "table"; sm_name := "Track"; sm_tbl_name := "Track" |}.

Definition PerformanceData_table : sqlite_master_row :=
  {| sm_type := "table"; sm_name := "PerformanceData";
     sm_tbl_name := "PerformanceData" |}.

(** A library without tracks whose music store states version [music] and
    whose performance store states version [perfdata], and whose
    [Track.isExternalTrack] column has the declared type [bool_type]. *)
Definition sample_database (music perfdata : Z * Z * Z) (bool_type : string)
  : database :=
  let info '(a, b, c) :=
    {| schemaVersionMajor := a; schemaVersionMinor := b;
       schemaVersionPatch := c |} in
  {| music_sqlite_master := [Track_table; Information_table];
     perfdata_sqlite_master := [PerformanceData_table; Information_table];
     music_Information := Some [info music];
     perfdata_Information := Some [info perfdata];
     music_Track_table_info :=
       [(0, "id", "INTEGER", 0, "", 1);
        (1, "playOrder", "INTEGER", 0, "", 0);
        (11, "isExternalTrack", bool_type, 0, "", 0)]%string;
     Track_rows := [];
     MetaData_rows := [];
     MetaDataInteger_rows := [];
     PerformanceData_rows := [] |}.

Definition sample_storage (v : semantic_version) : el_storage :=
  {| version := v;
     db := sample_database (maj v, min v, pat v) (maj v, min v, pat v)
             "NUMERIC" |}.

(** The canonical write of scenario S4: a title and an artist, nothing
    else. *)
Definition sample_fields : meta_data_fields :=
  {| title := Some "T"%string; artist := Some "A"%string; album := None;
     genre := None; comment := None; publisher := None; composer := None;
     duration_mm_ss := None; ever_played := None; file_extension := None |}.

(** A library at 1.15.0 in which track 1 already has a title and track 2
    has a title and a comment deleted by writing [NULL]. *)
Definition sample_storage_with_metadata : el_storage :=
  let s := sample_storage version_1_15_0 in
  with_db
    (with_MetaData
       [{| MetaData.id := 1; MetaData.type := metadata_str_type.title;
           MetaData.text := Some "Old"%string |};
        {| MetaData.id := 2; MetaData.type := metadata_str_type.title;
           MetaData.text := Some "Other"%string |};
        {| MetaData.id := 2; MetaData.type := metadata_str_type.comment;
           MetaData.text := None |}])
    s.

(** A library at 1.18.0 in which track 1 has a row of performance data
    with empty blobs. *)
Definition sample_storage_with_performance_data : el_storage :=
  {| version := version_1_18_0_fw;
     db :=
       {| music_sqlite_master := [Track_table; Information_table];
          perfdata_sqlite_master :=
            [PerformanceData_table; Information_table];
          music_Information := None;
          perfdata_Information := None;
          music_Track_table_info := [];
          Track_rows := [];
          MetaData_rows := [];
          MetaDataInteger_rows := [];
          PerformanceData_rows :=
            [{| PerformanceData.id := 1;
                PerformanceData.isAnalyzed := 1;
                PerformanceData.isRendered := 0;
                PerformanceData.trackData := [];
                PerformanceData.highResolutionWaveFormData := [];
                PerformanceData.overviewWaveFormData := [];
                PerformanceData.beatData := [];
                PerformanceData.quickCues := [];
                PerformanceData.loops := [];
                PerformanceData.hasSeratoValues := 0;
                PerformanceData.hasRekordboxValues := 0;
                PerformanceData.hasTraktorValues := 0 |}] |} |}.

(** The track of scenario S3, with a value in every member. *)
Definition sample_track : track_row.t :=
  {| track_row.play_order := Some 1;
     track_row.length := Some 240;
     track_row.length_calculated := Some 240;
     track_row.bpm := Some 128;
     track_row.year := Some 2020;
     track_row.relative_path := Some "/a/b.mp3"%string;
     track_row.filename := Some "b.mp3"%string;
     track_row.bitrate := Some 320000;
     track_row.bpm_analyzed := Some 127.5%float;
     track_row.track_type := Some 1;
     track_row.is_external_track := Some 0;
     track_row.uuid_of_external_database := Some "u"%string;
     track_row.id_track_in_external_database := Some 7;
     track_row.album_art_id := Some 1;
     track_row.file_bytes := Some 4096;
     track_row.pdb_import_key := Some 3;
     track_row.uri := Some "file:///a/b.mp3"%string;
     track_row.is_beatgrid_locked := Some 1 |}.

(** The result of [PRAGMA music.table_info('Track')] on a table of three
    columns, listed by column id. *)
Definition sample_table_info_rows : list table_info_row :=
  [(0, "id", "INTEGER", 0, "", 1);
   (1, "playOrder", "INTEGER", 0, "", 0);
   (2, "length", "INTEGER", 0, "", 0)]%string.

(** The reference lines for these three columns, in the order of their
    names. *)
Definition sample_column_defs : list column_def :=
  [ {| cd_col_name := "id"; cd_col_type := "INTEGER"; cd_nullable := 0;
       cd_default_value := ""; cd_part_of_pk := 1 |};
    {| cd_col_name := "length"; cd_col_type := "INTEGER"; cd_nullable := 0;
       cd_default_value := ""; cd_part_of_pk := 0 |};
    {| cd_col_name := "playOrder"; cd_col_type := "INTEGER";
       cd_nullable := 0; cd_default_value := ""; cd_part_of_pk := 0 |}
  ]%string.

(** A canonical integer write that gives a key and a rating only. *)
Definition sample_integer_fields : meta_data_integer_fields :=
  {| musical_key := Some 7; rating := Some 80;
     last_played_timestamp := Some 1600000000;
     last_modified_timestamp := None;
     last_accessed_timestamp := None; last_play_hash := None |}.

(** A library at 1.15.0 in which track 1 has a rating and track 2 a key. *)
Definition sample_storage_with_integers : el_storage :=
  with_db
    (with_MetaDataInteger
       [{| MetaDataInteger.id := 1;
           MetaDataInteger.type := metadata_int_type.rating;
           MetaDataInteger.value := Some 20 |};
        {| MetaDataInteger.id := 2;
           MetaDataInteger.type := metadata_int_type.musical_key;
           MetaDataInteger.value := Some 3 |}])
    (sample_storage version_1_15_0).

(** A row of performance data whose six blobs are byte sequences. *)
Definition sample_performance_data
  : performance_data_row (list Byte.byte) (list Byte.byte) (list Byte.byte)
      (list Byte.byte) (list Byte.byte) (list Byte.byte) :=
  {| pd_id := 1; pd_is_analyzed := 1; pd_is_rendered := 1;
     pd_track_data := [Byte.x01]; pd_high_res_waveform_data := [Byte.x02];
     pd_overview_waveform_data := []; pd_beat_data := [Byte.x03; Byte.x04];
     pd_quick_cues_data := []; pd_loops_data := [];
     pd_has_serato_values := 1; pd_has_rekordbox_values := 1;
     pd_has_traktor_values := 1 |}.

(** The sample track with a tempo that is not a number. *)
Definition sample_track_nan : track_row.t :=
  {| track_row.play_order := Some 1;
     track_row.length := Some 240;
     track_row.length_calculated := Some 240;
     track_row.bpm := Some 128;
     track_row.year := Some 2020;
     track_row.relative_path := Some "/a/b.mp3"%string;
     track_row.filename := Some "b.mp3"%string;
     track_row.bitrate := Some 320000;
     track_row.bpm_analyzed := Some PrimFloat.nan;
     track_row.track_type := Some 1;
     track_row.is_external_track := Some 0;
     track_row.uuid_of_external_database := Some "u"%string;
     track_row.id_track_in_external_database := Some 7;
     track_row.album_art_id := Some 1;
     track_row.file_bytes := Some 4096;
     track_row.pdb_import_key := Some 3;
     track_row.uri := Some "file:///a/b.mp3"%string;
     track_row.is_beatgrid_locked := Some 1 |}.

(** A library at 1.15.0 whose only track is the sample track, with id 1. *)
Definition sample_storage_with_track : el_storage :=
  with_db (with_Track [(1, project columns_1_15_0 sample_track)])
    (sample_storage version_1_15_0).

(** * Properties *)

(** ** Catalog snapshots keep the first entry of each key *)

Section StdSetFacts.

Variables (A K : Type).
Variable key : A -> K.
Variable ltK : K -> K -> bool.
Variable eqK : K -> K -> bool.

Hypothesis eqK_spec : forall a b, reflect (a = b) (eqK a b).
Hypothesis ltK_irrefl : forall a, ltK a a = false.
Hypothesis ltK_trans :
  forall a b c, ltK a b = true -> ltK b c = true -> ltK a c = true.
Hypothesis ltK_total :
  forall a b, ltK a b = false -> ltK b a = false -> a = b.

Let lt (x y : A) : Prop := entry_lt key ltK x y = true.
Let ins (s : list A) (x : A) : list A := set_insert key ltK x s.

Lemma set_insert_In x y s :
  In y (set_insert key ltK x s) -> y = x \/ In y s.
Proof.
  induction s as [|z s IH]; simpl.
  - intros [->|[]]; auto.
  - destruct (entry_lt key ltK x z); [|destruct (entry_lt key ltK z x)];
      simpl; intuition.
Qed.

Lemma set_insert_sorted x s :
  StronglySorted lt s -> StronglySorted lt (set_insert key ltK x s).
Proof.
  induction 1 as [|z s Hs IH Hz]; simpl.
  - repeat constructor.
  - destruct (entry_lt key ltK x z) eqn:Hxz.
    + constructor; [constructor; assumption|].
      constructor; [exact Hxz|].
      rewrite Forall_forall in *. intros y Hy.
      unfold lt, entry_lt in *. eauto.
    + destruct (entry_lt key ltK z x) eqn:Hzx.
      * constructor; [assumption|].
        rewrite Forall_forall in *. intros y Hy.
        apply set_insert_In in Hy as [->|Hy]; auto.
      * constructor; assumption.
Qed.

Lemma sorted_head_not_key z s k :
  StronglySorted lt (z :: s) -> ltK k (key z) = true \/ k = key z ->
  entry_of_key key eqK k s = None.
Proof.
  intros Hs Hk. apply StronglySorted_inv in Hs as [_ Hz].
  unfold entry_of_key. destruct (find _ s) as [e|] eqn:He; [|reflexivity].
  apply find_some in He as [Hin He].
  rewrite Forall_forall in Hz. specialize (Hz e Hin).
  unfold lt, entry_lt in Hz.
  destruct (eqK_spec (key e) k) as [Hek|]; [|discriminate].
  subst k. destruct Hk as [Hk|Hk].
  - pose proof (ltK_trans Hk Hz) as Hc.
    rewrite ltK_irrefl in Hc. discriminate.
  - rewrite Hk, ltK_irrefl in Hz. discriminate.
Qed.

Lemma entry_of_key_set_insert k x s :
  StronglySorted lt s ->
  entry_of_key key eqK k (set_insert key ltK x s) =
  match entry_of_key key eqK k s with
  | Some e => Some e
  | None => if eqK (key x) k then Some x else None
  end.
Proof.
  induction s as [|z s IH]; intros Hs; [reflexivity|].
  pose proof (StronglySorted_inv Hs) as [Hs' _].
  specialize (IH Hs').
  pose proof (sorted_head_not_key (k := k) Hs) as Hnone.
  unfold entry_of_key in *. cbn [set_insert find].
  destruct (entry_lt key ltK x z) eqn:Hxz.
  - cbn [find]. destruct (eqK_spec (key x) k) as [Hk|Hk].
    + assert (Hz : eqK (key z) k = false).
      { destruct (eqK_spec (key z) k) as [Hzk|]; [|reflexivity].
        unfold entry_lt in Hxz. rewrite Hk, <- Hzk, ltK_irrefl in Hxz.
        discriminate. }
      rewrite Hz, Hnone; [reflexivity|].
      left. subst k. exact Hxz.
    + destruct (eqK (key z) k); [reflexivity|].
      destruct (find _ s); reflexivity.
  - destruct (entry_lt key ltK z x) eqn:Hzx; cbn [find].
    + destruct (eqK (key z) k); [reflexivity|]. exact IH.
    + assert (Hkey : key x = key z) by (apply ltK_total; assumption).
      rewrite Hkey.
      destruct (eqK (key z) k); [reflexivity|].
      destruct (find _ s); reflexivity.
Qed.

Lemma fold_set_insert rows : forall s,
  StronglySorted lt s ->
  StronglySorted lt (fold_left ins rows s) /\
  forall k,
    entry_of_key key eqK k (fold_left ins rows s) =
    match entry_of_key key eqK k s with
    | Some e => Some e
    | None => entry_of_key key eqK k rows
    end.
Proof.
  induction rows as [|x rows IH]; intros s Hs; simpl.
  - split; [assumption|]. intros k. destruct (entry_of_key key eqK k s); reflexivity.
  - destruct (IH (ins s x) (set_insert_sorted x Hs)) as [Hsorted Hfind].
    split; [assumption|]. intros k. rewrite Hfind.
    unfold ins. rewrite entry_of_key_set_insert by assumption.
    destruct (entry_of_key key eqK k s); [reflexivity|].
    destruct (eqK (key x) k); reflexivity.
Qed.

Lemma sorted_NoDup_keys s : StronglySorted lt s -> NoDup (map key s).
Proof.
  induction 1 as [|z s Hs IH Hz]; simpl; constructor; [|assumption].
  rewrite in_map_iff. intros [e [He Hin]].
  rewrite Forall_forall in Hz. specialize (Hz e Hin).
  unfold lt, entry_lt in Hz. rewrite He, ltK_irrefl in Hz. discriminate.
Qed.

(** The set built from a query result has one entry per key, and the
    entry of a key is the first row of the query with that key. *)
Lemma set_of_rows_first_per_key rows :
  NoDup (map key (set_of_rows key ltK rows)) /\
  forall k,
    entry_of_key key eqK k (set_of_rows key ltK rows) = entry_of_key key eqK k rows.
Proof.
  destruct (fold_set_insert rows (s := [])) as [Hs Hk]; [constructor|].
  split; [apply sorted_NoDup_keys, Hs|]. intros k. apply Hk.
Qed.

End StdSetFacts.

Lemma string_lt_irrefl a : string_lt a a = false.
Proof.
  unfold string_lt. destruct (String_as_OT.compare_spec a a) as [_|H|_];
    try reflexivity.
  exfalso. exact (StrictOrder_Irreflexive a H).
Qed.

Lemma string_lt_trans a b c :
  string_lt a b = true -> string_lt b c = true -> string_lt a c = true.
Proof.
  unfold string_lt. intros Hab Hbc.
  assert (H1 : String_as_OT.lt a b)
    by (unfold String_as_OT.lt; destruct (String_as_OT.compare a b);
        congruence).
  assert (H2 : String_as_OT.lt b c)
    by (unfold String_as_OT.lt; destruct (String_as_OT.compare b c);
        congruence).
  pose proof (StrictOrder_Transitive a b c H1 H2) as H3.
  unfold String_as_OT.lt in H3. rewrite H3. reflexivity.
Qed.

Lemma string_lt_total a b :
  string_lt a b = false -> string_lt b a = false -> a = b.
Proof.
  unfold string_lt. intros Hab Hba.
  destruct (String_as_OT.compare_spec a b) as [H|H|H];
    [exact H|discriminate|].
  unfold String_as_OT.lt in H. rewrite H in Hba. discriminate.
Qed.

(** C9.  Each of the four catalog snapshots (master entries, table columns,
    index list, index columns) holds at most one entry per ordering key
    (item name, column name, index name, column rank), and the entry it
    holds for a key is the first one the catalog query yielded with that
    key: later rows with an equal key are dropped by the insertion, before
    any [validate] call reads the snapshot. *)
Theorem snapshot_keeps_first_entry_per_key :
  (forall db_name rows,
     NoDup (map ml_item_name (master_list db_name rows)) /\
     forall name,
       entry_of_key ml_item_name String.eqb name (master_list db_name rows) =
       entry_of_key ml_item_name String.eqb name
         (map (master_list_entry_of db_name) rows)) /\
  (forall db_name table_name rows,
     NoDup (map ti_col_name (table_info db_name table_name rows)) /\
     forall name,
       entry_of_key ti_col_name String.eqb name
         (table_info db_name table_name rows) =
       entry_of_key ti_col_name String.eqb name
         (map (table_info_entry_of db_name table_name) rows)) /\
  (forall db_name table_name rows,
     NoDup (map il_index_name (index_list db_name table_name rows)) /\
     forall name,
       entry_of_key il_index_name String.eqb name
         (index_list db_name table_name rows) =
       entry_of_key il_index_name String.eqb name
         (map (index_list_entry_of db_name table_name) rows)) /\
  (forall db_name index_name rows,
     NoDup (map ii_col_index_id (index_info db_name index_name rows)) /\
     forall rank,
       entry_of_key ii_col_index_id Z.eqb rank
         (index_info db_name index_name rows) =
       entry_of_key ii_col_index_id Z.eqb rank
         (map (index_info_entry_of db_name index_name) rows)).
Proof.
  assert (Hstr : forall (A : Type) (key : A -> string) rows,
             NoDup (map key (set_of_rows key string_lt rows)) /\
             forall k,
               entry_of_key key String.eqb k
                 (set_of_rows key string_lt rows) =
               entry_of_key key String.eqb k rows).
  { intros A key rows.
    apply (@set_of_rows_first_per_key A string key string_lt String.eqb
             String.eqb_spec string_lt_irrefl string_lt_trans
             string_lt_total). }
  assert (HZ : forall (A : Type) (key : A -> Z) rows,
             NoDup (map key (set_of_rows key Z.ltb rows)) /\
             forall k,
               entry_of_key key Z.eqb k (set_of_rows key Z.ltb rows) =
               entry_of_key key Z.eqb k rows).
  { intros A key rows.
    apply (@set_of_rows_first_per_key A Z key Z.ltb Z.eqb Z.eqb_spec
             Z.ltb_irrefl).
    - intros a b c Hab Hbc. apply Z.ltb_lt in Hab, Hbc. apply Z.ltb_lt. lia.
    - intros a b Hab Hba. apply Z.ltb_ge in Hab, Hba. lia. }
  split; [|split; [|split]]; intros; first [apply Hstr | apply HZ].
Qed.

(** A query that lists the item name [Track] twice: the snapshot keeps the
    row that came first and has no trace of the second. *)
Example master_list_drops_second_Track :
  master_list "music"
    [("Track", "Track"); ("Crate", "Crate"); ("Track", "Other")]%string =
  [ {| ml_db_name := "music"; ml_item_name := "Crate";
       ml_table_name := "Crate" |};
    {| ml_db_name := "music"; ml_item_name := "Track";
       ml_table_name := "Track" |} ]%string.
Proof. reflexivity. Qed.

(** ** Texts inside messages *)

Lemma prefix_empty t : String.prefix "" t = true.
Proof. destruct t; reflexivity. Qed.

Lemma prefix_append s t : String.prefix s (s ++ t) = true.
Proof.
  induction s as [|c s IH]; [apply prefix_empty|].
  cbn [String.append String.prefix].
  destruct (ascii_dec c c) as [_|Hc]; [exact IH|contradiction].
Qed.

Lemma prefix_append_l s : forall a b,
  String.prefix s a = true -> String.prefix s (a ++ b) = true.
Proof.
  induction s as [|c s IH]; intros a b; [intros _; apply prefix_empty|].
  destruct a as [|d a]; cbn [String.append String.prefix]; [discriminate|].
  destruct (ascii_dec c d); [apply IH|discriminate].
Qed.

Lemma mentions_unfold s msg :
  mentions s msg =
  String.prefix s msg ||
  match msg with
  | EmptyString => false
  | String _ msg' => mentions s msg'
  end.
Proof. destruct msg; reflexivity. Qed.

Lemma mentions_here s t : mentions s (s ++ t) = true.
Proof. rewrite mentions_unfold, prefix_append. reflexivity. Qed.

Lemma mentions_refl s : mentions s s = true.
Proof.
  assert (H : (s ++ "")%string = s)
    by (induction s; simpl; congruence).
  rewrite <- H at 2. apply mentions_here.
Qed.

Lemma mentions_append_r s p t :
  mentions s t = true -> mentions s (p ++ t) = true.
Proof.
  intros H. induction p as [|c p IH]; [exact H|].
  cbn [String.append]. rewrite mentions_unfold, IH. apply orb_true_r.
Qed.

Lemma mentions_append_l s a b :
  mentions s a = true -> mentions s (a ++ b) = true.
Proof.
  induction a as [|c a IH]; rewrite (mentions_unfold s).
  - rewrite orb_false_r. destruct s; [|discriminate].
    intros _. rewrite mentions_unfold, prefix_empty. reflexivity.
  - intros H. apply orb_true_iff in H as [H|H];
      rewrite (mentions_unfold s).
    + rewrite (prefix_append_l _ _ b H). reflexivity.
    + cbn [String.append]. rewrite (IH H). apply orb_true_r.
Qed.

(** Finds a text in a message built by concatenation: the text is one of
    the concatenated pieces, or lies inside a literal piece. *)
Ltac find_text :=
  repeat first
    [ reflexivity
    | apply mentions_here
    | apply mentions_refl
    | (apply mentions_append_l; reflexivity)
    | apply mentions_append_r ].

(** ** The lockstep walk stops at the first divergence *)

Section LockstepFacts.

Variables (Entry Ref : Type).
Variable step : list Entry -> Ref -> result unit.
Variable matches : Entry -> Ref -> bool.

Hypothesis step_matches :
  forall e iter r, step (e :: iter) r = Ok tt <-> matches e r = true.
Hypothesis step_raises :
  forall iter r,
    step iter r = Ok tt \/
    exists msg, step iter r = Throw (database_inconsistency msg).
Hypothesis step_end : forall r, step [] r <> Ok tt.

Let agree (e : Entry) (r : Ref) : Prop := matches e r = true.

Lemma validate_all_skip pre_obs pre_refs obs refs vt item :
  Forall2 agree pre_obs pre_refs ->
  validate_all step (pre_obs ++ obs) (pre_refs ++ refs) vt item =
  validate_all step obs refs vt item.
Proof.
  induction 1 as [|e r pre_obs pre_refs Her _ IH]; [reflexivity|].
  cbn [app validate_all tl].
  apply step_matches with (iter := (pre_obs ++ obs)%list) in Her.
  rewrite Her. exact IH.
Qed.

Lemma validate_all_ok_iff obs refs vt item :
  validate_all step obs refs vt item = Ok tt <-> Forall2 agree obs refs.
Proof.
  revert obs. induction refs as [|r refs IH]; intros obs; cbn [validate_all].
  - destruct obs; simpl; split; intros H;
      try constructor; try discriminate; inversion H.
  - destruct obs as [|e obs].
    + split; [|intros H; inversion H].
      destruct (step [] r) as [[]|] eqn:Hs; [|discriminate].
      destruct (step_end Hs).
    + cbn [tl]. destruct (step (e :: obs) r) as [[]|x] eqn:Hs; cbn [bind].
      * rewrite IH. apply step_matches in Hs.
        split; [intros H; constructor; assumption|].
        intros H; inversion H; assumption.
      * split; [discriminate|]. intros H. inversion H; subst.
        match goal with
        | Hm : agree e r |- _ =>
            apply step_matches with (iter := obs) in Hm; congruence
        end.
Qed.

Lemma validate_all_raises obs refs vt item :
  validate_all step obs refs vt item = Ok tt \/
  exists msg,
    validate_all step obs refs vt item = Throw (database_inconsistency msg).
Proof.
  revert obs. induction refs as [|r refs IH]; intros obs; cbn [validate_all].
  - destruct obs; simpl; eauto.
  - destruct (step_raises obs r) as [Hs|[msg Hs]]; rewrite Hs; cbn [bind];
      eauto.
Qed.

End LockstepFacts.

(** ** What each [validate] overload accepts *)

Ltac eqb_cases :=
  repeat match goal with
  | |- context [String.eqb ?a ?b] => destruct (String.eqb_spec a b)
  | |- context [Z.eqb ?a ?b] => destruct (Z.eqb_spec a b)
  end.

Lemma validate_master_list_ok e iter db_name item_type r :
  validate_master_list (e :: iter) db_name item_type (md_item_name r)
    (md_table_name r) = Ok tt <->
  master_matches e r = true.
Proof.
  unfold validate_master_list, master_matches.
  eqb_cases; cbn [negb]; split; congruence.
Qed.

Lemma validate_table_info_ok e iter r :
  validate_table_info (e :: iter) (cd_col_name r) (cd_col_type r)
    (cd_nullable r) (cd_default_value r) (cd_part_of_pk r) = Ok tt <->
  column_matches e r = true.
Proof.
  unfold validate_table_info, column_matches.
  eqb_cases; cbn [negb andb]; split; congruence.
Qed.

Lemma validate_index_list_ok e iter r :
  validate_index_list (e :: iter) (id_index_name r) (id_unique r)
    (id_creation_method r) (id_partial_index r) = Ok tt <->
  index_matches e r = true.
Proof.
  unfold validate_index_list, index_matches.
  eqb_cases; cbn [negb andb]; split; congruence.
Qed.

Lemma validate_index_info_ok e iter r :
  validate_index_info (e :: iter) (icd_col_index_id r) (icd_col_name r) =
    Ok tt <->
  index_col_matches e r = true.
Proof.
  unfold validate_index_info, index_col_matches.
  eqb_cases; cbn [negb andb]; split; congruence.
Qed.

Lemma validate_master_list_raises iter db_name item_type item_name table_name :
  validate_master_list iter db_name item_type item_name table_name = Ok tt \/
  exists msg,
    validate_master_list iter db_name item_type item_name table_name =
    Throw (database_inconsistency msg).
Proof.
  unfold validate_master_list. destruct iter; [eauto|].
  eqb_cases; cbn [negb]; eauto.
Qed.

Lemma validate_table_info_raises iter col_name col_type nullable
    default_value part_of_pk :
  validate_table_info iter col_name col_type nullable default_value
    part_of_pk = Ok tt \/
  exists msg,
    validate_table_info iter col_name col_type nullable default_value
      part_of_pk = Throw (database_inconsistency msg).
Proof.
  unfold validate_table_info. destruct iter; [eauto|].
  eqb_cases; cbn [negb]; eauto.
Qed.

Lemma validate_index_list_raises iter index_name unique creation_method
    partial_index :
  validate_index_list iter index_name unique creation_method partial_index =
    Ok tt \/
  exists msg,
    validate_index_list iter index_name unique creation_method
      partial_index = Throw (database_inconsistency msg).
Proof.
  unfold validate_index_list. destruct iter; [eauto|].
  eqb_cases; cbn [negb]; eauto.
Qed.

Lemma validate_index_info_raises iter col_index_id col_name :
  validate_index_info iter col_index_id col_name = Ok tt \/
  exists msg,
    validate_index_info iter col_index_id col_name =
    Throw (database_inconsistency msg).
Proof.
  unfold validate_index_info. destruct iter; [eauto|].
  eqb_cases; cbn [negb]; eauto.
Qed.

Lemma validate_master_lists_skip db_name item_type pre_obs pre_refs obs refs :
  Forall2 (fun e r => master_matches e r = true) pre_obs pre_refs ->
  validate_master_lists db_name item_type (pre_obs ++ obs)
    (pre_refs ++ refs) =
  validate_master_lists db_name item_type obs refs.
Proof.
  apply validate_all_skip. intros; apply validate_master_list_ok.
Qed.

Lemma validate_columns_skip table_name pre_obs pre_refs obs refs :
  Forall2 (fun e r => column_matches e r = true) pre_obs pre_refs ->
  validate_columns table_name (pre_obs ++ obs) (pre_refs ++ refs) =
  validate_columns table_name obs refs.
Proof.
  apply validate_all_skip. intros; apply validate_table_info_ok.
Qed.

Lemma validate_indices_skip table_name pre_obs pre_refs obs refs :
  Forall2 (fun e r => index_matches e r = true) pre_obs pre_refs ->
  validate_indices table_name (pre_obs ++ obs) (pre_refs ++ refs) =
  validate_indices table_name obs refs.
Proof.
  apply validate_all_skip. intros; apply validate_index_list_ok.
Qed.

Lemma validate_index_columns_skip index_name pre_obs pre_refs obs refs :
  Forall2 (fun e r => index_col_matches e r = true) pre_obs pre_refs ->
  validate_index_columns index_name (pre_obs ++ obs) (pre_refs ++ refs) =
  validate_index_columns index_name obs refs.
Proof.
  apply validate_all_skip. intros; apply validate_index_info_ok.
Qed.

Lemma validate_master_lists_skip_missing db_name item_type pre_obs pre_refs refs :
  Forall2 (fun e r => master_matches e r = true) pre_obs pre_refs ->
  validate_master_lists db_name item_type pre_obs (pre_refs ++ refs) =
  validate_master_lists db_name item_type [] refs.
Proof.
  intros H. pose proof (validate_master_lists_skip db_name item_type [] refs H) as E.
  rewrite app_nil_r in E. exact E.
Qed.

Lemma validate_master_lists_skip_extra db_name item_type pre_obs pre_refs obs :
  Forall2 (fun e r => master_matches e r = true) pre_obs pre_refs ->
  validate_master_lists db_name item_type (pre_obs ++ obs) pre_refs =
  validate_master_lists db_name item_type obs [].
Proof.
  intros H. pose proof (validate_master_lists_skip db_name item_type obs [] H) as E.
  rewrite app_nil_r in E. exact E.
Qed.

Lemma validate_columns_skip_missing table_name pre_obs pre_refs refs :
  Forall2 (fun e r => column_matches e r = true) pre_obs pre_refs ->
  validate_columns table_name pre_obs (pre_refs ++ refs) =
  validate_columns table_name [] refs.
Proof.
  intros H. pose proof (validate_columns_skip table_name [] refs H) as E.
  rewrite app_nil_r in E. exact E.
Qed.

Lemma validate_columns_skip_extra table_name pre_obs pre_refs obs :
  Forall2 (fun e r => column_matches e r = true) pre_obs pre_refs ->
  validate_columns table_name (pre_obs ++ obs) pre_refs =
  validate_columns table_name obs [].
Proof.
  intros H. pose proof (validate_columns_skip table_name obs [] H) as E.
  rewrite app_nil_r in E. exact E.
Qed.

Lemma validate_indices_skip_missing table_name pre_obs pre_refs refs :
  Forall2 (fun e r => index_matches e r = true) pre_obs pre_refs ->
  validate_indices table_name pre_obs (pre_refs ++ refs) =
  validate_indices table_name [] refs.
Proof.
  intros H. pose proof (validate_indices_skip table_name [] refs H) as E.
  rewrite app_nil_r in E. exact E.
Qed.

Lemma validate_indices_skip_extra table_name pre_obs pre_refs obs :
  Forall2 (fun e r => index_matches e r = true) pre_obs pre_refs ->
  validate_indices table_name (pre_obs ++ obs) pre_refs =
  validate_indices table_name obs [].
Proof.
  intros H. pose proof (validate_indices_skip table_name obs [] H) as E.
  rewrite app_nil_r in E. exact E.
Qed.

Lemma validate_index_columns_skip_missing index_name pre_obs pre_refs refs :
  Forall2 (fun e r => index_col_matches e r = true) pre_obs pre_refs ->
  validate_index_columns index_name pre_obs (pre_refs ++ refs) =
  validate_index_columns index_name [] refs.
Proof.
  intros H. pose proof (validate_index_columns_skip index_name [] refs H) as E.
  rewrite app_nil_r in E. exact E.
Qed.

Lemma validate_index_columns_skip_extra index_name pre_obs pre_refs obs :
  Forall2 (fun e r => index_col_matches e r = true) pre_obs pre_refs ->
  validate_index_columns index_name (pre_obs ++ obs) pre_refs =
  validate_index_columns index_name obs [].
Proof.
  intros H. pose proof (validate_index_columns_skip index_name obs [] H) as E.
  rewrite app_nil_r in E. exact E.
Qed.

(** Rewrites the walk to the point where the agreeing prefixes end. *)
Ltac at_divergence H :=
  first
    [ rewrite (validate_master_lists_skip _ _ _ _ H)
    | rewrite (validate_columns_skip _ _ _ H)
    | rewrite (validate_indices_skip _ _ _ H)
    | rewrite (validate_index_columns_skip _ _ _ H)
    | rewrite (validate_master_lists_skip_missing _ _ _ H)
    | rewrite (validate_columns_skip_missing _ _ H)
    | rewrite (validate_indices_skip_missing _ _ H)
    | rewrite (validate_index_columns_skip_missing _ _ H)
    | rewrite (validate_master_lists_skip_extra _ _ _ H)
    | rewrite (validate_columns_skip_extra _ _ H)
    | rewrite (validate_indices_skip_extra _ _ H)
    | rewrite (validate_index_columns_skip_extra _ _ H) ].

(** Decides the comparisons of a [validate] body from the hypotheses, then
    finds the texts in the message thrown. *)
Ltac raised :=
  unfold validate_master_lists, validate_columns, validate_indices,
    validate_index_columns;
  cbn [validate_all tl];
  unfold validate_master_list, validate_table_info, validate_index_list,
    validate_index_info, validate_no_more;
  repeat match goal with
  | H : ?a = ?b |- context [String.eqb ?a ?b] =>
      rewrite (proj2 (String.eqb_eq a b) H)
  | H : ?a <> ?b |- context [String.eqb ?a ?b] =>
      rewrite (proj2 (String.eqb_neq a b) H)
  | H : ?a = ?b |- context [Z.eqb ?a ?b] =>
      rewrite (proj2 (Z.eqb_eq a b) H)
  | H : ?a <> ?b |- context [Z.eqb ?a ?b] =>
      rewrite (proj2 (Z.eqb_neq a b) H)
  end;
  cbn [negb bind raises forallb andb];
  repeat match goal with
  | |- _ /\ _ => split
  | |- (_ && _)%bool = true => apply andb_true_intro; split
  | |- true = true => reflexivity
  end;
  find_text.

Section ValidateFacts.

Local Open Scope string_scope.

(** C7.  For each of the four catalog kinds, the lockstep walk of an
    observed catalog against a reference definition succeeds exactly when
    the two agree entry by entry on everything the overload compares, and
    otherwise throws [database_inconsistency] and nothing else.  After any
    prefixes that agree, the first divergence decides the exception, and its
    message names the diverging object: a missing entry; an entry in the
    wrong order; a column with the wrong type, nullability, default value
    or primary-key membership; an index with the wrong uniqueness, creation
    method or partiality; an index column with the wrong rank; and entries
    beyond the reference list. *)
Theorem validate_raises_at_first_divergence :
  (* master entries *)
  (forall db_name item_type,
     (forall obs refs,
        (validate_master_lists db_name item_type obs refs = Ok tt <->
         Forall2 (fun e r => master_matches e r = true) obs refs) /\
        (validate_master_lists db_name item_type obs refs = Ok tt \/
         exists msg,
           validate_master_lists db_name item_type obs refs =
           Throw (database_inconsistency msg))) /\
     (forall pre_obs pre_refs,
        Forall2 (fun e r => master_matches e r = true) pre_obs pre_refs ->
        (forall r refs,
           raises
             (validate_master_lists db_name item_type pre_obs
                (pre_refs ++ r :: refs))
             "missing" [md_item_name r; item_type; db_name]) /\
        (forall e obs r refs,
           ml_item_name e <> md_item_name r ->
           raises
             (validate_master_lists db_name item_type (pre_obs ++ e :: obs)
                (pre_refs ++ r :: refs))
             "wrong order" [ml_item_name e; md_item_name r; db_name]) /\
        (forall e obs,
           raises
             (validate_master_lists db_name item_type (pre_obs ++ e :: obs)
                pre_refs)
             "more entries than expected" [db_name]))) /\
  (* table columns *)
  (forall table_name,
     (forall obs refs,
        (validate_columns table_name obs refs = Ok tt <->
         Forall2 (fun e r => column_matches e r = true) obs refs) /\
        (validate_columns table_name obs refs = Ok tt \/
         exists msg,
           validate_columns table_name obs refs =
           Throw (database_inconsistency msg))) /\
     (forall pre_obs pre_refs,
        Forall2 (fun e r => column_matches e r = true) pre_obs pre_refs ->
        (forall r refs,
           raises (validate_columns table_name pre_obs (pre_refs ++ r :: refs))
             "missing" [cd_col_name r]) /\
        (forall e obs r refs,
           ti_col_name e <> cd_col_name r ->
           raises
             (validate_columns table_name (pre_obs ++ e :: obs)
                (pre_refs ++ r :: refs))
             "wrong order"
             [ti_col_name e; ti_table_name e; cd_col_name r]) /\
        (forall e obs r refs,
           ti_col_name e = cd_col_name r ->
           ti_col_type e <> cd_col_type r ->
           raises
             (validate_columns table_name (pre_obs ++ e :: obs)
                (pre_refs ++ r :: refs))
             "wrong type"
             [cd_col_name r; ti_table_name e; ti_col_type e; cd_col_type r]) /\
        (forall e obs r refs,
           ti_col_name e = cd_col_name r ->
           ti_col_type e = cd_col_type r ->
           ti_nullable e <> cd_nullable r ->
           raises
             (validate_columns table_name (pre_obs ++ e :: obs)
                (pre_refs ++ r :: refs))
             "wrong nullability"
             [cd_col_name r; ti_table_name e; to_string (ti_nullable e)]) /\
        (forall e obs r refs,
           ti_col_name e = cd_col_name r ->
           ti_col_type e = cd_col_type r ->
           ti_nullable e = cd_nullable r ->
           ti_default_value e <> cd_default_value r ->
           raises
             (validate_columns table_name (pre_obs ++ e :: obs)
                (pre_refs ++ r :: refs))
             "wrong default value"
             [cd_col_name r; ti_table_name e; ti_default_value e;
              cd_default_value r]) /\
        (forall e obs r refs,
           ti_col_name e = cd_col_name r ->
           ti_col_type e = cd_col_type r ->
           ti_nullable e = cd_nullable r ->
           ti_default_value e = cd_default_value r ->
           ti_part_of_pk e <> cd_part_of_pk r ->
           raises
             (validate_columns table_name (pre_obs ++ e :: obs)
                (pre_refs ++ r :: refs))
             "wrong PK membership"
             [cd_col_name r; ti_table_name e; to_string (ti_part_of_pk e)]) /\
        (forall e obs,
           raises (validate_columns table_name (pre_obs ++ e :: obs) pre_refs)
             "more entries than expected" [table_name]))) /\
  (* indices *)
  (forall table_name,
     (forall obs refs,
        (validate_indices table_name obs refs = Ok tt <->
         Forall2 (fun e r => index_matches e r = true) obs refs) /\
        (validate_indices table_name obs refs = Ok tt \/
         exists msg,
           validate_indices table_name obs refs =
           Throw (database_inconsistency msg))) /\
     (forall pre_obs pre_refs,
        Forall2 (fun e r => index_matches e r = true) pre_obs pre_refs ->
        (forall r refs,
           raises (validate_indices table_name pre_obs (pre_refs ++ r :: refs))
             "missing" [id_index_name r]) /\
        (forall e obs r refs,
           il_index_name e <> id_index_name r ->
           raises
             (validate_indices table_name (pre_obs ++ e :: obs)
                (pre_refs ++ r :: refs))
             "wrong order"
             [il_index_name e; il_table_name e; id_index_name r]) /\
        (forall e obs r refs,
           il_index_name e = id_index_name r ->
           il_unique e <> id_unique r ->
           raises
             (validate_indices table_name (pre_obs ++ e :: obs)
                (pre_refs ++ r :: refs))
             "wrong uniqueness"
             [id_index_name r; il_table_name e; to_string (il_unique e)]) /\
        (forall e obs r refs,
           il_index_name e = id_index_name r ->
           il_unique e = id_unique r ->
           il_creation_method e <> id_creation_method r ->
           raises
             (validate_indices table_name (pre_obs ++ e :: obs)
                (pre_refs ++ r :: refs))
             "wrong creation method"
             [id_index_name r; il_table_name e; il_creation_method e]) /\
        (forall e obs r refs,
           il_index_name e = id_index_name r ->
           il_unique e = id_unique r ->
           il_creation_method e = id_creation_method r ->
           il_partial_index e <> id_partial_index r ->
           raises
             (validate_indices table_name (pre_obs ++ e :: obs)
                (pre_refs ++ r :: refs))
             "partiality"
             [id_index_name r; il_table_name e;
              to_string (il_partial_index e)]) /\
        (forall e obs,
           raises (validate_indices table_name (pre_obs ++ e :: obs) pre_refs)
             "more entries than expected" [table_name]))) /\
  (* index columns *)
  (forall index_name,
     (forall obs refs,
        (validate_index_columns index_name obs refs = Ok tt <->
         Forall2 (fun e r => index_col_matches e r = true) obs refs) /\
        (validate_index_columns index_name obs refs = Ok tt \/
         exists msg,
           validate_index_columns index_name obs refs =
           Throw (database_inconsistency msg))) /\
     (forall pre_obs pre_refs,
        Forall2 (fun e r => index_col_matches e r = true) pre_obs pre_refs ->
        (forall r refs,
           raises
             (validate_index_columns index_name pre_obs
                (pre_refs ++ r :: refs))
             "missing from index" [icd_col_name r]) /\
        (forall e obs r refs,
           ii_col_index_id e <> icd_col_index_id r ->
           raises
             (validate_index_columns index_name (pre_obs ++ e :: obs)
                (pre_refs ++ r :: refs))
             "wrong rank"
             [icd_col_name r; ii_index_name e;
              to_string (ii_col_index_id e)]) /\
        (forall e obs r refs,
           ii_col_index_id e = icd_col_index_id r ->
           ii_col_name e <> icd_col_name r ->
           raises
             (validate_index_columns index_name (pre_obs ++ e :: obs)
                (pre_refs ++ r :: refs))
             "wrong order"
             [ii_col_name e; ii_index_name e; icd_col_name r]) /\
        (forall e obs,
           raises
             (validate_index_columns index_name (pre_obs ++ e :: obs)
                pre_refs)
             "more entries than expected" [index_name]))).
Proof.
  split; [|split; [|split]]; intros name; try intros item_type;
    (split;
     [ intros obs refs; split;
       [ apply validate_all_ok_iff; intros;
         first [ apply validate_master_list_ok | apply validate_table_info_ok
               | apply validate_index_list_ok | apply validate_index_info_ok
               | discriminate ]
       | apply validate_all_raises; intros;
         first [ apply validate_master_list_raises
               | apply validate_table_info_raises
               | apply validate_index_list_raises
               | apply validate_index_info_raises ] ]
     | intros pre_obs pre_refs Hpre;
       repeat match goal with |- _ /\ _ => split end; intros;
       at_divergence Hpre; raised ]).
Qed.

End ValidateFacts.

(** ** Version detection *)

(** Detection never reads the performance store's [Information] rows: the
    second statement selects from [music.Information] again. *)
Lemma get_version_ignores_perfdata_Information db rows :
  get_version (with_perfdata_Information rows db) = get_version db.
Proof. reflexivity. Qed.

(** What detection returns for a library that states 1.18.0. *)
Lemma get_version_1_18_0 db :
  count_named "Information" (music_sqlite_master db) +
  count_named "Information" (perfdata_sqlite_master db) = 2 ->
  music_Information db =
    Some [{| schemaVersionMajor := 1; schemaVersionMinor := 18;
             schemaVersionPatch := 0 |}] ->
  get_version db =
  Ok (if option_string_eqb
           (get_column_type (music_Track_table_info db) "isExternalTrack")
           (Some "NUMERIC"%string)
      then version_1_18_0_ep else version_1_18_0_fw).
Proof.
  intros Hcount Hinfo. unfold get_version. rewrite Hcount, Hinfo.
  reflexivity.
Qed.

(** C1.  On every library with its two [Information] tables whose stated
    version is 1.18.0, detection returns the desktop tag
    [version_1_18_0_ep] when [Track.isExternalTrack] is declared [NUMERIC]
    and the firmware tag [version_1_18_0_fw] when it is declared otherwise
    or not at all; the two tags differ. *)
Theorem get_version_1_18_0_variant db :
  count_named "Information" (music_sqlite_master db) +
  count_named "Information" (perfdata_sqlite_master db) = 2 ->
  music_Information db =
    Some [{| schemaVersionMajor := 1; schemaVersionMinor := 18;
             schemaVersionPatch := 0 |}] ->
  (get_column_type (music_Track_table_info db) "isExternalTrack" =
     Some "NUMERIC"%string ->
   get_version db = Ok version_1_18_0_ep) /\
  (get_column_type (music_Track_table_info db) "isExternalTrack" <>
     Some "NUMERIC"%string ->
   get_version db = Ok version_1_18_0_fw) /\
  version_1_18_0_ep <> version_1_18_0_fw.
Proof.
  intros Hcount Hinfo. rewrite (get_version_1_18_0 db Hcount Hinfo).
  split; [|split].
  - intros Htype. rewrite Htype. reflexivity.
  - intros Htype.
    destruct (get_column_type (music_Track_table_info db) "isExternalTrack")
      as [t|]; [|reflexivity].
    destruct (String.eqb_spec t "NUMERIC") as [->|Hne]; [congruence|].
    unfold option_string_eqb.
    apply String.eqb_neq in Hne. rewrite Hne. reflexivity.
  - discriminate.
Qed.

(** Two libraries that differ in the declared type of
    [Track.isExternalTrack] only. *)
Lemma get_version_1_18_0_variant_witness :
  get_version (sample_database (1, 18, 0) (1, 18, 0) "NUMERIC") =
    Ok version_1_18_0_ep /\
  get_version (sample_database (1, 18, 0) (1, 18, 0) "INTEGER") =
    Ok version_1_18_0_fw.
Proof.
  split.
  - apply (get_version_1_18_0_variant
             (sample_database (1, 18, 0) (1, 18, 0) "NUMERIC"));
      reflexivity.
  - apply (get_version_1_18_0_variant
             (sample_database (1, 18, 0) (1, 18, 0) "INTEGER"));
      [reflexivity|reflexivity|discriminate].
Defined.

(** With [NUMERIC], detection returns the desktop tag and not the firmware
    tag. *)
Lemma get_version_1_18_0_NUMERIC_is_not_fw :
  get_version (sample_database (1, 18, 0) (1, 18, 0) "NUMERIC") =
    Ok version_1_18_0_ep /\
  get_version (sample_database (1, 18, 0) (1, 18, 0) "NUMERIC") <>
    Ok version_1_18_0_fw.
Proof. split; [reflexivity|discriminate]. Qed.

(** C2.  On a library whose music store states 1.15.0 and whose performance
    store states 1.13.0, detection returns 1.15.0 and throws nothing. *)
Theorem get_version_accepts_disagreeing_stores :
  get_version (sample_database (1, 15, 0) (1, 13, 0) "NUMERIC") =
  Ok version_1_15_0.
Proof. reflexivity. Qed.

(** ** Track rows follow the active version *)

Ltac version_cases :=
  unfold version_ge, version_1_18_0_fw, version_1_15_0, version_1_11_1,
    version_1_7_1, plain_version;
  cbn [maj min pat];
  repeat match goal with
  | |- context [Z.eqb ?a ?b] => destruct (Z.eqb_spec a b)
  | |- context [Z.gtb ?a ?b] => rewrite (Z.gtb_ltb a b)
  | |- context [Z.geb ?a ?b] => rewrite (Z.geb_leb a b)
  | |- context [Z.ltb ?a ?b] => destruct (Z.ltb_spec a b)
  | |- context [Z.leb ?a ?b] => destruct (Z.leb_spec a b)
  end;
  cbn [negb]; try congruence; try lia.

Lemma version_ge_1_18_0_then_1_15_0 v :
  version_ge v version_1_18_0_fw = true -> version_ge v version_1_15_0 = true.
Proof. version_cases. Qed.

Lemma version_ge_1_15_0_then_1_7_1 v :
  version_ge v version_1_15_0 = true -> version_ge v version_1_7_1 = true.
Proof. version_cases. Qed.

(** The chain of version tests selects exactly the columns that exist in
    the version. *)
Lemma names_active_columns v c :
  Track.names c (active_columns v) = exists_in v c.
Proof.
  unfold active_columns, exists_in.
  destruct (version_ge v version_1_18_0_fw) eqn:H18.
  - pose proof (version_ge_1_18_0_then_1_15_0 v H18) as H15.
    pose proof (version_ge_1_15_0_then_1_7_1 v H15) as H7.
    destruct c; cbn [added_in]; rewrite ?H18, ?H15, ?H7; reflexivity.
  - destruct (version_ge v version_1_15_0) eqn:H15.
    + pose proof (version_ge_1_15_0_then_1_7_1 v H15) as H7.
      destruct c; cbn [added_in]; rewrite ?H18, ?H15, ?H7; reflexivity.
    + destruct (version_ge v version_1_7_1) eqn:H7;
        destruct c; cbn [added_in]; rewrite ?H18, ?H15, ?H7; reflexivity.
Qed.

Lemma names_fields_of v c : Track.names c (fields_of v) = exists_in v c.
Proof.
  unfold Track.names, fields_of.
  destruct (in_dec Track.column_eq_dec c
              (filter (exists_in v) columns_1_18_0)) as [Hin|Hout].
  - apply filter_In in Hin as [_ H]. symmetry. exact H.
  - destruct (exists_in v c) eqn:Hc; [|reflexivity].
    exfalso. apply Hout, filter_In. split; [|exact Hc].
    destruct c; cbn; tauto.
Qed.

Lemma project_ext cols cols' x :
  (forall c, Track.names c cols = Track.names c cols') ->
  project cols x = project cols' x.
Proof. intros H. unfold project, keep. rewrite !H. reflexivity. Qed.

Lemma project_active_columns v x :
  project (active_columns v) x = project (fields_of v) x.
Proof.
  apply project_ext. intros c.
  rewrite names_active_columns, names_fields_of. reflexivity.
Qed.

(** Reduces the projections of a [track_row] applied to a built row. *)
Ltac row_fields :=
  cbn [track_row.play_order track_row.length track_row.length_calculated
       track_row.bpm track_row.year track_row.relative_path
       track_row.filename track_row.bitrate track_row.bpm_analyzed
       track_row.track_type track_row.is_external_track
       track_row.uuid_of_external_database
       track_row.id_track_in_external_database track_row.album_art_id
       track_row.file_bytes track_row.pdb_import_key track_row.uri
       track_row.is_beatgrid_locked].

Lemma create_track_active s x r :
  create_track s x r =
  insert_into_Track (active_columns (version s)) x r s.
Proof.
  unfold create_track, active_columns.
  repeat match goal with
  | |- context [version_ge ?a ?b] => destruct (version_ge a b)
  end; reflexivity.
Qed.

Lemma update_track_active s id x :
  update_track s id x = update_Track (active_columns (version s)) id x s.
Proof.
  unfold update_track, active_columns.
  repeat match goal with
  | |- context [version_ge ?a ?b] => destruct (version_ge a b)
  end; reflexivity.
Qed.

Lemma get_track_active s id :
  get_track s id =
  (result <- select_from_Track (active_columns (version s)) id s ;;
   match result with
   | None => Throw (track_deleted id)
   | Some row => Ok row
   end)%result.
Proof.
  unfold get_track, active_columns.
  repeat match goal with
  | |- context [version_ge ?a ?b] => destruct (version_ge a b)
  end; reflexivity.
Qed.

(** [get_track] by the number of rows that carry the id. *)
Lemma get_track_rows s id :
  get_track s id =
  match filter (fun row => fst row =? id) (Track_rows (db s)) with
  | [] => Throw (track_deleted id)
  | [row] => Ok (project (fields_of (version s)) (snd row))
  | _ :: _ :: _ =>
      Throw (track_database_inconsistency
               "More than one track with the same id" id)
  end.
Proof.
  rewrite get_track_active. unfold select_from_Track.
  destruct (filter _ (Track_rows (db s))) as [|r1 [|r2 rows]];
    cbn [for_each_row bind]; try reflexivity.
  rewrite project_active_columns. reflexivity.
Qed.

(** C4.  Under every version, [get_track] throws [track_deleted] when no
    [Track] row has the id, throws [track_database_inconsistency] when more
    than one has it, and when exactly one has it returns that row, read
    through the columns of the version. *)
Theorem get_track_by_number_of_rows s id :
  get_track s id =
  match filter (fun row => fst row =? id) (Track_rows (db s)) with
  | [] => Throw (track_deleted id)
  | [row] => Ok (project (fields_of (version s)) (snd row))
  | _ :: _ :: _ =>
      Throw (track_database_inconsistency
               "More than one track with the same id" id)
  end.
Proof.
  rewrite get_track_active. unfold select_from_Track.
  destruct (filter _ (Track_rows (db s))) as [|r1 [|r2 rows]].
  - (* no row: the callback never runs *)
    reflexivity.
  - (* one row: the callback runs once, on an empty result *)
    cbn [for_each_row bind]. rewrite project_active_columns. reflexivity.
  - (* two rows or more: the second call finds the result set *)
    reflexivity.
Qed.

Lemma filter_none (A : Type) (f : A -> bool) (l : list A) :
  (forall x, In x l -> f x = false) -> filter f l = [].
Proof.
  induction l as [|x l IH]; intros H; [reflexivity|].
  cbn [filter]. rewrite (H x (or_introl eq_refl)).
  apply IH. intros y Hy. apply H. right. exact Hy.
Qed.

Lemma fold_left_max_bounds ids : forall i,
  i <= fold_left Z.max ids i /\
  forall j, In j ids -> j <= fold_left Z.max ids i.
Proof.
  induction ids as [|k ids IH]; intros i; cbn [fold_left].
  - split; [lia|]. intros j [].
  - destruct (IH (Z.max i k)) as [H1 H2]. split; [lia|].
    intros j [<-|Hj]; [lia|]. apply H2, Hj.
Qed.

Lemma existsb_eqb_In i ids : existsb (Z.eqb i) ids = true <-> In i ids.
Proof.
  rewrite existsb_exists. split.
  - intros [j [Hj Heq]]. apply Z.eqb_eq in Heq. subst j. exact Hj.
  - intros Hi. exists i. split; [exact Hi|apply Z.eqb_refl].
Qed.

(** The rowid of a new row: an unused one, or no rowid at all when the
    largest is in use. *)
Lemma next_rowid_cases r ids :
  match next_rowid r ids with
  | Ok rowid =>
      ~ In rowid ids /\
      (Forall (fun j => j < INT64_MAX) ids -> Forall (fun j => j < rowid) ids)
  | Throw e => e = sqlite_error /\ Exists (fun j => INT64_MAX <= j) ids
  end.
Proof.
  unfold next_rowid. destruct ids as [|i ids].
  - split; [intros []|]. intros _. constructor.
  - destruct (fold_left_max_bounds ids i) as [H1 H2].
    assert (Hall : forall j, In j (i :: ids) ->
                             j <= fold_left Z.max ids i).
    { intros j [<-|Hj]; [exact H1|apply H2, Hj]. }
    destruct (Z.ltb_spec (fold_left Z.max ids i) INT64_MAX) as [Hlt|Hge].
    + split.
      * intros Hin. apply Hall in Hin. lia.
      * intros _. apply Forall_forall. intros j Hj. apply Hall in Hj. lia.
    + assert (Hex : Exists (fun j => INT64_MAX <= j) (i :: ids)).
      { clear Hall H1 H2. revert i Hge.
        induction ids as [|k ids IH]; intros i Hge; cbn [fold_left] in Hge.
        - left. exact Hge.
        - destruct (Z_le_gt_dec INT64_MAX i) as [Hi|Hi]; [left; exact Hi|].
          right. apply Exists_cons.
          destruct (proj1 (Exists_cons _ _ _) (IH (Z.max i k) Hge))
            as [Hj|Hl]; [left; lia|right; exact Hl]. }
      destruct ((0 <? r) && (r <=? INT64_MAX / 2 + 1) &&
                negb (existsb (Z.eqb r) (i :: ids))) eqn:Hr.
      * apply andb_prop in Hr as [_ Hr]. apply negb_true_iff in Hr.
        split.
        -- intros Hin. apply existsb_eqb_In in Hin. congruence.
        -- intros Hsmall. exfalso.
           apply Exists_exists in Hex as [j [Hj Hle]].
           rewrite Forall_forall in Hsmall. specialize (Hsmall j Hj). lia.
      * split; [reflexivity|exact Hex].
Qed.

Lemma next_rowid_below ids r b :
  (ids = [] -> 1 <= b) -> b <= INT64_MAX ->
  Forall (fun j => j < b) ids ->
  exists rowid, next_rowid r ids = Ok rowid /\
                Forall (fun j => j < rowid) ids /\ rowid <= b.
Proof.
  intros Hempty Hb Hsmall. unfold next_rowid. destruct ids as [|i ids].
  - exists 1. repeat split; [constructor|apply Hempty; reflexivity].
  - destruct (fold_left_max_bounds ids i) as [H1 H2].
    assert (Hlt : fold_left Z.max ids i < b).
    { clear H1 H2 Hempty. revert i Hsmall.
      induction ids as [|k ids IH]; intros i Hsmall; cbn [fold_left].
      - inversion Hsmall. assumption.
      - apply IH. inversion Hsmall as [|? ? Hi Hrest]. subst.
        inversion Hrest as [|? ? Hk Hids]. subst.
        constructor; [lia|exact Hids]. }
    replace (fold_left Z.max ids i <? INT64_MAX) with true
      by (symmetry; apply Z.ltb_lt; lia).
    eexists. split; [reflexivity|]. split; [|lia].
    apply Forall_forall. intros j [<-|Hj]; [lia|].
    specialize (H2 j Hj). lia.
Qed.

Lemma filter_unused_rowid (rows : list (Z * track_row.t)) rowid row :
  ~ In rowid (map fst rows) ->
  filter (fun row => fst row =? rowid) (rows ++ [(rowid, row)]) =
  [(rowid, row)].
Proof.
  intros Hout. rewrite filter_app. cbn [filter fst].
  rewrite Z.eqb_refl.
  rewrite filter_none; [reflexivity|].
  intros row' Hrow. apply Z.eqb_neq. intros Heq. apply Hout.
  rewrite <- Heq. apply in_map, Hrow.
Qed.

(** The row that a statement over the columns of a version stores, member
    by member. *)
Lemma project_bound v x :
  project (active_columns v) (bound x) = written_row v x empty_track_row.
Proof.
  unfold project, keep, bound, written_row, empty_track_row. row_fields.
  rewrite !names_active_columns. unfold exists_in. cbn [added_in].
  repeat match goal with
  | |- context [version_ge ?a ?b] => destruct (version_ge a b)
  end; reflexivity.
Qed.

Lemma overwrite_bound v x old :
  overwrite (active_columns v) (bound x) old = written_row v x old.
Proof.
  unfold overwrite, assign, bound, written_row. row_fields.
  rewrite !names_active_columns. unfold exists_in. cbn [added_in].
  reflexivity.
Qed.

Lemma project_written_row v x old :
  project (fields_of v) (written_row v x old) =
  written_row v x empty_track_row.
Proof.
  unfold project, keep, written_row, empty_track_row. row_fields.
  rewrite !names_fields_of. unfold exists_in. cbn [added_in].
  repeat match goal with
  | |- context [version_ge ?a ?b] => destruct (version_ge a b)
  end; reflexivity.
Qed.

Lemma written_row_with_later_values v x y old :
  written_row v (with_later_values v x y) old = written_row v x old.
Proof.
  unfold written_row, with_later_values. row_fields.
  repeat match goal with
  | |- context [version_ge ?a ?b] => destruct (version_ge a b)
  end; reflexivity.
Qed.

(** [create_track] by what it stores and returns. *)
Lemma create_track_rows s x r :
  create_track s x r =
  match next_rowid r (map fst (Track_rows (db s))) with
  | Ok rowid =>
      Ok (rowid,
          with_db
            (with_Track
               (Track_rows (db s) ++
                [(rowid, written_row (version s) x empty_track_row)]))
            s)
  | Throw e => Throw e
  end.
Proof.
  rewrite create_track_active. unfold insert_into_Track.
  destruct (next_rowid r (map fst (Track_rows (db s)))) as [rowid|e];
    cbn [bind]; [|reflexivity].
  rewrite project_bound. reflexivity.
Qed.

(** [update_track] by what it stores. *)
Lemma update_track_rows s id x :
  update_track s id x =
  with_db
    (with_Track
       (map (fun row =>
               if fst row =? id
               then (fst row, written_row (version s) x (snd row))
               else row)
          (Track_rows (db s))))
    s.
Proof.
  rewrite update_track_active. unfold update_Track, with_db, with_Track.
  do 2 f_equal. apply map_ext. intros row.
  rewrite overwrite_bound. reflexivity.
Qed.

(** C8.  Under every version [v], [create_track] stores under an unused id
    a row that holds, member by member, the values supplied for the columns
    that exist in [v], the [double] as SQLite stores it ([bind_double]), and
    no value for a column added later; it throws only when the largest
    rowid is in use, and never when every stored id is below it.
    [update_track] sets those same members of the rows of the id and leaves
    the others as they are stored.  The values supplied for columns added
    in a later version have no effect on either.  A row that [get_track]
    returns has no value in a member whose column was added later than [v],
    and [get_track] of the id that [create_track] returns is the row
    stored. *)
Theorem track_operations_follow_version s x r :
  let v := version s in
  let rows := Track_rows (db s) in
  (* create_track *)
  match create_track s x r with
  | Ok (id, s') =>
      ~ In id (map fst rows) /\
      Track_rows (db s') = rows ++ [(id, written_row v x empty_track_row)] /\
      version s' = v /\
      get_track s' id = Ok (written_row v x empty_track_row)
  | Throw e => e = sqlite_error /\ Exists (fun row => INT64_MAX <= fst row) rows
  end /\
  (Forall (fun row => fst row < INT64_MAX) rows ->
   exists id s', create_track s x r = Ok (id, s')) /\
  (forall y, create_track s (with_later_values v x y) r = create_track s x r) /\
  (* update_track *)
  (forall i,
     Track_rows (db (update_track s i x)) =
     map (fun row =>
            if fst row =? i then (fst row, written_row v x (snd row))
            else row)
       rows /\
     version (update_track s i x) = v /\
     forall y, update_track s i (with_later_values v x y) =
               update_track s i x) /\
  (* get_track *)
  (forall i row,
     get_track s i = Ok row ->
     (version_ge v version_1_7_1 = false ->
      track_row.pdb_import_key row = None) /\
     (version_ge v version_1_15_0 = false ->
      track_row.file_bytes row = None /\ track_row.uri row = None) /\
     (version_ge v version_1_18_0_fw = false ->
      track_row.is_beatgrid_locked row = None)).
Proof.
  intros v rows. subst v rows.
  split; [|split; [|split; [|split]]].
  - rewrite create_track_rows.
    pose proof (next_rowid_cases r (map fst (Track_rows (db s)))) as Hnext.
    destruct (next_rowid r (map fst (Track_rows (db s)))) as [rowid|e].
    + destruct Hnext as [Hout _].
      split; [exact Hout|]. split; [reflexivity|]. split; [reflexivity|].
      rewrite get_track_rows.
      unfold with_db, with_Track. cbn [db version Track_rows].
      rewrite (filter_unused_rowid _ _ _ Hout). cbn [snd].
      rewrite project_written_row. reflexivity.
    + destruct Hnext as [He Hex]. split; [exact He|].
      apply Exists_exists in Hex as [j [Hj Hle]].
      apply in_map_iff in Hj as [row [<- Hrow]].
      apply Exists_exists. exists row. split; assumption.
  - intros Hsmall. rewrite create_track_rows.
    destruct (@next_rowid_below (map fst (Track_rows (db s))) r INT64_MAX)
      as [rowid [Hnext _]]; [intros _; unfold INT64_MAX; lia|lia| |].
    { apply Forall_forall. intros j Hj.
      apply in_map_iff in Hj as [row [<- Hrow]].
      rewrite Forall_forall in Hsmall. apply Hsmall, Hrow. }
    rewrite Hnext. eauto.
  - intros y. rewrite !create_track_rows, written_row_with_later_values.
    reflexivity.
  - intros i. rewrite !update_track_rows.
    unfold with_db, with_Track. cbn [db version Track_rows].
    split; [reflexivity|]. split; [reflexivity|].
    intros y. rewrite !update_track_rows.
    unfold with_db, with_Track. do 2 f_equal.
    apply map_ext. intros row.
    rewrite written_row_with_later_values. reflexivity.
  - intros i row. rewrite get_track_rows.
    destruct (filter _ (Track_rows (db s))) as [|r1 [|r2 rows]];
      try discriminate.
    intros H. injection H as <-.
    unfold project, keep. row_fields.
    rewrite !names_fields_of. unfold exists_in. cbn [added_in].
    split; [|split]; intros Hv; rewrite Hv; auto.
Qed.

(** What SQLite makes of a [double]: a NaN is lost, a negative zero loses
    its sign, another value is kept. *)
Example bind_double_values :
  bind_double PrimFloat.nan = None /\
  bind_double PrimFloat.neg_zero = Some PrimFloat.zero /\
  bind_double PrimFloat.infinity = Some PrimFloat.infinity /\
  bind_double 127.5%float = Some 127.5%float.
Proof. repeat split. Qed.

(** With the largest rowid in use, the new row gets the unused rowid that
    the engine finds, and none when it finds none. *)
Example create_track_with_largest_rowid_in_use :
  let s :=
    with_db
      (with_Track [(INT64_MAX, project columns_1_15_0 sample_track)])
      (sample_storage version_1_15_0) in
  create_track s sample_track 42 =
    Ok (42,
        with_db
          (with_Track
             [(INT64_MAX, project columns_1_15_0 sample_track);
              (42, project columns_1_15_0 sample_track)])
          (sample_storage version_1_15_0)) /\
  create_track s sample_track INT64_MAX = Throw sqlite_error.
Proof. split; reflexivity. Qed.

(** A track at 1.15.0, whose stored ids are below the largest rowid. *)
Lemma track_operations_follow_version_witness :
  exists id s',
    create_track sample_storage_with_track sample_track 0 = Ok (id, s').
Proof.
  apply (track_operations_follow_version sample_storage_with_track
           sample_track 0).
  repeat constructor.
Defined.

(** A tempo that is not a number is not read back: the row that [get_track]
    returns after [create_track] is not the input projected onto the
    columns of the version. *)
Lemma get_track_after_create_track_loses_nan :
  match create_track (sample_storage version_1_15_0) sample_track_nan 0 with
  | Ok (id, s') =>
      track_row.bpm_analyzed
        (project (fields_of version_1_15_0) sample_track_nan) =
        Some PrimFloat.nan /\
      (forall row, get_track s' id = Ok row ->
                   track_row.bpm_analyzed row = None) /\
      get_track s' id <>
        Ok (project (fields_of version_1_15_0) sample_track_nan)
  | Throw _ => False
  end.
Proof.
  assert (Hget :
    forall row,
      (let '(id, s') :=
         (1, with_db
               (with_Track
                  [(1, project columns_1_15_0 (bound sample_track_nan))])
               (sample_storage version_1_15_0)) in
       get_track s' id) = Ok row ->
      track_row.bpm_analyzed row = None).
  { intros row H. injection H as <-. reflexivity. }
  split; [reflexivity|]. split; [exact Hget|].
  intros H. specialize (Hget _ H). discriminate Hget.
Qed.

(** ** [REPLACE INTO] with several rows *)

Section ReplaceFacts.

Variable Row : Type.
Variable same_key : Row -> Row -> bool.

Lemma filter_twice (p q : Row -> bool) l :
  filter p (filter q l) = filter (fun x => q x && p x) l.
Proof.
  induction l as [|x l IH]; [reflexivity|]. cbn [filter].
  destruct (q x); cbn [filter andb]; [|exact IH].
  destruct (p x); rewrite IH; reflexivity.
Qed.

(** The table after the statement: the stored rows whose key is not that
    of a new row, then the new rows in the order of the statement. *)
Lemma fold_replace_into rows : forall table,
  distinct_keys same_key rows = true ->
  fold_left (replace_into same_key) rows table =
  filter (fun old => negb (existsb (fun r => same_key r old) rows)) table ++
  rows.
Proof.
  induction rows as [|r rows IH]; intros table Hd; cbn [fold_left].
  - cbn [existsb negb]. rewrite app_nil_r.
    induction table as [|x table IHt]; [reflexivity|].
    cbn [filter]. congruence.
  - cbn [distinct_keys] in Hd. apply andb_true_iff in Hd as [Hr Hd].
    rewrite (IH _ Hd). unfold replace_into.
    rewrite filter_app, filter_twice. cbn [filter]. rewrite Hr.
    rewrite <- app_assoc. cbn [app]. f_equal.
    apply filter_ext. intros old. cbn [existsb].
    rewrite negb_orb. reflexivity.
Qed.

Variable K : Type.
Variable key : Row -> K.
Hypothesis same_key_key : forall a b, same_key a b = true <-> key a = key b.

Lemma filter_keyed (p : Row -> bool) table :
  NoDup (map key table) -> NoDup (map key (filter p table)).
Proof.
  induction table as [|x table IH]; intros Hnd; [constructor|].
  cbn [map] in Hnd. inversion Hnd as [|? ? Hx Hrest]. subst.
  cbn [filter]. destruct (p x); [|apply IH, Hrest].
  cbn [map]. constructor; [|apply IH, Hrest].
  intros Hin. apply Hx.
  apply in_map_iff in Hin as [y [Hy Hin]].
  apply filter_In in Hin as [Hin _].
  rewrite <- Hy. apply in_map, Hin.
Qed.

(** A table with at most one row per key has at most one row per key after
    a [REPLACE INTO]. *)
Lemma replace_into_keyed table r :
  NoDup (map key table) -> NoDup (map key (replace_into same_key table r)).
Proof.
  intros Hnd. unfold replace_into. rewrite map_app. apply NoDup_app.
  - apply filter_keyed, Hnd.
  - cbn [map]. constructor; [intros []|constructor].
  - intros k Hk [Hr|[]].
    apply in_map_iff in Hk as [old [Hold Hin]].
    apply filter_In in Hin as [_ Hkeep].
    apply negb_true_iff in Hkeep.
    assert (same_key r old = true) by (apply same_key_key; congruence).
    congruence.
Qed.

Lemma fold_replace_into_keyed rows : forall table,
  NoDup (map key table) ->
  NoDup (map key (fold_left (replace_into same_key) rows table)).
Proof.
  induction rows as [|r rows IH]; intros table Hnd; cbn [fold_left].
  - exact Hnd.
  - apply IH, replace_into_keyed, Hnd.
Qed.

End ReplaceFacts.

Lemma MetaData_same_key_key a b :
  MetaData_same_key a b = true <-> MetaData_key a = MetaData_key b.
Proof.
  unfold MetaData_same_key, MetaData_key.
  rewrite andb_true_iff, !Z.eqb_eq. split.
  - intros [-> ->]. reflexivity.
  - intros H. injection H as -> ->. split; reflexivity.
Qed.

Lemma MetaDataInteger_same_key_key a b :
  MetaDataInteger_same_key a b = true <->
  MetaDataInteger_key a = MetaDataInteger_key b.
Proof.
  unfold MetaDataInteger_same_key, MetaDataInteger_key.
  rewrite andb_true_iff, !Z.eqb_eq. split.
  - intros [-> ->]. reflexivity.
  - intros H. injection H as -> ->. split; reflexivity.
Qed.

Lemma PerformanceData_same_key_key a b :
  PerformanceData_same_key a b = true <->
  PerformanceData.id a = PerformanceData.id b.
Proof. unfold PerformanceData_same_key. apply Z.eqb_eq. Qed.

(** The writers keep the key of their table: at most one row per key
    before, at most one row per key after. *)
Lemma replace_into_MetaData_keyed rows s :
  MetaData_keyed s -> MetaData_keyed (replace_into_MetaData rows s).
Proof.
  unfold MetaData_keyed, replace_into_MetaData, with_db, with_MetaData.
  cbn [db MetaData_rows].
  apply fold_replace_into_keyed, MetaData_same_key_key.
Qed.

Lemma replace_into_MetaDataInteger_keyed rows s :
  MetaDataInteger_keyed s ->
  MetaDataInteger_keyed (replace_into_MetaDataInteger rows s).
Proof.
  unfold MetaDataInteger_keyed, replace_into_MetaDataInteger, with_db,
    with_MetaDataInteger.
  cbn [db MetaDataInteger_rows].
  apply fold_replace_into_keyed, MetaDataInteger_same_key_key.
Qed.

Lemma replace_into_PerformanceData_keyed r s :
  PerformanceData_keyed s ->
  PerformanceData_keyed (replace_into_PerformanceData r s).
Proof.
  unfold PerformanceData_keyed, replace_into_PerformanceData, with_db,
    with_PerformanceData.
  cbn [db PerformanceData_rows].
  apply replace_into_keyed, PerformanceData_same_key_key.
Qed.

(** ** Canonical integer metadata *)

(** C6.  The canonical integer-metadata write is one statement with twelve
    rows for the track: their type tags are 4, 5, 1, 2, 3, 6, 8, 7, 9, 10,
    11, 12 in this order, the values are the six arguments in their slots,
    [NULL] in the unknown slots 6 to 9 and the constant 1 in the unknown
    slots 11 and 12; the table afterwards holds the stored rows of other
    keys followed by these twelve rows in this order. *)
Theorem set_meta_data_integer_all_writes_twelve_rows s id f :
  let rows := canonical_meta_data_integer id f in
  map MetaDataInteger.type rows = [4; 5; 1; 2; 3; 6; 8; 7; 9; 10; 11; 12] /\
  map MetaDataInteger.id rows = repeat id 12 /\
  map MetaDataInteger.value rows =
    [musical_key f; rating f; last_played_timestamp f;
     last_modified_timestamp f; last_accessed_timestamp f;
     None; None; None; None; last_play_hash f; Some 1; Some 1] /\
  MetaDataInteger_rows (db (set_meta_data_integer_all s id f)) =
    filter
      (fun old =>
         negb (existsb (fun r => MetaDataInteger_same_key r old) rows))
      (MetaDataInteger_rows (db s)) ++
    rows.
Proof.
  intros rows. subst rows.
  split; [reflexivity|]. split; [reflexivity|]. split; [reflexivity|].
  unfold set_meta_data_integer_all, replace_into_MetaDataInteger, with_db,
    with_MetaDataInteger.
  cbn [db MetaDataInteger_rows].
  apply fold_replace_into.
  unfold canonical_meta_data_integer, MetaDataInteger_same_key.
  cbn [distinct_keys existsb MetaDataInteger.id MetaDataInteger.type].
  rewrite Z.eqb_refl. reflexivity.
Qed.

(** ** String metadata *)

Lemma flat_map_nil (A B : Type) (g : A -> list B) l :
  (forall x, In x l -> g x = []) -> flat_map g l = [].
Proof.
  induction l as [|x l IH]; intros H; [reflexivity|].
  cbn [flat_map]. rewrite (H x (or_introl eq_refl)).
  apply IH. intros y Hy. apply H. right. exact Hy.
Qed.

Lemma flat_map_agree (A B : Type) (g h : A -> list B) l :
  (forall x, In x l -> g x = h x) -> flat_map g l = flat_map h l.
Proof.
  induction l as [|x l IH]; intros H; [reflexivity|].
  cbn [flat_map]. rewrite (H x (or_introl eq_refl)). f_equal.
  apply IH. intros y Hy. apply H. right. exact Hy.
Qed.

(** The bulk reader, row by row. *)
Lemma get_all_meta_data_rows s id :
  get_all_meta_data s id =
  flat_map (fun r => if MetaData.id r =? id then visible r else [])
    (MetaData_rows (db s)).
Proof.
  unfold get_all_meta_data, visible. apply flat_map_ext. intros r.
  destruct (MetaData.text r), (MetaData.id r =? id); reflexivity.
Qed.

Lemma canonical_meta_data_distinct id f :
  distinct_keys MetaData_same_key (canonical_meta_data id f) = true.
Proof.
  unfold canonical_meta_data, MetaData_same_key.
  cbn [distinct_keys existsb MetaData.id MetaData.type].
  rewrite Z.eqb_refl. reflexivity.
Qed.

(** A stored row of the track whose type is one of the fifteen is replaced
    by the canonical write. *)
Lemma canonical_meta_data_replaces id f old :
  MetaData.id old = id ->
  In (MetaData.type old) canonical_str_types ->
  existsb (fun r => MetaData_same_key r old) (canonical_meta_data id f) =
  true.
Proof.
  intros Hid Ht. apply existsb_exists.
  exists {| MetaData.id := id; MetaData.type := MetaData.type old;
            MetaData.text :=
              match
                find (fun r => MetaData.type r =? MetaData.type old)
                  (canonical_meta_data id f)
              with
              | Some r => MetaData.text r
              | None => None
              end |}.
  split.
  - unfold canonical_str_types in Ht. cbn [In] in Ht.
    repeat destruct Ht as [Ht|Ht]; try contradiction;
      rewrite <- Ht; cbn; tauto.
  - unfold MetaData_same_key. cbn [MetaData.id MetaData.type].
    rewrite Hid, !Z.eqb_refl. reflexivity.
Qed.

(** C3, as the code has it.  For a track whose stored [MetaData] rows, if
    any, all carry one of the fifteen canonical type tags: after the
    canonical write the table holds for the track exactly the fifteen
    canonical rows, with the text 1 in the slots [unknown_15] and
    [unknown_16] and [NULL] in [unknown_8], [unknown_9] and [unknown_17];
    the bulk read returns of these the rows whose text is not [NULL], which
    are two more than the named fields that were given, at most twelve. *)
Theorem canonical_meta_data_read_back s id f :
  (forall r, In r (MetaData_rows (db s)) -> MetaData.id r = id ->
             In (MetaData.type r) canonical_str_types) ->
  let s' := set_meta_data_all s id f in
  filter (fun r => MetaData.id r =? id) (MetaData_rows (db s')) =
    canonical_meta_data id f /\
  map MetaData.type (canonical_meta_data id f) = canonical_str_types /\
  map MetaData.text (canonical_meta_data id f) =
    [title f; artist f; album f; genre f; comment f; publisher f;
     composer f; None; None; duration_mm_ss f; ever_played f;
     file_extension f; Some "1"%string; Some "1"%string; None] /\
  get_all_meta_data s' id = flat_map visible (canonical_meta_data id f) /\
  List.length (get_all_meta_data s' id) = (2 + number_given f)%nat /\
  (List.length (get_all_meta_data s' id) <= 12)%nat.
Proof.
  intros Hcanon s'.
  assert (Hrows : MetaData_rows (db s') =
            filter
              (fun old =>
                 negb (existsb (fun r => MetaData_same_key r old)
                         (canonical_meta_data id f)))
              (MetaData_rows (db s)) ++
            canonical_meta_data id f).
  { apply fold_replace_into, canonical_meta_data_distinct. }
  assert (Hkept : forall r,
            In r (filter
                    (fun old =>
                       negb (existsb (fun r => MetaData_same_key r old)
                               (canonical_meta_data id f)))
                    (MetaData_rows (db s))) ->
            (MetaData.id r =? id) = false).
  { intros r Hr. apply filter_In in Hr as [Hin Hkeep].
    destruct (Z.eqb_spec (MetaData.id r) id) as [Hid|]; [|reflexivity].
    rewrite (canonical_meta_data_replaces f r Hid (Hcanon r Hin Hid))
      in Hkeep.
    discriminate. }
  assert (Hread : get_all_meta_data s' id =
                  flat_map visible (canonical_meta_data id f)).
  { rewrite get_all_meta_data_rows, Hrows, flat_map_app.
    rewrite flat_map_nil.
    - cbn [app]. apply flat_map_agree. intros r Hr.
      replace (MetaData.id r =? id) with true; [reflexivity|].
      symmetry. apply Z.eqb_eq.
      unfold canonical_meta_data in Hr. cbn [In] in Hr.
      repeat destruct Hr as [Hr|Hr]; try contradiction;
        rewrite <- Hr; reflexivity.
    - intros r Hr. rewrite (Hkept r Hr). reflexivity. }
  assert (Hlen : List.length (flat_map visible (canonical_meta_data id f)) =
                 (2 + number_given f)%nat).
  { destruct f as [t a al g c p co d e fe].
    destruct t, a, al, g, c, p, co, d, e, fe; reflexivity. }
  split; [|split; [reflexivity|split; [reflexivity|split; [exact Hread|]]]].
  - rewrite Hrows, filter_app, filter_none by exact Hkept.
    cbn [app]. unfold canonical_meta_data.
    cbn [filter MetaData.id]. rewrite Z.eqb_refl. reflexivity.
  - rewrite Hread, Hlen. split; [reflexivity|].
    unfold number_given.
    match goal with
    | |- (2 + List.length (filter ?p ?l) <= 12)%nat =>
        pose proof (filter_length_le p l) as Hle; cbn [List.length] in Hle
    end.
    lia.
Qed.

(** The statement above on a library in which track 1 already has a title:
    the canonical write of a title and an artist reads back as four
    rows. *)
Lemma canonical_meta_data_read_back_witness :
  (forall r,
     In r (MetaData_rows (db sample_storage_with_metadata)) ->
     MetaData.id r = 1 -> In (MetaData.type r) canonical_str_types) /\
  List.length
    (get_all_meta_data
       (set_meta_data_all sample_storage_with_metadata 1 sample_fields) 1) =
  4%nat.
Proof.
  assert (H : forall r,
            In r (MetaData_rows (db sample_storage_with_metadata)) ->
            MetaData.id r = 1 -> In (MetaData.type r) canonical_str_types).
  { intros r [<-|[<-|[<-|[]]]]; cbn; intros; try discriminate; tauto. }
  split; [exact H|].
  exact (proj1 (proj2 (proj2 (proj2 (proj2
           (canonical_meta_data_read_back sample_storage_with_metadata
              sample_fields H)))))).
Defined.

(** C3 as stated fails: after the canonical write of a title and an artist
    on a fresh library, the bulk read returns four rows, not fifteen; the
    rows written with [NULL] are not among them. *)
Lemma canonical_meta_data_read_is_not_fifteen_rows :
  get_all_meta_data
    (set_meta_data_all (sample_storage version_1_15_0) 1 sample_fields) 1 =
  [{| meta_data_row.id := 1; meta_data_row.type := metadata_str_type.title;
      meta_data_row.value := "T" |};
   {| meta_data_row.id := 1; meta_data_row.type := metadata_str_type.artist;
      meta_data_row.value := "A" |};
   {| meta_data_row.id := 1;
      meta_data_row.type := metadata_str_type.unknown_15;
      meta_data_row.value := "1" |};
   {| meta_data_row.id := 1;
      meta_data_row.type := metadata_str_type.unknown_16;
      meta_data_row.value := "1" |}]%string /\
  List.length
    (get_all_meta_data
       (set_meta_data_all (sample_storage version_1_15_0) 1 sample_fields)
       1) <> 15%nat.
Proof. split; [reflexivity|]. cbn. discriminate. Qed.

(** A stored row of the track with a type tag outside the fifteen is not
    replaced by the canonical write, and is read back with the canonical
    rows. *)
Example canonical_meta_data_keeps_other_types :
  get_all_meta_data
    (set_meta_data_all
       (set_meta_data_string (sample_storage version_1_15_0) 1 11 "x")
       1 sample_fields) 1 =
  [{| meta_data_row.id := 1; meta_data_row.type := 11;
      meta_data_row.value := "x" |};
   {| meta_data_row.id := 1; meta_data_row.type := metadata_str_type.title;
      meta_data_row.value := "T" |};
   {| meta_data_row.id := 1; meta_data_row.type := metadata_str_type.artist;
      meta_data_row.value := "A" |};
   {| meta_data_row.id := 1;
      meta_data_row.type := metadata_str_type.unknown_15;
      meta_data_row.value := "1" |};
   {| meta_data_row.id := 1;
      meta_data_row.type := metadata_str_type.unknown_16;
      meta_data_row.value := "1" |}]%string.
Proof. reflexivity. Qed.

(** ** Writing an absent content *)

Lemma MetaData_keep_sym id type :
  forall old,
    negb (MetaData_same_key
            {| MetaData.id := id; MetaData.type := type;
               MetaData.text := None |} old) =
    negb ((MetaData.id old =? id) && (MetaData.type old =? type)).
Proof.
  intros old. unfold MetaData_same_key. cbn [MetaData.id MetaData.type].
  rewrite (Z.eqb_sym id), (Z.eqb_sym type). reflexivity.
Qed.

(** The table after [set_meta_data] with an absent content. *)
Lemma set_meta_data_None_rows s id type :
  MetaData_rows (db (set_meta_data s id type None)) =
  MetaData_rows (db (delete_meta_data s id type)) ++
  [{| MetaData.id := id; MetaData.type := type; MetaData.text := None |}].
Proof.
  unfold set_meta_data, replace_into_MetaData, delete_meta_data, with_db,
    with_MetaData, replace_into.
  cbn [db MetaData_rows fold_left]. f_equal.
  apply filter_ext, MetaData_keep_sym.
Qed.

(** C10.  [set_meta_data] with an absent content leaves for (id, type) one
    stored row, whose text is [NULL]; [get_meta_data] of the key then
    returns no value and [get_all_meta_data] of the track has no row of the
    type; and both readers, for every key and every track, return what they
    would return had the rows of (id, type) been deleted. *)
Theorem set_meta_data_None_reads_as_deleted s id type :
  let s' := set_meta_data s id type None in
  let null_row :=
    {| MetaData.id := id; MetaData.type := type; MetaData.text := None |} in
  filter (fun r => (MetaData.id r =? id) && (MetaData.type r =? type))
    (MetaData_rows (db s')) = [null_row] /\
  get_meta_data s' id type = Ok None /\
  Forall (fun r => meta_data_row.type r <> type) (get_all_meta_data s' id) /\
  (forall id' type',
     get_meta_data s' id' type' =
     get_meta_data (delete_meta_data s id type) id' type') /\
  (forall id',
     get_all_meta_data s' id' =
     get_all_meta_data (delete_meta_data s id type) id').
Proof.
  intros s' null_row. subst s' null_row.
  assert (Hget : forall id' type',
            get_meta_data (set_meta_data s id type None) id' type' =
            get_meta_data (delete_meta_data s id type) id' type').
  { intros id' type'. unfold get_meta_data.
    rewrite set_meta_data_None_rows, flat_map_app. cbn [flat_map MetaData.text].
    rewrite !app_nil_r. reflexivity. }
  assert (Hall : forall id',
            get_all_meta_data (set_meta_data s id type None) id' =
            get_all_meta_data (delete_meta_data s id type) id').
  { intros id'. unfold get_all_meta_data.
    rewrite set_meta_data_None_rows, flat_map_app. cbn [flat_map MetaData.text].
    rewrite !app_nil_r. reflexivity. }
  split; [|split; [|split; [|split; [exact Hget|exact Hall]]]].
  - rewrite set_meta_data_None_rows, filter_app.
    unfold delete_meta_data, with_db, with_MetaData. cbn [db MetaData_rows].
    rewrite filter_none.
    + cbn [filter app MetaData.id MetaData.type].
      rewrite !Z.eqb_refl. reflexivity.
    + intros r Hr. apply filter_In in Hr as [_ Hr].
      apply negb_true_iff. exact Hr.
  - rewrite Hget. unfold get_meta_data, delete_meta_data, with_db,
      with_MetaData. cbn [db MetaData_rows].
    rewrite flat_map_nil; [reflexivity|].
    intros r Hr. apply filter_In in Hr as [_ Hr].
    apply negb_true_iff in Hr. rewrite Hr.
    destruct (MetaData.text r); reflexivity.
  - rewrite Hall. unfold get_all_meta_data, delete_meta_data, with_db,
      with_MetaData. cbn [db MetaData_rows].
    apply Forall_flat_map, Forall_forall.
    intros r Hr. apply filter_In in Hr as [_ Hr].
    apply negb_true_iff, andb_false_iff in Hr.
    destruct (MetaData.text r); [|constructor].
    destruct (Z.eqb_spec (MetaData.id r) id) as [Hid|]; [|constructor].
    constructor; [|constructor]. cbn [meta_data_row.type].
    destruct Hr as [Hr|Hr]; [discriminate|].
    apply Z.eqb_neq in Hr. exact Hr.
Qed.

(** ** Absent performance data *)

Section PerformanceDataFacts.

Variables track_data high_res_waveform_data overview_waveform_data
  beat_data quick_cues_data loops_data : Type.

Variable default_track_data : track_data.
Variable default_high_res_waveform_data : high_res_waveform_data.
Variable default_overview_waveform_data : overview_waveform_data.
Variable default_beat_data : beat_data.
Variable default_quick_cues_data : quick_cues_data.
Variable default_loops_data : loops_data.

Variable track_data_decode : list Byte.byte -> result track_data.
Variable high_res_waveform_data_decode :
  list Byte.byte -> result high_res_waveform_data.
Variable overview_waveform_data_decode :
  list Byte.byte -> result overview_waveform_data.
Variable beat_data_decode : list Byte.byte -> result beat_data.
Variable quick_cues_data_decode : list Byte.byte -> result quick_cues_data.
Variable loops_data_decode : list Byte.byte -> result loops_data.

(** C5.  Under every version and whatever the blob decoders do, for a track
    id that no [PerformanceData] row carries [get_performance_data] throws
    nothing and returns the row with that id, the six blobs at their
    default values and the two analysis flags and the three has-flags at
    zero. *)
Theorem get_performance_data_of_absent_row s id :
  (forall r, In r (PerformanceData_rows (db s)) ->
             PerformanceData.id r <> id) ->
  get_performance_data
    default_track_data default_high_res_waveform_data
    default_overview_waveform_data default_beat_data
    default_quick_cues_data default_loops_data
    track_data_decode high_res_waveform_data_decode
    overview_waveform_data_decode beat_data_decode
    quick_cues_data_decode loops_data_decode s id =
  Ok {| pd_id := id;
        pd_is_analyzed := 0;
        pd_is_rendered := 0;
        pd_track_data := default_track_data;
        pd_high_res_waveform_data := default_high_res_waveform_data;
        pd_overview_waveform_data := default_overview_waveform_data;
        pd_beat_data := default_beat_data;
        pd_quick_cues_data := default_quick_cues_data;
        pd_loops_data := default_loops_data;
        pd_has_serato_values := 0;
        pd_has_rekordbox_values := 0;
        pd_has_traktor_values := 0 |}.
Proof.
  intros Habsent.
  assert (Hnone : filter (fun r => PerformanceData.id r =? id)
                    (PerformanceData_rows (db s)) = []).
  { apply filter_none. intros r Hr. apply Z.eqb_neq, Habsent, Hr. }
  unfold get_performance_data, select_from_PerformanceData.
  rewrite Hnone.
  destruct (version_ge (version s) version_1_11_1);
    [|destruct (version_ge (version s) version_1_7_1)]; reflexivity.
Qed.

End PerformanceDataFacts.

(** Scenario S6: id 999 on a library that has performance data for track 1
    only, with decoders that always throw. *)
Lemma get_performance_data_of_absent_row_witness :
  (forall r,
     In r (PerformanceData_rows (db sample_storage_with_performance_data)) ->
     PerformanceData.id r <> 999) /\
  get_performance_data tt tt tt tt tt tt
    (fun _ => Throw sqlite_error) (fun _ => Throw sqlite_error)
    (fun _ => Throw sqlite_error) (fun _ => Throw sqlite_error)
    (fun _ => Throw sqlite_error) (fun _ => Throw sqlite_error)
    sample_storage_with_performance_data 999 =
  Ok {| pd_id := 999; pd_is_analyzed := 0; pd_is_rendered := 0;
        pd_track_data := tt; pd_high_res_waveform_data := tt;
        pd_overview_waveform_data := tt; pd_beat_data := tt;
        pd_quick_cues_data := tt; pd_loops_data := tt;
        pd_has_serato_values := 0; pd_has_rekordbox_values := 0;
        pd_has_traktor_values := 0 |}.
Proof.
  assert (H : forall r,
            In r (PerformanceData_rows
                    (db sample_storage_with_performance_data)) ->
            PerformanceData.id r <> 999).
  { intros r [<-|[]]. discriminate. }
  split; [exact H|].
  apply (get_performance_data_of_absent_row tt tt tt tt tt tt
           (fun _ => Throw sqlite_error) (fun _ => Throw sqlite_error)
           (fun _ => Throw sqlite_error) (fun _ => Throw sqlite_error)
           (fun _ => Throw sqlite_error) (fun _ => Throw sqlite_error)
           sample_storage_with_performance_data H).
Defined.

(** ** Examples *)

(** A column declared [INTEGER] where the reference has [NUMERIC]. *)
Example validate_columns_wrong_type :
  validate_columns "Track"
    (table_info "music" "Track"
       [(0, "id", "INTEGER", 0, "", 1);
        (11, "isExternalTrack", "INTEGER", 0, "", 0)]%string)
    [ {| cd_col_name := "id"; cd_col_type := "INTEGER"; cd_nullable := 0;
         cd_default_value := ""; cd_part_of_pk := 1 |};
      {| cd_col_name := "isExternalTrack"; cd_col_type := "NUMERIC";
         cd_nullable := 0; cd_default_value := ""; cd_part_of_pk := 0 |}
    ]%string =
  Throw (database_inconsistency
    "Column isExternalTrack on Track has wrong type: INTEGER, expected NUMERIC").
Proof. reflexivity. Qed.

(** Under 1.7.1 a created track reads back without the members that were
    added in 1.15.0 and 1.18.0. *)
Example create_track_then_get_track_1_7_1 :
  create_track (sample_storage version_1_7_1) sample_track 0 =
  Ok (1,
      with_db
        (with_Track [(1, project columns_1_7_1 sample_track)])
        (sample_storage version_1_7_1)) /\
  get_track
    (with_db
       (with_Track [(1, project columns_1_7_1 sample_track)])
       (sample_storage version_1_7_1)) 1 =
  Ok {| track_row.play_order := Some 1;
        track_row.length := Some 240;
        track_row.length_calculated := Some 240;
        track_row.bpm := Some 128;
        track_row.year := Some 2020;
        track_row.relative_path := Some "/a/b.mp3"%string;
        track_row.filename := Some "b.mp3"%string;
        track_row.bitrate := Some 320000;
        track_row.bpm_analyzed := Some 127.5%float;
        track_row.track_type := Some 1;
        track_row.is_external_track := Some 0;
        track_row.uuid_of_external_database := Some "u"%string;
        track_row.id_track_in_external_database := Some 7;
        track_row.album_art_id := Some 1;
        track_row.file_bytes := None;
        track_row.pdb_import_key := Some 3;
        track_row.uri := None;
        track_row.is_beatgrid_locked := None |}.
Proof. split; reflexivity. Qed.

(** The desktop variant of 1.18.0 has the columns of 1.18.0. *)
Example fields_of_1_18_0_ep : fields_of version_1_18_0_ep = columns_1_18_0.
Proof. reflexivity. Qed.

(** Before 1.7.1 there are the fourteen columns of the first schema. *)
Example fields_of_1_6_0 : fields_of version_1_6_0 = columns_1_6_0.
Proof. reflexivity. Qed.

(** Writing an absent title for track 1 of the sample keeps a row for the
    key, with [NULL] as its text. *)
Example set_meta_data_None_keeps_row :
  MetaData_rows
    (db (set_meta_data sample_storage_with_metadata 1
           metadata_str_type.title None)) =
  [{| MetaData.id := 2; MetaData.type := metadata_str_type.title;
      MetaData.text := Some "Other"%string |};
   {| MetaData.id := 2; MetaData.type := metadata_str_type.comment;
      MetaData.text := None |};
   {| MetaData.id := 1; MetaData.type := metadata_str_type.title;
      MetaData.text := None |}].
Proof. reflexivity. Qed.

(** * Further properties *)

(** ** Snapshots are the query's rows in key order *)

Section SnapshotOrder.

Variables (A K : Type).
Variable key : A -> K.
Variable ltK : K -> K -> bool.

Hypothesis ltK_irrefl : forall a, ltK a a = false.
Hypothesis ltK_trans :
  forall a b c, ltK a b = true -> ltK b c = true -> ltK a c = true.
Hypothesis ltK_total :
  forall a b, ltK a b = false -> ltK b a = false -> a = b.

Let lt (x y : A) : Prop := entry_lt key ltK x y = true.
Let ins (s : list A) (x : A) : list A := set_insert key ltK x s.

Lemma set_insert_keeps x y s : In y s -> In y (set_insert key ltK x s).
Proof.
  induction s as [|z s IH]; [intros []|]. cbn [set_insert].
  destruct (entry_lt key ltK x z); [intros H; right; exact H|].
  destruct (entry_lt key ltK z x); [|intros H; exact H].
  intros [->|H]; [left; reflexivity|right; apply IH, H].
Qed.

Lemma set_insert_new x s :
  (forall y, In y s -> key y <> key x) -> In x (set_insert key ltK x s).
Proof.
  induction s as [|z s IH]; intros Hs; [left; reflexivity|].
  cbn [set_insert].
  destruct (entry_lt key ltK x z) eqn:Hxz; [left; reflexivity|].
  destruct (entry_lt key ltK z x) eqn:Hzx.
  - right. apply IH. intros y Hy. apply Hs. right. exact Hy.
  - exfalso. apply (Hs z (or_introl eq_refl)). symmetry.
    apply ltK_total; assumption.
Qed.

Lemma fold_set_insert_sorted rows : forall s,
  StronglySorted lt s -> StronglySorted lt (fold_left ins rows s).
Proof.
  induction rows as [|x rows IH]; intros s Hs; [exact Hs|].
  cbn [fold_left]. apply IH. apply (set_insert_sorted key ltK ltK_trans x Hs).
Qed.

Lemma fold_set_insert_In rows : forall s e,
  In e (fold_left ins rows s) -> In e s \/ In e rows.
Proof.
  induction rows as [|x rows IH]; intros s e He; [left; exact He|].
  cbn [fold_left] in He. apply IH in He as [He|He].
  - apply set_insert_In in He as [->|He];
      [right; left; reflexivity|left; exact He].
  - right. right. exact He.
Qed.

Lemma fold_set_insert_all rows : forall s e,
  NoDup (map key rows) ->
  (forall a b, In a s -> In b rows -> key a <> key b) ->
  In e s \/ In e rows -> In e (fold_left ins rows s).
Proof.
  induction rows as [|x rows IH]; intros s e Hnd Hdis He.
  - destruct He as [He|[]]. exact He.
  - cbn [fold_left]. cbn [map] in Hnd. apply NoDup_cons_iff in Hnd as [Hx Hnd].
    apply IH; [exact Hnd| |].
    + intros a b Ha Hb. apply set_insert_In in Ha as [->|Ha].
      * intros Hk. apply Hx. rewrite Hk. apply in_map, Hb.
      * apply Hdis; [exact Ha|right; exact Hb].
    + destruct He as [He|[<-|He]].
      * left. apply set_insert_keeps, He.
      * left. apply set_insert_new. intros y Hy.
        apply Hdis; [exact Hy|left; reflexivity].
      * right. exact He.
Qed.

(** Two sequences in strictly increasing key order with the same entries
    are the same sequence. *)
Lemma sorted_same_entries l1 : forall l2,
  StronglySorted lt l1 -> StronglySorted lt l2 ->
  (forall e, In e l1 <-> In e l2) -> l1 = l2.
Proof.
  assert (Hirr : forall x, ~ lt x x).
  { intros x Hx. unfold lt, entry_lt in Hx. rewrite ltK_irrefl in Hx.
    discriminate. }
  assert (Hasym : forall x y, lt x y -> ~ lt y x).
  { intros x y Hxy Hyx. apply (Hirr x). unfold lt, entry_lt in *.
    exact (ltK_trans Hxy Hyx). }
  induction l1 as [|a l1 IH]; intros l2 H1 H2 Hin.
  - destruct l2 as [|b l2]; [reflexivity|].
    destruct (proj2 (Hin b) (or_introl eq_refl)).
  - destruct l2 as [|b l2]; [destruct (proj1 (Hin a) (or_introl eq_refl))|].
    apply StronglySorted_inv in H1 as [H1 Ha].
    apply StronglySorted_inv in H2 as [H2 Hb].
    rewrite Forall_forall in Ha, Hb.
    assert (Hab : a = b).
    { destruct (proj1 (Hin a) (or_introl eq_refl)) as [Hba|Hal2];
        [symmetry; exact Hba|].
      destruct (proj2 (Hin b) (or_introl eq_refl)) as [Hab|Hbl1];
        [exact Hab|].
      destruct (Hasym _ _ (Ha b Hbl1) (Hb a Hal2)). }
    subst b. f_equal. apply IH; [exact H1|exact H2|].
    intros e. split; intros He.
    + destruct (proj1 (Hin e) (or_intror He)) as [<-|He2]; [|exact He2].
      destruct (Hirr _ (Ha _ He)).
    + destruct (proj2 (Hin e) (or_intror He)) as [<-|He1]; [|exact He1].
      destruct (Hirr _ (Hb _ He)).
Qed.

Lemma set_of_rows_sorted rows :
  StronglySorted lt (set_of_rows key ltK rows).
Proof. apply fold_set_insert_sorted. constructor. Qed.

Lemma set_of_rows_In rows e :
  In e (set_of_rows key ltK rows) -> In e rows.
Proof.
  intros He. apply fold_set_insert_In in He as [[]|He]. exact He.
Qed.

Lemma set_of_rows_all rows e :
  NoDup (map key rows) -> In e rows -> In e (set_of_rows key ltK rows).
Proof.
  intros Hnd He. apply fold_set_insert_all; [exact Hnd| |right; exact He].
  intros a b [].
Qed.

Lemma sorted_keys l :
  StronglySorted lt l ->
  StronglySorted (fun a b => ltK a b = true) (map key l).
Proof.
  induction 1 as [|a l Hl IH Ha]; cbn [map]; constructor; [exact IH|].
  rewrite Forall_forall in *. intros k Hk.
  apply in_map_iff in Hk as [e [<- He]]. apply Ha, He.
Qed.

Lemma sorted_NoDup l : StronglySorted lt l -> NoDup l.
Proof.
  induction 1 as [|a l Hl IH Ha]; constructor; [|exact IH].
  intros Hin. rewrite Forall_forall in Ha. specialize (Ha a Hin).
  unfold lt, entry_lt in Ha. rewrite ltK_irrefl in Ha. discriminate.
Qed.

Lemma set_of_rows_permutation rows :
  NoDup (map key rows) -> Permutation (set_of_rows key ltK rows) rows.
Proof.
  intros Hnd. apply NoDup_Permutation.
  - apply sorted_NoDup, set_of_rows_sorted.
  - apply (NoDup_map_inv key), Hnd.
  - intros e. split; [apply set_of_rows_In|apply set_of_rows_all, Hnd].
Qed.

Lemma set_of_rows_order_independent rows rows' :
  NoDup (map key rows) -> Permutation rows rows' ->
  set_of_rows key ltK rows = set_of_rows key ltK rows'.
Proof.
  intros Hnd Hp.
  assert (Hnd' : NoDup (map key rows')).
  { apply (Permutation_NoDup (Permutation_map key Hp)), Hnd. }
  apply sorted_same_entries; try apply set_of_rows_sorted.
  intros e. split; intros He.
  - apply set_of_rows_all; [exact Hnd'|].
    apply (Permutation_in _ Hp), set_of_rows_In, He.
  - apply set_of_rows_all; [exact Hnd|].
    apply (Permutation_in _ (Permutation_sym Hp)), set_of_rows_In, He.
Qed.

End SnapshotOrder.

Lemma Z_ltb_trans a b c : (a <? b) = true -> (b <? c) = true -> (a <? c) = true.
Proof. intros Hab Hbc. apply Z.ltb_lt in Hab, Hbc. apply Z.ltb_lt. lia. Qed.

Lemma Z_ltb_total a b : (a <? b) = false -> (b <? a) = false -> a = b.
Proof. intros Hab Hba. apply Z.ltb_ge in Hab, Hba. lia. Qed.

(** X1.  Each snapshot is iterated in strictly increasing order of its key,
    whatever the order in which the catalog query yielded the rows, and
    each of its entries is built from a row that the query yielded. *)
Theorem snapshots_in_key_order :
  (forall db_name rows,
     StronglySorted (fun a b => string_lt a b = true)
       (map ml_item_name (master_list db_name rows)) /\
     incl (master_list db_name rows)
       (map (master_list_entry_of db_name) rows)) /\
  (forall db_name table_name rows,
     StronglySorted (fun a b => string_lt a b = true)
       (map ti_col_name (table_info db_name table_name rows)) /\
     incl (table_info db_name table_name rows)
       (map (table_info_entry_of db_name table_name) rows)) /\
  (forall db_name table_name rows,
     StronglySorted (fun a b => string_lt a b = true)
       (map il_index_name (index_list db_name table_name rows)) /\
     incl (index_list db_name table_name rows)
       (map (index_list_entry_of db_name table_name) rows)) /\
  (forall db_name index_name rows,
     StronglySorted (fun a b => (a <? b) = true)
       (map ii_col_index_id (index_info db_name index_name rows)) /\
     incl (index_info db_name index_name rows)
       (map (index_info_entry_of db_name index_name) rows)).
Proof.
  split; [|split; [|split]]; intros; split;
    try (intros e He; revert He; apply set_of_rows_In).
  - apply (sorted_keys ml_item_name string_lt).
    apply (set_of_rows_sorted ml_item_name string_lt string_lt_trans).
  - apply (sorted_keys ti_col_name string_lt).
    apply (set_of_rows_sorted ti_col_name string_lt string_lt_trans).
  - apply (sorted_keys il_index_name string_lt).
    apply (set_of_rows_sorted il_index_name string_lt string_lt_trans).
  - apply (sorted_keys ii_col_index_id Z.ltb).
    apply (set_of_rows_sorted ii_col_index_id Z.ltb Z_ltb_trans).
Qed.

(** X2.  When the rows of a catalog query have pairwise different keys, the
    snapshot holds every one of them exactly once: it is the rows of the
    query, rearranged. *)
Theorem snapshots_keep_rows_of_distinct_keys :
  (forall db_name rows,
     NoDup (map ml_item_name (map (master_list_entry_of db_name) rows)) ->
     Permutation (master_list db_name rows)
       (map (master_list_entry_of db_name) rows)) /\
  (forall db_name table_name rows,
     NoDup (map ti_col_name
              (map (table_info_entry_of db_name table_name) rows)) ->
     Permutation (table_info db_name table_name rows)
       (map (table_info_entry_of db_name table_name) rows)) /\
  (forall db_name table_name rows,
     NoDup (map il_index_name
              (map (index_list_entry_of db_name table_name) rows)) ->
     Permutation (index_list db_name table_name rows)
       (map (index_list_entry_of db_name table_name) rows)) /\
  (forall db_name index_name rows,
     NoDup (map ii_col_index_id
              (map (index_info_entry_of db_name index_name) rows)) ->
     Permutation (index_info db_name index_name rows)
       (map (index_info_entry_of db_name index_name) rows)).
Proof.
  split; [|split; [|split]]; intros.
  - apply (set_of_rows_permutation ml_item_name string_lt string_lt_irrefl
             string_lt_trans string_lt_total); assumption.
  - apply (set_of_rows_permutation ti_col_name string_lt string_lt_irrefl
             string_lt_trans string_lt_total); assumption.
  - apply (set_of_rows_permutation il_index_name string_lt string_lt_irrefl
             string_lt_trans string_lt_total); assumption.
  - apply (set_of_rows_permutation ii_col_index_id Z.ltb Z.ltb_irrefl
             Z_ltb_trans Z_ltb_total); assumption.
Qed.

(** X3.  When the rows of a catalog query have pairwise different keys, the
    snapshot does not depend on the order in which the query yields
    them. *)
Theorem snapshots_ignore_query_order :
  (forall db_name rows rows',
     NoDup (map ml_item_name (map (master_list_entry_of db_name) rows)) ->
     Permutation rows rows' ->
     master_list db_name rows = master_list db_name rows') /\
  (forall db_name table_name rows rows',
     NoDup (map ti_col_name
              (map (table_info_entry_of db_name table_name) rows)) ->
     Permutation rows rows' ->
     table_info db_name table_name rows =
     table_info db_name table_name rows') /\
  (forall db_name table_name rows rows',
     NoDup (map il_index_name
              (map (index_list_entry_of db_name table_name) rows)) ->
     Permutation rows rows' ->
     index_list db_name table_name rows =
     index_list db_name table_name rows') /\
  (forall db_name index_name rows rows',
     NoDup (map ii_col_index_id
              (map (index_info_entry_of db_name index_name) rows)) ->
     Permutation rows rows' ->
     index_info db_name index_name rows =
     index_info db_name index_name rows').
Proof.
  split; [|split; [|split]]; intros.
  - apply (set_of_rows_order_independent ml_item_name string_lt
             string_lt_irrefl string_lt_trans string_lt_total);
      [assumption|apply Permutation_map; assumption].
  - apply (set_of_rows_order_independent ti_col_name string_lt
             string_lt_irrefl string_lt_trans string_lt_total);
      [assumption|apply Permutation_map; assumption].
  - apply (set_of_rows_order_independent il_index_name string_lt
             string_lt_irrefl string_lt_trans string_lt_total);
      [assumption|apply Permutation_map; assumption].
  - apply (set_of_rows_order_independent ii_col_index_id Z.ltb Z.ltb_irrefl
             Z_ltb_trans Z_ltb_total);
      [assumption|apply Permutation_map; assumption].
Qed.

Lemma sample_table_info_rows_distinct :
  NoDup (map ti_col_name
           (map (table_info_entry_of "music" "Track") sample_table_info_rows)).
Proof.
  cbn. repeat (constructor; [cbn; intuition discriminate|]). constructor.
Qed.

Lemma snapshots_keep_rows_of_distinct_keys_witness :
  NoDup (map ti_col_name
           (map (table_info_entry_of "music" "Track")
              sample_table_info_rows)) /\
  Permutation (table_info "music" "Track" sample_table_info_rows)
    (map (table_info_entry_of "music" "Track") sample_table_info_rows).
Proof.
  split; [exact sample_table_info_rows_distinct|].
  exact (proj1 (proj2 snapshots_keep_rows_of_distinct_keys)
           "music"%string "Track"%string sample_table_info_rows
           sample_table_info_rows_distinct).
Defined.

Lemma snapshots_ignore_query_order_witness :
  NoDup (map ti_col_name
           (map (table_info_entry_of "music" "Track")
              sample_table_info_rows)) /\
  Permutation sample_table_info_rows (rev sample_table_info_rows) /\
  table_info "music" "Track" sample_table_info_rows =
  table_info "music" "Track" (rev sample_table_info_rows).
Proof.
  split; [exact sample_table_info_rows_distinct|].
  split; [apply Permutation_rev|].
  exact (proj1 (proj2 snapshots_ignore_query_order)
           "music"%string "Track"%string sample_table_info_rows
           (rev sample_table_info_rows)
           sample_table_info_rows_distinct
           (Permutation_rev sample_table_info_rows)).
Defined.

(** ** A reference definition has to be written in key order *)

Lemma Forall2_same_keys (E R K : Type) (keyE : E -> K) (keyR : R -> K)
    (matches : E -> R -> bool) :
  (forall e r, matches e r = true -> keyE e = keyR r) ->
  forall obs refs,
    Forall2 (fun e r => matches e r = true) obs refs ->
    map keyE obs = map keyR refs.
Proof.
  intros Hk obs refs H. induction H as [|e r obs refs Her _ IH];
    [reflexivity|].
  cbn [map]. rewrite (Hk e r Her), IH. reflexivity.
Qed.

Lemma master_matches_key e r :
  master_matches e r = true -> ml_item_name e = md_item_name r.
Proof. unfold master_matches. apply String.eqb_eq. Qed.

Lemma column_matches_key e r :
  column_matches e r = true -> ti_col_name e = cd_col_name r.
Proof.
  unfold column_matches. intros H.
  repeat (apply andb_true_iff in H as [H _]). apply String.eqb_eq, H.
Qed.

Lemma index_matches_key e r :
  index_matches e r = true -> il_index_name e = id_index_name r.
Proof.
  unfold index_matches. intros H.
  repeat (apply andb_true_iff in H as [H _]). apply String.eqb_eq, H.
Qed.

Lemma index_col_matches_key e r :
  index_col_matches e r = true -> ii_col_index_id e = icd_col_index_id r.
Proof.
  unfold index_col_matches. intros H.
  apply andb_true_iff in H as [H _]. apply Z.eqb_eq, H.
Qed.

(** X4.  A snapshot passes the lockstep validation only against a reference
    definition whose lines are in strictly increasing order of the key:
    item names, column names and index names in the order of
    [std::string], index columns in the order of their ranks.  A validator
    that lists its lines in another order rejects every store. *)
Theorem validated_reference_is_in_key_order :
  (forall db_name item_type rows refs,
     validate_master_lists db_name item_type (master_list db_name rows)
       refs = Ok tt ->
     StronglySorted (fun a b => string_lt a b = true)
       (map md_item_name refs)) /\
  (forall db_name table_name rows refs,
     validate_columns table_name (table_info db_name table_name rows) refs =
       Ok tt ->
     StronglySorted (fun a b => string_lt a b = true)
       (map cd_col_name refs)) /\
  (forall db_name table_name rows refs,
     validate_indices table_name (index_list db_name table_name rows) refs =
       Ok tt ->
     StronglySorted (fun a b => string_lt a b = true)
       (map id_index_name refs)) /\
  (forall db_name index_name rows refs,
     validate_index_columns index_name
       (index_info db_name index_name rows) refs = Ok tt ->
     StronglySorted (fun a b => (a <? b) = true)
       (map icd_col_index_id refs)).
Proof.
  split; [|split; [|split]]; intros ? ? ? refs Hok.
  - apply validate_all_ok_iff with (matches := master_matches) in Hok;
      [|intros; apply validate_master_list_ok|discriminate].
    rewrite <- (Forall2_same_keys _ _ _ master_matches_key Hok).
    apply (sorted_keys ml_item_name string_lt).
    apply (set_of_rows_sorted ml_item_name string_lt string_lt_trans).
  - apply validate_all_ok_iff with (matches := column_matches) in Hok;
      [|intros; apply validate_table_info_ok|discriminate].
    rewrite <- (Forall2_same_keys _ _ _ column_matches_key Hok).
    apply (sorted_keys ti_col_name string_lt).
    apply (set_of_rows_sorted ti_col_name string_lt string_lt_trans).
  - apply validate_all_ok_iff with (matches := index_matches) in Hok;
      [|intros; apply validate_index_list_ok|discriminate].
    rewrite <- (Forall2_same_keys _ _ _ index_matches_key Hok).
    apply (sorted_keys il_index_name string_lt).
    apply (set_of_rows_sorted il_index_name string_lt string_lt_trans).
  - apply validate_all_ok_iff with (matches := index_col_matches) in Hok;
      [|intros; apply validate_index_info_ok|discriminate].
    rewrite <- (Forall2_same_keys _ _ _ index_col_matches_key Hok).
    apply (sorted_keys ii_col_index_id Z.ltb).
    apply (set_of_rows_sorted ii_col_index_id Z.ltb Z_ltb_trans).
Qed.

Lemma validated_reference_is_in_key_order_witness :
  validate_columns "Track"
    (table_info "music" "Track" sample_table_info_rows)
    sample_column_defs = Ok tt /\
  StronglySorted (fun a b => string_lt a b = true)
    (map cd_col_name sample_column_defs).
Proof.
  assert (H : validate_columns "Track"
                (table_info "music" "Track" sample_table_info_rows)
                sample_column_defs = Ok tt) by reflexivity.
  split; [exact H|].
  exact (proj1 (proj2 validated_reference_is_in_key_order)
           "music"%string "Track"%string sample_table_info_rows
           sample_column_defs H).
Defined.

(** ** The position of a column is not validated *)

Lemma set_insert_map (A K : Type) (key : A -> K) (ltK : K -> K -> bool)
    (f : A -> A) :
  (forall x, key (f x) = key x) ->
  forall x s,
    map f (set_insert key ltK x s) = set_insert key ltK (f x) (map f s).
Proof.
  intros Hf x s. induction s as [|y s IH]; [reflexivity|].
  cbn [set_insert map]. unfold entry_lt. rewrite !Hf.
  destruct (ltK (key x) (key y)); [reflexivity|].
  destruct (ltK (key y) (key x)); [|reflexivity].
  cbn [map]. rewrite IH. reflexivity.
Qed.

Lemma set_of_rows_map (A K : Type) (key : A -> K) (ltK : K -> K -> bool)
    (f : A -> A) :
  (forall x, key (f x) = key x) ->
  forall rows,
    map f (set_of_rows key ltK rows) = set_of_rows key ltK (map f rows).
Proof.
  intros Hf rows. unfold set_of_rows.
  change (@nil A) with (map f (@nil A)) at 2.
  generalize (@nil A). induction rows as [|x rows IH]; intros s;
    [reflexivity|].
  cbn [fold_left map]. rewrite IH, (set_insert_map key ltK f Hf).
  reflexivity.
Qed.

Lemma validate_columns_forgets_col_id table_name refs : forall obs,
  validate_columns table_name (map forget_col_id obs) refs =
  validate_columns table_name obs refs.
Proof.
  unfold validate_columns.
  induction refs as [|r refs IH]; intros obs; cbn [validate_all].
  - destruct obs; reflexivity.
  - destruct obs as [|e obs]; [reflexivity|].
    cbn [map tl]. rewrite IH. reflexivity.
Qed.

(** X5.  The column id that the [table_info] pragma reports is not
    validated: two tables whose columns have the same names, types,
    nullability, defaults and primary-key membership, in whatever positions,
    get the same result, message included, from the column validation. *)
Theorem column_position_is_not_validated db_name table_name rows rows' refs :
  NoDup (map ti_col_name (map (table_info_entry_of db_name table_name) rows)) ->
  Permutation (map without_col_id rows) (map without_col_id rows') ->
  validate_columns table_name (table_info db_name table_name rows) refs =
  validate_columns table_name (table_info db_name table_name rows') refs.
Proof.
  intros Hnd Hperm.
  set (mk := fun r : string * string * Z * string * Z =>
               let '(n, ty, nu, d, pk) := r in
               {| ti_db_name := db_name; ti_table_name := table_name;
                  ti_col_id := 0; ti_col_name := n; ti_col_type := ty;
                  ti_nullable := nu; ti_default_value := d;
                  ti_part_of_pk := pk |}).
  assert (Hmk : forall l,
            map forget_col_id (map (table_info_entry_of db_name table_name) l)
            = map mk (map without_col_id l)).
  { intros l. rewrite !map_map. apply map_ext.
    intros [[[[[cid n] ty] nu] d] pk]. reflexivity. }
  assert (Hkeys : forall l,
            map ti_col_name (map forget_col_id l) = map ti_col_name l).
  { intros l. rewrite map_map. reflexivity. }
  rewrite <- (validate_columns_forgets_col_id table_name refs
                (table_info db_name table_name rows)).
  rewrite <- (validate_columns_forgets_col_id table_name refs
                (table_info db_name table_name rows')).
  unfold table_info.
  rewrite !(set_of_rows_map ti_col_name string_lt forget_col_id)
    by reflexivity.
  f_equal.
  apply (set_of_rows_order_independent ti_col_name string_lt
           string_lt_irrefl string_lt_trans string_lt_total).
  - rewrite Hkeys. exact Hnd.
  - rewrite !Hmk. apply Permutation_map, Hperm.
Qed.

Lemma column_position_is_not_validated_witness :
  NoDup (map ti_col_name
           (map (table_info_entry_of "music" "Track")
              sample_table_info_rows)) /\
  Permutation (map without_col_id sample_table_info_rows)
    (map without_col_id
       [(0, "length", "INTEGER", 0, "", 0);
        (1, "id", "INTEGER", 0, "", 1);
        (2, "playOrder", "INTEGER", 0, "", 0)]%string) /\
  validate_columns "Track"
    (table_info "music" "Track" sample_table_info_rows)
    sample_column_defs =
  validate_columns "Track"
    (table_info "music" "Track"
       [(0, "length", "INTEGER", 0, "", 0);
        (1, "id", "INTEGER", 0, "", 1);
        (2, "playOrder", "INTEGER", 0, "", 0)]%string)
    sample_column_defs.
Proof.
  assert (Hp : Permutation (map without_col_id sample_table_info_rows)
                 (map without_col_id
                    [(0, "length", "INTEGER", 0, "", 0);
                     (1, "id", "INTEGER", 0, "", 1);
                     (2, "playOrder", "INTEGER", 0, "", 0)]%string)).
  { cbn. eapply perm_trans; [apply perm_skip, perm_swap|apply perm_swap]. }
  split; [exact sample_table_info_rows_distinct|]. split; [exact Hp|].
  exact (column_position_is_not_validated "music" "Track"
           sample_table_info_rows _ sample_column_defs
           sample_table_info_rows_distinct Hp).
Defined.

(** ** Version detection, continued *)

Lemma find_append (A : Type) (f : A -> bool) l1 l2 :
  find f (l1 ++ l2) =
  match find f l1 with
  | Some x => Some x
  | None => find f l2
  end.
Proof.
  induction l1 as [|x l1 IH]; [reflexivity|]. cbn [app find].
  destruct (f x); [reflexivity|exact IH].
Qed.

Lemma get_column_type_from rows column_name : forall start,
  fold_left
    (fun column_type (r : table_info_row) =>
       let '(col_id, col_name, col_type, nullable, default_value,
             part_of_pk) := r in
       if (col_name =? column_name)%string then Some col_type
       else column_type)
    rows start =
  match
    find (fun r => (row_col_name r =? column_name)%string) (rev rows)
  with
  | Some r => Some (row_col_type r)
  | None => start
  end.
Proof.
  induction rows as [|r rows IH]; intros start; [reflexivity|].
  cbn [fold_left rev]. rewrite IH, find_append.
  destruct (find _ (rev rows)); [reflexivity|].
  destruct r as [[[[[cid n] ty] nu] d] pk]. cbn [find row_col_name].
  destruct (n =? column_name)%string; reflexivity.
Qed.

(** X6.  [get_column_type] returns the declared type of the last row of the
    pragma that carries the column name, and no value exactly when no row
    carries it. *)
Theorem get_column_type_is_last_match rows column_name :
  get_column_type rows column_name =
    option_map row_col_type
      (find (fun r => (row_col_name r =? column_name)%string) (rev rows)) /\
  (get_column_type rows column_name = None <->
   ~ In column_name (map row_col_name rows)).
Proof.
  assert (H : get_column_type rows column_name =
              option_map row_col_type
                (find (fun r => (row_col_name r =? column_name)%string)
                   (rev rows))).
  { unfold get_column_type. rewrite get_column_type_from.
    destruct (find _ (rev rows)); reflexivity. }
  split; [exact H|]. rewrite H.
  destruct (find _ (rev rows)) as [r|] eqn:Hf; cbn [option_map].
  - split; [discriminate|]. intros Hn. exfalso. apply Hn.
    apply find_some in Hf as [Hin Hr]. apply in_rev in Hin.
    apply String.eqb_eq in Hr. rewrite <- Hr. apply in_map, Hin.
  - split; [|reflexivity]. intros _ Hin.
    apply in_map_iff in Hin as [r [Hr Hin]].
    apply in_rev in Hin.
    pose proof (find_none _ _ Hf r Hin) as Hneq. cbn beta in Hneq.
    rewrite Hr, String.eqb_refl in Hneq. discriminate.
Qed.

Lemma version_eqb_refl v : version_eqb v v = true.
Proof.
  unfold version_eqb. rewrite !Z.eqb_refl. cbn [andb].
  destruct (metadata v) as [m|]; cbn [option_string_eqb];
    [apply String.eqb_refl|reflexivity].
Qed.

(** Detection, once the two statements on [music.Information] are run. *)
Lemma get_version_steps db :
  get_version db =
  if negb (count_named "Information" (music_sqlite_master db) +
           count_named "Information" (perfdata_sqlite_master db) =? 2)
  then
    Throw (database_inconsistency
      "Did not find an `Information` table for both the music and performance databases")
  else
    (music_version <- select_schema_version (music_Information db) ;;
     if (maj music_version =? 1) && (min music_version =? 18) &&
        (pat music_version =? 0)
     then
       Ok (if option_string_eqb
                (get_column_type (music_Track_table_info db)
                   "isExternalTrack")
                (Some "NUMERIC"%string)
           then version_1_18_0_ep else version_1_18_0_fw)
     else Ok music_version)%result.
Proof.
  unfold get_version.
  destruct (negb _); [reflexivity|].
  destruct (select_schema_version (music_Information db)) as [mv|e];
    [|reflexivity].
  cbn [bind]. rewrite version_eqb_refl. reflexivity.
Qed.

(** X7.  Whenever detection returns a version, both stores list an
    [Information] item, the music store's [Information] table has exactly
    one row, the version returned has the major, minor and patch numbers of
    that row, and it carries a variant tag exactly when these numbers are
    1.18.0. *)
Theorem get_version_result db v :
  get_version db = Ok v ->
  count_named "Information" (music_sqlite_master db) +
  count_named "Information" (perfdata_sqlite_master db) = 2 /\
  (exists r,
     music_Information db = Some [r] /\
     maj v = schemaVersionMajor r /\
     min v = schemaVersionMinor r /\
     pat v = schemaVersionPatch r) /\
  (metadata v = None <-> ~ (maj v = 1 /\ min v = 18 /\ pat v = 0)).
Proof.
  rewrite get_version_steps.
  destruct (Z.eqb_spec
              (count_named "Information" (music_sqlite_master db) +
               count_named "Information" (perfdata_sqlite_master db)) 2)
    as [Hc|Hc]; cbn [negb]; [|discriminate].
  unfold select_schema_version, extract_single.
  destruct (music_Information db) as [[|r [|r' rows]]|]; cbn [bind];
    try discriminate.
  cbn [plain_version maj min pat].
  destruct (Z.eqb_spec (schemaVersionMajor r) 1) as [H1|H1]; cbn [andb].
  - destruct (Z.eqb_spec (schemaVersionMinor r) 18) as [H2|H2]; cbn [andb].
    + destruct (Z.eqb_spec (schemaVersionPatch r) 0) as [H3|H3].
      * intros Hv. split; [exact Hc|].
        destruct (option_string_eqb _ _); injection Hv as <-;
          (split; [exists r; cbn; repeat split; congruence|]);
          cbn; (split; [discriminate|intros Hn; exfalso; apply Hn; auto]).
      * intros Hv. injection Hv as <-. split; [exact Hc|].
        split; [exists r; cbn; auto|]. cbn.
        split; [intros _ [_ [_ H]]; contradiction|reflexivity].
    + intros Hv. injection Hv as <-. split; [exact Hc|].
      split; [exists r; cbn; auto|]. cbn.
      split; [intros _ [_ [H _]]; contradiction|reflexivity].
  - intros Hv. injection Hv as <-. split; [exact Hc|].
    split; [exists r; cbn; auto|]. cbn.
    split; [intros _ [H _]; contradiction|reflexivity].
Qed.

Lemma get_version_result_witness :
  get_version (sample_database (1, 15, 0) (1, 15, 0) "NUMERIC") =
    Ok version_1_15_0 /\
  (metadata version_1_15_0 = None <->
   ~ (maj version_1_15_0 = 1 /\ min version_1_15_0 = 18 /\
      pat version_1_15_0 = 0)).
Proof.
  assert (H : get_version (sample_database (1, 15, 0) (1, 15, 0) "NUMERIC") =
              Ok version_1_15_0) by reflexivity.
  split; [exact H|].
  exact (proj2 (proj2 (get_version_result _ H))).
Defined.

(** X8.  Detection never throws the exception for disagreeing stores: its
    second statement reads the music store again, so the two versions it
    compares are the same value. *)
Theorem get_version_never_reports_a_mismatch db :
  get_version db <>
  Throw (database_inconsistency
    "The stated schema versions do not match between the music and performance data databases!").
Proof.
  rewrite get_version_steps.
  destruct (negb _); [discriminate|].
  destruct (select_schema_version (music_Information db)) as [mv|e] eqn:Hs;
    cbn [bind].
  - destruct ((maj mv =? 1) && (min mv =? 18) && (pat mv =? 0));
      discriminate.
  - unfold select_schema_version, extract_single in Hs.
    destruct (music_Information db) as [[|r [|r' rows]]|]; cbn [bind] in Hs;
      try discriminate; injection Hs as <-; discriminate.
Qed.

(** ** Track rows, continued *)

Lemma assign_assign (V : Type) cols c (v w old : option V) :
  assign cols c w (assign cols c v old) = assign cols c w old.
Proof. unfold assign. destruct (Track.names c cols); reflexivity. Qed.

Lemma overwrite_overwrite cols x y old :
  overwrite cols y (overwrite cols x old) = overwrite cols y old.
Proof.
  unfold overwrite. row_fields. rewrite !assign_assign. reflexivity.
Qed.

(** X9.  After a [create_track] that returns an id, [get_track] of that id
    returns, member by member, the values supplied for the columns of the
    version, the [double] as SQLite stores it, and no value for a column
    added later; [get_track] of every other id returns or throws what it
    did before. *)
Theorem get_track_after_create_track s x r id s' i :
  create_track s x r = Ok (id, s') ->
  get_track s' i =
  if i =? id
  then Ok (written_row (version s) x empty_track_row)
  else get_track s i.
Proof.
  rewrite create_track_rows.
  pose proof (next_rowid_cases r (map fst (Track_rows (db s)))) as Hnext.
  destruct (next_rowid r (map fst (Track_rows (db s)))) as [rowid|e];
    [|discriminate].
  destruct Hnext as [Hout _].
  intros H. injection H as <- <-.
  rewrite !get_track_rows.
  unfold with_db, with_Track. cbn [db version Track_rows].
  destruct (Z.eqb_spec i rowid) as [->|Hi].
  - rewrite (filter_unused_rowid _ _ _ Hout). cbn [snd].
    rewrite project_written_row. reflexivity.
  - rewrite filter_app. cbn [filter fst].
    replace (rowid =? i) with false
      by (symmetry; apply Z.eqb_neq; congruence).
    rewrite app_nil_r. reflexivity.
Qed.

(** X10.  When every stored id is below the largest rowid but one,
    [create_track] returns an id greater than the id of every stored row,
    and a second [create_track] returns the next integer. *)
Theorem create_track_ids_increase s x y r r' :
  Forall (fun row => fst row < INT64_MAX - 1) (Track_rows (db s)) ->
  exists id s' s'',
    create_track s x r = Ok (id, s') /\
    Forall (fun row => fst row < id) (Track_rows (db s)) /\
    create_track s' y r' = Ok (id + 1, s'').
Proof.
  intros Hsmall.
  destruct (@next_rowid_below (map fst (Track_rows (db s))) r
              (INT64_MAX - 1))
    as [rowid [Hnext [Hbelow Hle]]];
    [intros _; unfold INT64_MAX; lia|lia| |].
  { apply Forall_forall. intros j Hj.
    apply in_map_iff in Hj as [row [<- Hrow]].
    rewrite Forall_forall in Hsmall. apply Hsmall, Hrow. }
  destruct (@next_rowid_below (map fst (Track_rows (db s)) ++ [rowid]) r'
              (rowid + 1))
    as [rowid' [Hnext' [Hbelow' Hle']]]; [|lia| |].
  { intros Hnil. apply app_eq_nil in Hnil as [_ Hnil]. discriminate. }
  { apply Forall_app. split.
    - revert Hbelow. apply Forall_impl. intros j Hj. lia.
    - constructor; [lia|constructor]. }
  assert (rowid' = rowid + 1) as ->.
  { apply Forall_app in Hbelow' as [_ Hlast]. inversion Hlast. lia. }
  exists rowid. do 2 eexists.
  rewrite !create_track_rows, Hnext.
  split; [reflexivity|]. split.
  - apply Forall_forall. intros row Hrow.
    rewrite Forall_forall in Hbelow. apply Hbelow, in_map, Hrow.
  - unfold with_db, with_Track. cbn [db version Track_rows].
    rewrite map_app. cbn [map fst]. rewrite Hnext'. reflexivity.
Qed.

Lemma filter_map_same_id (g : Z * track_row.t -> Z * track_row.t) i rows :
  (forall row, fst (g row) = fst row) ->
  filter (fun row => fst row =? i) (map g rows) =
  map g (filter (fun row => fst row =? i) rows).
Proof.
  intros Hg. induction rows as [|r rows IH]; [reflexivity|].
  cbn [map filter]. rewrite Hg.
  destruct (fst r =? i); cbn [map]; rewrite IH; reflexivity.
Qed.

(** X11.  After [update_track] of an id, [get_track] of that id returns,
    when it returned a row before, the values supplied for the columns of
    the version member by member, the [double] as SQLite stores it, and no
    value for a column added later; it throws what it threw before
    otherwise; [get_track] of every other id is unchanged. *)
Theorem get_track_after_update_track s id x i :
  get_track (update_track s id x) i =
  if i =? id then
    match get_track s i with
    | Ok _ => Ok (written_row (version s) x empty_track_row)
    | Throw e => Throw e
    end
  else get_track s i.
Proof.
  rewrite !get_track_rows, update_track_rows.
  unfold with_db, with_Track. cbn [db version Track_rows].
  rewrite filter_map_same_id
    by (intros row; destruct (fst row =? id); reflexivity).
  assert (Hall : forall row,
            In row (filter (fun row => fst row =? i) (Track_rows (db s))) ->
            fst row = i).
  { intros row Hrow. apply filter_In in Hrow as [_ Hrow].
    apply Z.eqb_eq, Hrow. }
  destruct (Z.eqb_spec i id) as [->|Hi].
  - destruct (filter _ (Track_rows (db s))) as [|r1 [|r2 rows]];
      cbn [map]; try reflexivity.
    rewrite (Hall r1 (or_introl eq_refl)), Z.eqb_refl. cbn [snd].
    rewrite project_written_row. reflexivity.
  - destruct (filter _ (Track_rows (db s))) as [|r1 [|r2 rows]];
      cbn [map]; try reflexivity.
    replace (fst r1 =? id) with false; [reflexivity|].
    symmetry. apply Z.eqb_neq. rewrite (Hall r1 (or_introl eq_refl)).
    exact Hi.
Qed.

(** X12.  [update_track] of an id that no row carries changes nothing and
    throws nothing. *)
Theorem update_track_of_absent_id s id x :
  (forall row, In row (Track_rows (db s)) -> fst row <> id) ->
  update_track s id x = s.
Proof.
  intros Habsent. rewrite update_track_active.
  unfold update_Track, with_db, with_Track.
  destruct s as [v d]. destruct d. cbn [db version Track_rows] in *.
  do 2 f_equal. rewrite <- (map_id Track_rows0) at 2.
  apply map_ext_in. intros row Hrow.
  replace (fst row =? id) with false; [reflexivity|].
  symmetry. apply Z.eqb_neq, Habsent, Hrow.
Qed.

(** X13.  Of two [update_track] calls on the same id the second one
    decides: the table is as if the first had not been made. *)
Theorem update_track_twice s id x y :
  update_track (update_track s id x) id y = update_track s id y.
Proof.
  rewrite !update_track_active.
  unfold update_Track, with_db, with_Track. cbn [db version Track_rows].
  do 2 f_equal. rewrite map_map. apply map_ext. intros row.
  destruct (fst row =? id) eqn:Hrow; cbn [fst snd]; rewrite Hrow;
    [|reflexivity].
  rewrite overwrite_overwrite. reflexivity.
Qed.

(** ** String metadata, continued *)

(** The callback shared by the single-value readers: the first row sets the
    result, a second row throws. *)
Lemma for_each_row_single (V : Type) (what : string) (id : Z) (l : list V) :
  for_each_row
    (fun (result : option V) (v : V) =>
       match result with
       | None => Ok (Some v)
       | Some _ => Throw (track_database_inconsistency what id)
       end)
    l None =
  match l with
  | [] => Ok None
  | [v] => Ok (Some v)
  | _ :: _ :: _ => Throw (track_database_inconsistency what id)
  end.
Proof. destruct l as [|a [|b l]]; reflexivity. Qed.

Lemma flat_map_filter (A B : Type) (h : A -> list B) (p : A -> bool) l :
  (forall x, p x = false -> h x = []) ->
  flat_map h (filter p l) = flat_map h l.
Proof.
  intros H. induction l as [|x l IH]; [reflexivity|].
  cbn [filter flat_map]. destruct (p x) eqn:Hp.
  - cbn [flat_map]. rewrite IH. reflexivity.
  - rewrite (H x Hp), IH. reflexivity.
Qed.

Lemma set_meta_data_replace s id type content :
  set_meta_data s id type content =
  replace_into_MetaData
    [{| MetaData.id := id; MetaData.type := type;
        MetaData.text := content |}] s.
Proof. destruct content; reflexivity. Qed.

(** X14.  [get_meta_data] reads what [get_all_meta_data] reads: it returns
    no value when the bulk read of the track has no row of the type, the
    value of the row when it has one, and throws
    [track_database_inconsistency] when it has more than one. *)
Theorem get_meta_data_by_rows_read s id type :
  get_meta_data s id type =
  match
    map meta_data_row.value
      (filter (fun r => meta_data_row.type r =? type)
         (get_all_meta_data s id))
  with
  | [] => Ok None
  | [text] => Ok (Some text)
  | _ :: _ :: _ =>
      Throw (track_database_inconsistency
               "More than one MetaData entry of the same type for the same track"
               id)
  end.
Proof.
  unfold get_meta_data. rewrite for_each_row_single.
  replace (map meta_data_row.value
             (filter (fun r => meta_data_row.type r =? type)
                (get_all_meta_data s id)))
    with (flat_map
            (fun r =>
               match MetaData.text r with
               | Some text =>
                   if (MetaData.id r =? id) && (MetaData.type r =? type)
                   then [text] else []
               | None => []
               end)
            (MetaData_rows (db s))); [reflexivity|].
  unfold get_all_meta_data.
  induction (MetaData_rows (db s)) as [|r rows IH]; [reflexivity|].
  cbn [flat_map]. rewrite filter_app, map_app, <- IH. f_equal.
  destruct (MetaData.text r) as [text|]; [|reflexivity].
  destruct (MetaData.id r =? id); [|reflexivity].
  cbn [andb filter meta_data_row.type].
  destruct (MetaData.type r =? type); reflexivity.
Qed.

(** X15.  On a store whose [MetaData] table holds at most one row per
    (id, type) key: after [set_meta_data] of a key with a content, present
    or absent, the table still holds at most one row per key,
    [get_meta_data] of that key returns that content, and [get_meta_data]
    of every other key returns or throws what it did before. *)
Theorem get_meta_data_after_set_meta_data s id type content id' type' :
  MetaData_keyed s ->
  MetaData_keyed (set_meta_data s id type content) /\
  get_meta_data (set_meta_data s id type content) id' type' =
  if (id' =? id) && (type' =? type) then Ok content
  else get_meta_data s id' type'.
Proof.
  intros Hkeyed. rewrite set_meta_data_replace.
  split; [apply replace_into_MetaData_keyed, Hkeyed|].
  unfold get_meta_data, replace_into_MetaData, with_db, with_MetaData,
    replace_into, MetaData_same_key.
  cbn [db MetaData_rows fold_left MetaData.id MetaData.type].
  rewrite flat_map_app. cbn [flat_map MetaData.id MetaData.type MetaData.text].
  rewrite app_nil_r, (Z.eqb_sym id'), (Z.eqb_sym type').
  destruct ((id =? id') && (type =? type')) eqn:Hkey.
  - apply andb_true_iff in Hkey as [Hid Ht].
    apply Z.eqb_eq in Hid, Ht. subst id' type'.
    rewrite flat_map_nil.
    + cbn [app]. destruct content; reflexivity.
    + intros r Hr. apply filter_In in Hr as [_ Hr].
      apply negb_true_iff in Hr.
      rewrite (Z.eqb_sym (MetaData.id r)), (Z.eqb_sym (MetaData.type r)), Hr.
      destruct (MetaData.text r); reflexivity.
  - rewrite flat_map_filter.
    + destruct content; cbn [app]; rewrite app_nil_r; reflexivity.
    + intros r Hr. apply negb_false_iff, andb_true_iff in Hr as [Hid Ht].
      apply Z.eqb_eq in Hid, Ht. rewrite <- Hid, <- Ht, Hkey.
      destruct (MetaData.text r); reflexivity.
Qed.

Lemma set_meta_data_all_rows s id f :
  MetaData_rows (db (set_meta_data_all s id f)) =
  filter
    (fun old =>
       negb (existsb (fun r => MetaData_same_key r old)
               (canonical_meta_data id f)))
    (MetaData_rows (db s)) ++
  canonical_meta_data id f.
Proof. apply fold_replace_into, canonical_meta_data_distinct. Qed.

(** X16.  On a store whose [MetaData] table holds at most one row per
    (id, type) key: after the canonical string-metadata write the table
    still holds at most one row per key, and [get_meta_data] of the track
    returns for each of the fifteen type tags the text written for it: the
    argument for a named field, the text 1 for [unknown_15] and
    [unknown_16], no value for [unknown_8], [unknown_9] and
    [unknown_17]. *)
Theorem get_meta_data_after_canonical_write s id f :
  MetaData_keyed s ->
  MetaData_keyed (set_meta_data_all s id f) /\
  Forall
    (fun r =>
       get_meta_data (set_meta_data_all s id f) id (MetaData.type r) =
       Ok (MetaData.text r))
    (canonical_meta_data id f).
Proof.
  intros Hkeyed. split; [apply replace_into_MetaData_keyed, Hkeyed|].
  apply Forall_forall. intros r Hr.
  unfold get_meta_data. rewrite set_meta_data_all_rows, flat_map_app.
  rewrite flat_map_nil.
  - unfold canonical_meta_data in *. cbn [In] in Hr.
    destruct f as [t a al g c p co d e fe].
    repeat destruct Hr as [Hr|Hr]; try contradiction; subst r;
      cbn [app flat_map MetaData.id MetaData.type MetaData.text title
           artist album genre comment publisher composer duration_mm_ss
           ever_played file_extension];
      rewrite ?Z.eqb_refl; cbn [andb];
      repeat match goal with
      | |- context [match ?o with Some _ => _ | None => _ end] =>
          is_var o; destruct o
      end; reflexivity.
  - intros old Hold. apply filter_In in Hold as [_ Hold].
    apply negb_true_iff in Hold.
    destruct (MetaData.text old); [|reflexivity].
    destruct ((MetaData.id old =? id) &&
              (MetaData.type old =? MetaData.type r)) eqn:Hkey;
      [|reflexivity].
    exfalso. apply andb_true_iff in Hkey as [Hid Ht].
    apply Z.eqb_eq in Hid, Ht.
    assert (Hex : existsb (fun r => MetaData_same_key r old)
                    (canonical_meta_data id f) = true).
    { apply existsb_exists. exists r. split; [exact Hr|].
      unfold MetaData_same_key. rewrite Ht, Z.eqb_refl, andb_true_r.
      apply Z.eqb_eq.
      unfold canonical_meta_data in Hr. cbn [In] in Hr.
      repeat destruct Hr as [Hr|Hr]; try contradiction; subst r;
        cbn [MetaData.id]; congruence. }
    congruence.
Qed.

(** X17.  The canonical string-metadata write of one track leaves the
    string metadata of every other track as it was, for both readers. *)
Theorem canonical_write_leaves_other_tracks s id f id' :
  id' <> id ->
  get_all_meta_data (set_meta_data_all s id f) id' =
    get_all_meta_data s id' /\
  forall type,
    get_meta_data (set_meta_data_all s id f) id' type =
    get_meta_data s id' type.
Proof.
  intros Hid.
  assert (Hcanon : forall r, In r (canonical_meta_data id f) ->
                             MetaData.id r = id).
  { intros r Hr. unfold canonical_meta_data in Hr. cbn [In] in Hr.
    repeat destruct Hr as [Hr|Hr]; try contradiction; subst r; reflexivity. }
  assert (Hremoved : forall old,
            negb (existsb (fun r => MetaData_same_key r old)
                    (canonical_meta_data id f)) = false ->
            (MetaData.id old =? id') = false).
  { intros old Hold. apply negb_false_iff, existsb_exists in Hold
      as [r [Hr Hkey]].
    unfold MetaData_same_key in Hkey.
    apply andb_true_iff in Hkey as [Hkey _]. apply Z.eqb_eq in Hkey.
    apply Z.eqb_neq. rewrite <- Hkey, (Hcanon r Hr). congruence. }
  assert (Hnew : forall r, In r (canonical_meta_data id f) ->
                           (MetaData.id r =? id') = false).
  { intros r Hr. apply Z.eqb_neq. rewrite (Hcanon r Hr). congruence. }
  split; [|intros type].
  - unfold get_all_meta_data.
    rewrite set_meta_data_all_rows, flat_map_app, flat_map_filter.
    + rewrite (flat_map_nil _ (canonical_meta_data id f)), app_nil_r;
        [reflexivity|].
      intros r Hr. rewrite (Hnew r Hr). destruct (MetaData.text r); reflexivity.
    + intros old Hold. rewrite (Hremoved old Hold).
      destruct (MetaData.text old); reflexivity.
  - unfold get_meta_data.
    rewrite set_meta_data_all_rows, flat_map_app, flat_map_filter.
    + rewrite (flat_map_nil _ (canonical_meta_data id f)), app_nil_r;
        [reflexivity|].
      intros r Hr. rewrite (Hnew r Hr). destruct (MetaData.text r); reflexivity.
    + intros old Hold. rewrite (Hremoved old Hold).
      destruct (MetaData.text old); reflexivity.
Qed.

Lemma canonical_write_leaves_other_tracks_witness :
  2 <> 1 /\
  get_all_meta_data
    (set_meta_data_all sample_storage_with_metadata 1 sample_fields) 2 =
  get_all_meta_data sample_storage_with_metadata 2.
Proof.
  assert (H : 2 <> 1) by discriminate.
  split; [exact H|].
  exact (proj1 (canonical_write_leaves_other_tracks
                  sample_storage_with_metadata sample_fields H)).
Defined.

(** ** Integer metadata, continued *)

(** X18.  On a store whose [MetaDataInteger] table holds at most one row
    per (id, type) key: after [set_meta_data_integer] of a key with a
    content, present or absent, the table still holds at most one row per
    key, [get_meta_data_integer] of that key returns that content, and
    [get_meta_data_integer] of every other key returns or throws what it
    did before. *)
Theorem get_meta_data_integer_after_set s id type content id' type' :
  MetaDataInteger_keyed s ->
  MetaDataInteger_keyed (set_meta_data_integer s id type content) /\
  get_meta_data_integer (set_meta_data_integer s id type content) id' type' =
  if (id' =? id) && (type' =? type) then Ok content
  else get_meta_data_integer s id' type'.
Proof.
  intros Hkeyed.
  split; [apply replace_into_MetaDataInteger_keyed, Hkeyed|].
  unfold get_meta_data_integer, set_meta_data_integer,
    replace_into_MetaDataInteger, with_db, with_MetaDataInteger,
    replace_into, MetaDataInteger_same_key.
  cbn [db MetaDataInteger_rows fold_left MetaDataInteger.id
       MetaDataInteger.type].
  rewrite flat_map_app.
  cbn [flat_map MetaDataInteger.id MetaDataInteger.type
       MetaDataInteger.value].
  rewrite app_nil_r, (Z.eqb_sym id'), (Z.eqb_sym type').
  destruct ((id =? id') && (type =? type')) eqn:Hkey.
  - apply andb_true_iff in Hkey as [Hid Ht].
    apply Z.eqb_eq in Hid, Ht. subst id' type'.
    rewrite flat_map_nil.
    + cbn [app]. destruct content; reflexivity.
    + intros r Hr. apply filter_In in Hr as [_ Hr].
      apply negb_true_iff in Hr.
      rewrite (Z.eqb_sym (MetaDataInteger.id r)),
        (Z.eqb_sym (MetaDataInteger.type r)), Hr.
      destruct (MetaDataInteger.value r); reflexivity.
  - rewrite flat_map_filter.
    + destruct content; cbn [app]; rewrite app_nil_r; reflexivity.
    + intros r Hr. apply negb_false_iff, andb_true_iff in Hr as [Hid Ht].
      apply Z.eqb_eq in Hid, Ht. rewrite <- Hid, <- Ht, Hkey.
      destruct (MetaDataInteger.value r); reflexivity.
Qed.

Lemma canonical_meta_data_integer_distinct id f :
  distinct_keys MetaDataInteger_same_key (canonical_meta_data_integer id f) =
  true.
Proof.
  unfold canonical_meta_data_integer, MetaDataInteger_same_key.
  cbn [distinct_keys existsb MetaDataInteger.id MetaDataInteger.type].
  rewrite Z.eqb_refl. reflexivity.
Qed.

Lemma set_meta_data_integer_all_rows s id f :
  MetaDataInteger_rows (db (set_meta_data_integer_all s id f)) =
  filter
    (fun old =>
       negb (existsb (fun r => MetaDataInteger_same_key r old)
               (canonical_meta_data_integer id f)))
    (MetaDataInteger_rows (db s)) ++
  canonical_meta_data_integer id f.
Proof. apply fold_replace_into, canonical_meta_data_integer_distinct. Qed.

Lemma canonical_meta_data_integer_id id f r :
  In r (canonical_meta_data_integer id f) -> MetaDataInteger.id r = id.
Proof.
  intros Hr. unfold canonical_meta_data_integer in Hr. cbn [In] in Hr.
  repeat destruct Hr as [Hr|Hr]; try contradiction; subst r; reflexivity.
Qed.







(** X20.  On a store whose [MetaDataInteger] table holds at most one row
    per (id, type) key: after the canonical integer-metadata write the
    table still holds at most one row per key, and [get_meta_data_integer]
    of the track returns for each of the twelve type tags the value written
    for it: the argument for a named field, 1 for [unknown_11] and
    [unknown_12], no value for the unknown slots 6 to 9. *)
Theorem get_meta_data_integer_after_canonical_write s id f :
  MetaDataInteger_keyed s ->
  MetaDataInteger_keyed (set_meta_data_integer_all s id f) /\
  Forall
    (fun r =>
       get_meta_data_integer (set_meta_data_integer_all s id f) id
         (MetaDataInteger.type r) =
       Ok (MetaDataInteger.value r))
    (canonical_meta_data_integer id f).
Proof.
  intros Hkeyed.
  split; [apply replace_into_MetaDataInteger_keyed, Hkeyed|].
  apply Forall_forall. intros r Hr.
  unfold get_meta_data_integer.
  rewrite set_meta_data_integer_all_rows, flat_map_app, flat_map_nil.
  - unfold canonical_meta_data_integer in *. cbn [In] in Hr.
    destruct f as [k ra lp lm la h].
    repeat destruct Hr as [Hr|Hr]; try contradiction; subst r;
      cbn [app flat_map MetaDataInteger.id MetaDataInteger.type
           MetaDataInteger.value musical_key rating last_played_timestamp
           last_modified_timestamp last_accessed_timestamp last_play_hash];
      rewrite ?Z.eqb_refl; cbn [andb];
      repeat match goal with
      | |- context [match ?o with Some _ => _ | None => _ end] =>
          is_var o; destruct o
      end; reflexivity.
  - intros old Hold. apply filter_In in Hold as [_ Hold].
    apply negb_true_iff in Hold.
    destruct (MetaDataInteger.value old); [|reflexivity].
    destruct ((MetaDataInteger.id old =? id) &&
              (MetaDataInteger.type old =? MetaDataInteger.type r))
      eqn:Hkey; [|reflexivity].
    exfalso. apply andb_true_iff in Hkey as [Hid Ht].
    apply Z.eqb_eq in Hid, Ht.
    assert (Hex : existsb (fun r => MetaDataInteger_same_key r old)
                    (canonical_meta_data_integer id f) = true).
    { apply existsb_exists. exists r. split; [exact Hr|].
      unfold MetaDataInteger_same_key.
      rewrite Ht, Z.eqb_refl, andb_true_r. apply Z.eqb_eq.
      rewrite (canonical_meta_data_integer_id Hr). congruence. }
    congruence.
Qed.

(** ** Performance data, continued *)

Lemma version_ge_1_11_1_then_1_7_1 v :
  version_ge v version_1_11_1 = true -> version_ge v version_1_7_1 = true.
Proof. version_cases. Qed.

Section PerformanceDataRoundTrip.

Variables track_data high_res_waveform_data overview_waveform_data
  beat_data quick_cues_data loops_data : Type.

Variable default_track_data : track_data.
Variable default_high_res_waveform_data : high_res_waveform_data.
Variable default_overview_waveform_data : overview_waveform_data.
Variable default_beat_data : beat_data.
Variable default_quick_cues_data : quick_cues_data.
Variable default_loops_data : loops_data.

Variable track_data_decode : list Byte.byte -> result track_data.
Variable high_res_waveform_data_decode :
  list Byte.byte -> result high_res_waveform_data.
Variable overview_waveform_data_decode :
  list Byte.byte -> result overview_waveform_data.
Variable beat_data_decode : list Byte.byte -> result beat_data.
Variable quick_cues_data_decode : list Byte.byte -> result quick_cues_data.
Variable loops_data_decode : list Byte.byte -> result loops_data.

Variable track_data_encode : track_data -> list Byte.byte.
Variable high_res_waveform_data_encode :
  high_res_waveform_data -> list Byte.byte.
Variable overview_waveform_data_encode :
  overview_waveform_data -> list Byte.byte.
Variable beat_data_encode : beat_data -> list Byte.byte.
Variable quick_cues_data_encode : quick_cues_data -> list Byte.byte.
Variable loops_data_encode : loops_data -> list Byte.byte.

Let get := get_performance_data
  default_track_data default_high_res_waveform_data
  default_overview_waveform_data default_beat_data default_quick_cues_data
  default_loops_data track_data_decode high_res_waveform_data_decode
  overview_waveform_data_decode beat_data_decode quick_cues_data_decode
  loops_data_decode.

Let put := set_performance_data
  track_data_encode high_res_waveform_data_encode
  overview_waveform_data_encode beat_data_encode quick_cues_data_encode
  loops_data_encode.

Let decoded := decode_row
  track_data_decode high_res_waveform_data_decode
  overview_waveform_data_decode beat_data_decode quick_cues_data_decode
  loops_data_decode.

(** [get_performance_data] by the rows that carry the id. *)
Lemma get_performance_data_rows s id :
  get s id =
  let flags r :=
    performance_flags (version s) (PerformanceData.hasRekordboxValues r)
      (PerformanceData.hasTraktorValues r) in
  match
    filter (fun r => PerformanceData.id r =? id)
      (PerformanceData_rows (db s))
  with
  | [] =>
      Ok (performance_data_row_of_id default_track_data
            default_high_res_waveform_data default_overview_waveform_data
            default_beat_data default_quick_cues_data default_loops_data id)
  | [r] => decoded r (fst (flags r)) (snd (flags r))
  | r :: _ :: _ =>
      (decoded r (fst (flags r)) (snd (flags r)) ;;;
       Throw (track_database_inconsistency
                "More than one track with the same id" id))%result
  end.
Proof.
  unfold get, get_performance_data, select_from_PerformanceData,
    performance_flags.
  assert (Hid : forall r,
            In r (filter (fun r => PerformanceData.id r =? id)
                    (PerformanceData_rows (db s))) ->
            PerformanceData.id r = id).
  { intros r Hr. apply filter_In in Hr as [_ Hr]. apply Z.eqb_eq, Hr. }
  destruct (version_ge (version s) version_1_11_1) eqn:H11.
  - rewrite (version_ge_1_11_1_then_1_7_1 _ H11).
    destruct (filter _ (PerformanceData_rows (db s))) as [|r1 [|r2 rows]];
      cbn [for_each_row bind fst snd]; [reflexivity| |].
    + fold decoded. destruct (decoded r1 _ _); reflexivity.
    + fold decoded. rewrite (Hid r2 (or_intror (or_introl eq_refl))).
      destruct (decoded r1 _ _); reflexivity.
  - destruct (version_ge (version s) version_1_7_1) eqn:H7;
      destruct (filter _ (PerformanceData_rows (db s))) as [|r1 [|r2 rows]];
      cbn [for_each_row bind fst snd]; try reflexivity;
      fold decoded; rewrite ?(Hid r2 (or_intror (or_introl eq_refl)));
      destruct (decoded r1 _ _); reflexivity.
Qed.

(** X21.  [get_performance_data] returns the default row when no row
    carries the id; with one row it returns the row decoded, the flags of
    columns that the version does not have being zero, or throws what a
    decoder throws; with more rows it throws
    [track_database_inconsistency], unless decoding the first row throws
    before. *)
Theorem get_performance_data_by_number_of_rows s id :
  get s id =
  let flags r :=
    performance_flags (version s) (PerformanceData.hasRekordboxValues r)
      (PerformanceData.hasTraktorValues r) in
  match
    filter (fun r => PerformanceData.id r =? id)
      (PerformanceData_rows (db s))
  with
  | [] =>
      Ok (performance_data_row_of_id default_track_data
            default_high_res_waveform_data default_overview_waveform_data
            default_beat_data default_quick_cues_data default_loops_data id)
  | [r] => decoded r (fst (flags r)) (snd (flags r))
  | r :: _ :: _ =>
      (decoded r (fst (flags r)) (snd (flags r)) ;;;
       Throw (track_database_inconsistency
                "More than one track with the same id" id))%result
  end.
Proof.
  unfold get, get_performance_data, select_from_PerformanceData,
    performance_flags.
  assert (Hid : forall r,
            In r (filter (fun r => PerformanceData.id r =? id)
                    (PerformanceData_rows (db s))) ->
            PerformanceData.id r = id).
  { intros r Hr. apply filter_In in Hr as [_ Hr]. apply Z.eqb_eq, Hr. }
  destruct (version_ge (version s) version_1_11_1) eqn:H11;
    [rewrite (version_ge_1_11_1_then_1_7_1 _ H11)
    |destruct (version_ge (version s) version_1_7_1)];
    destruct (filter _ (PerformanceData_rows (db s))) as [|r1 [|r2 rows]];
    cbn [for_each_row bind fst snd]; try reflexivity;
    fold decoded; rewrite ?(Hid r2 (or_intror (or_introl eq_refl)));
    destruct (decoded r1 _ _); reflexivity.
Qed.

Lemma filter_id_after_removal (rows : list PerformanceData.row) id i :
  filter (fun r => PerformanceData.id r =? i)
    (filter (fun r => negb (PerformanceData.id r =? id)) rows) =
  if i =? id then [] else filter (fun r => PerformanceData.id r =? i) rows.
Proof.
  rewrite filter_twice.
  destruct (Z.eqb_spec i id) as [->|Hi].
  - apply filter_none. intros r _.
    destruct (PerformanceData.id r =? id); reflexivity.
  - apply filter_ext. intros r.
    destruct (Z.eqb_spec (PerformanceData.id r) id) as [Hr|Hr];
      cbn [negb andb]; [|reflexivity].
    symmetry. apply Z.eqb_neq. congruence.
Qed.

(** X22.  After [clear_performance_data] of an id, [get_performance_data]
    of that id returns the default row, also when the id had several rows
    or undecodable blobs before, and [get_performance_data] of every other
    id returns or throws what it did before. *)
Theorem get_performance_data_after_clear s id i :
  get (clear_performance_data s id) i =
  if i =? id then
    Ok (performance_data_row_of_id default_track_data
          default_high_res_waveform_data default_overview_waveform_data
          default_beat_data default_quick_cues_data default_loops_data i)
  else get s i.
Proof.
  rewrite !get_performance_data_rows.
  unfold clear_performance_data, with_db, with_PerformanceData.
  cbn [db version PerformanceData_rows].
  rewrite filter_id_after_removal.
  destruct (i =? id); reflexivity.
Qed.

(** X23.  On a store whose [PerformanceData] table holds at most one row
    per id, when each of the six decoders returns the value whose encoding
    it is given: after [set_performance_data] of a row the table still
    holds at most one row per id, [get_performance_data] of the id of the
    row returns that row, with the flag of a column that the version does
    not have at zero, and [get_performance_data] of every other id returns
    or throws what it did before. *)
Theorem get_performance_data_after_set s x i :
  PerformanceData_keyed s ->
  track_data_decode (track_data_encode (pd_track_data x)) =
    Ok (pd_track_data x) ->
  high_res_waveform_data_decode
    (high_res_waveform_data_encode (pd_high_res_waveform_data x)) =
    Ok (pd_high_res_waveform_data x) ->
  overview_waveform_data_decode
    (overview_waveform_data_encode (pd_overview_waveform_data x)) =
    Ok (pd_overview_waveform_data x) ->
  beat_data_decode (beat_data_encode (pd_beat_data x)) =
    Ok (pd_beat_data x) ->
  quick_cues_data_decode (quick_cues_data_encode (pd_quick_cues_data x)) =
    Ok (pd_quick_cues_data x) ->
  loops_data_decode (loops_data_encode (pd_loops_data x)) =
    Ok (pd_loops_data x) ->
  PerformanceData_keyed (put s x) /\
  get (put s x) i =
  if i =? pd_id x then
    Ok {| pd_id := pd_id x;
          pd_is_analyzed := pd_is_analyzed x;
          pd_is_rendered := pd_is_rendered x;
          pd_track_data := pd_track_data x;
          pd_high_res_waveform_data := pd_high_res_waveform_data x;
          pd_overview_waveform_data := pd_overview_waveform_data x;
          pd_beat_data := pd_beat_data x;
          pd_quick_cues_data := pd_quick_cues_data x;
          pd_loops_data := pd_loops_data x;
          pd_has_serato_values := pd_has_serato_values x;
          pd_has_rekordbox_values :=
            fst (performance_flags (version s) (pd_has_rekordbox_values x)
                   (pd_has_traktor_values x));
          pd_has_traktor_values :=
            snd (performance_flags (version s) (pd_has_rekordbox_values x)
                   (pd_has_traktor_values x)) |}
  else get s i.
Proof.
  intros Hkeyed Htd Hhr Hov Hbd Hqc Hlp.
  assert (Hput : exists rb tr,
            put s x =
            replace_into_PerformanceData
              {| PerformanceData.id := pd_id x;
                 PerformanceData.isAnalyzed := pd_is_analyzed x;
                 PerformanceData.isRendered := pd_is_rendered x;
                 PerformanceData.trackData :=
                   track_data_encode (pd_track_data x);
                 PerformanceData.highResolutionWaveFormData :=
                   high_res_waveform_data_encode
                     (pd_high_res_waveform_data x);
                 PerformanceData.overviewWaveFormData :=
                   overview_waveform_data_encode
                     (pd_overview_waveform_data x);
                 PerformanceData.beatData :=
                   beat_data_encode (pd_beat_data x);
                 PerformanceData.quickCues :=
                   quick_cues_data_encode (pd_quick_cues_data x);
                 PerformanceData.loops := loops_data_encode (pd_loops_data x);
                 PerformanceData.hasSeratoValues := pd_has_serato_values x;
                 PerformanceData.hasRekordboxValues := rb;
                 PerformanceData.hasTraktorValues := tr |} s /\
            performance_flags (version s) rb tr =
            performance_flags (version s) (pd_has_rekordbox_values x)
              (pd_has_traktor_values x)).
  { unfold put, set_performance_data, performance_flags.
    destruct (version_ge (version s) version_1_11_1) eqn:H11.
    - rewrite (version_ge_1_11_1_then_1_7_1 _ H11).
      eexists _, _. split; reflexivity.
    - destruct (version_ge (version s) version_1_7_1);
        eexists _, _; split; reflexivity. }
  destruct Hput as [rb [tr [Hput Hflags]]].
  rewrite Hput.
  split; [apply replace_into_PerformanceData_keyed, Hkeyed|].
  rewrite !get_performance_data_rows.
  unfold replace_into_PerformanceData, with_db, with_PerformanceData,
    replace_into, PerformanceData_same_key.
  cbn [db version PerformanceData_rows PerformanceData.id].
  rewrite filter_app.
  rewrite (filter_ext
             (fun old => negb (pd_id x =? PerformanceData.id old))
             (fun r => negb (PerformanceData.id r =? pd_id x)))
    by (intros r; rewrite Z.eqb_sym; reflexivity).
  rewrite filter_id_after_removal.
  cbn [filter PerformanceData.id]. rewrite (Z.eqb_sym (pd_id x) i).
  destruct (i =? pd_id x).
  - cbn [app PerformanceData.hasRekordboxValues
         PerformanceData.hasTraktorValues].
    rewrite Hflags. unfold decoded, decode_row.
    cbn [PerformanceData.trackData
         PerformanceData.highResolutionWaveFormData
         PerformanceData.overviewWaveFormData PerformanceData.beatData
         PerformanceData.quickCues PerformanceData.loops
         PerformanceData.id PerformanceData.isAnalyzed
         PerformanceData.isRendered PerformanceData.hasSeratoValues].
    rewrite Htd, Hhr, Hov, Hbd, Hqc, Hlp. reflexivity.
  - rewrite app_nil_r. reflexivity.
Qed.

End PerformanceDataRoundTrip.

(** The statement above with blobs that are stored as they are, on a
    library of version 1.7.1, which has no [hasTraktorValues] column. *)
Lemma get_performance_data_after_set_witness :
  PerformanceData_keyed (sample_storage version_1_7_1) /\
  get_performance_data [] [] [] [] [] []
    (fun b => Ok b) (fun b => Ok b) (fun b => Ok b)
    (fun b => Ok b) (fun b => Ok b) (fun b => Ok b)
    (set_performance_data (fun b => b) (fun b => b) (fun b => b)
       (fun b => b) (fun b => b) (fun b => b)
       (sample_storage version_1_7_1) sample_performance_data) 1 =
  Ok {| pd_id := 1; pd_is_analyzed := 1; pd_is_rendered := 1;
        pd_track_data := [Byte.x01];
        pd_high_res_waveform_data := [Byte.x02];
        pd_overview_waveform_data := [];
        pd_beat_data := [Byte.x03; Byte.x04];
        pd_quick_cues_data := []; pd_loops_data := [];
        pd_has_serato_values := 1; pd_has_rekordbox_values := 1;
        pd_has_traktor_values := 0 |}.
Proof.
  assert (H : PerformanceData_keyed (sample_storage version_1_7_1))
    by constructor.
  split; [exact H|].
  exact (proj2 (get_performance_data_after_set [] [] [] [] [] []
                  (fun b => Ok b) (fun b => Ok b) (fun b => Ok b)
                  (fun b => Ok b) (fun b => Ok b) (fun b => Ok b)
                  (fun b => b) (fun b => b) (fun b => b)
                  (fun b => b) (fun b => b) (fun b => b)
                  sample_performance_data 1 H
                  eq_refl eq_refl eq_refl eq_refl eq_refl eq_refl)).
Defined.

Lemma update_track_of_absent_id_witness :
  (forall row,
     In row (Track_rows (db sample_storage_with_track)) -> fst row <> 5) /\
  update_track sample_storage_with_track 5 sample_track =
  sample_storage_with_track.
Proof.
  assert (H : forall row,
            In row (Track_rows (db sample_storage_with_track)) ->
            fst row <> 5).
  { intros row [<-|[]]. cbn. discriminate. }
  split; [exact H|].
  exact (update_track_of_absent_id sample_storage_with_track sample_track H).
Defined.

(** The track created on the sample library at 1.7.1 is read back without
    the members of later versions. *)
Lemma get_track_after_create_track_witness :
  create_track (sample_storage version_1_7_1) sample_track 0 =
    Ok (1,
        with_db (with_Track [(1, project columns_1_7_1 sample_track)])
          (sample_storage version_1_7_1)) /\
  get_track
    (with_db (with_Track [(1, project columns_1_7_1 sample_track)])
       (sample_storage version_1_7_1)) 1 =
  Ok (written_row version_1_7_1 sample_track empty_track_row).
Proof.
  assert (H : create_track (sample_storage version_1_7_1) sample_track 0 =
              Ok (1,
                  with_db
                    (with_Track [(1, project columns_1_7_1 sample_track)])
                    (sample_storage version_1_7_1))) by reflexivity.
  split; [exact H|].
  exact (get_track_after_create_track _ _ _ 1 H).
Defined.

(** Two tracks created after the sample track get the ids 2 and 3. *)
Lemma create_track_ids_increase_witness :
  Forall (fun row => fst row < INT64_MAX - 1)
    (Track_rows (db sample_storage_with_track)) /\
  exists id s' s'',
    create_track sample_storage_with_track sample_track 0 = Ok (id, s') /\
    Forall (fun row => fst row < id)
      (Track_rows (db sample_storage_with_track)) /\
    create_track s' sample_track_nan 0 = Ok (id + 1, s'').
Proof.
  assert (H : Forall (fun row => fst row < INT64_MAX - 1)
                (Track_rows (db sample_storage_with_track))).
  { repeat constructor. }
  split; [exact H|].
  exact (create_track_ids_increase sample_storage_with_track sample_track
           sample_track_nan 0 0 H).
Defined.

(** A new title for track 1 of the sample, read under its key and under
    another. *)
Lemma get_meta_data_after_set_meta_data_witness :
  MetaData_keyed sample_storage_with_metadata /\
  get_meta_data
    (set_meta_data sample_storage_with_metadata 1 metadata_str_type.title
       (Some "New"%string))
    1 metadata_str_type.title = Ok (Some "New"%string) /\
  get_meta_data
    (set_meta_data sample_storage_with_metadata 1 metadata_str_type.title
       (Some "New"%string))
    2 metadata_str_type.title =
  get_meta_data sample_storage_with_metadata 2 metadata_str_type.title.
Proof.
  assert (H : MetaData_keyed sample_storage_with_metadata).
  { unfold MetaData_keyed. cbn.
    repeat (constructor; [cbn; intuition discriminate|]). constructor. }
  split; [exact H|]. split.
  - exact (proj2 (get_meta_data_after_set_meta_data 1
                    metadata_str_type.title (Some "New"%string) 1
                    metadata_str_type.title H)).
  - exact (proj2 (get_meta_data_after_set_meta_data 1
                    metadata_str_type.title (Some "New"%string) 2
                    metadata_str_type.title H)).
Defined.

Lemma get_meta_data_after_canonical_write_witness :
  MetaData_keyed sample_storage_with_metadata /\
  MetaData_keyed
    (set_meta_data_all sample_storage_with_metadata 1 sample_fields) /\
  Forall
    (fun r =>
       get_meta_data
         (set_meta_data_all sample_storage_with_metadata 1 sample_fields) 1
         (MetaData.type r) =
       Ok (MetaData.text r))
    (canonical_meta_data 1 sample_fields).
Proof.
  assert (H : MetaData_keyed sample_storage_with_metadata).
  { unfold MetaData_keyed. cbn.
    repeat (constructor; [cbn; intuition discriminate|]). constructor. }
  split; [exact H|].
  exact (get_meta_data_after_canonical_write 1 sample_fields H).
Defined.

Lemma get_meta_data_integer_after_set_witness :
  MetaDataInteger_keyed sample_storage_with_integers /\
  get_meta_data_integer
    (set_meta_data_integer sample_storage_with_integers 1
       metadata_int_type.rating None)
    1 metadata_int_type.rating = Ok None.
Proof.
  assert (H : MetaDataInteger_keyed sample_storage_with_integers).
  { unfold MetaDataInteger_keyed. cbn.
    repeat (constructor; [cbn; intuition discriminate|]). constructor. }
  split; [exact H|].
  exact (proj2 (get_meta_data_integer_after_set 1 metadata_int_type.rating
                  None 1 metadata_int_type.rating H)).
Defined.

Lemma get_meta_data_integer_after_canonical_write_witness :
  MetaDataInteger_keyed sample_storage_with_integers /\
  MetaDataInteger_keyed
    (set_meta_data_integer_all sample_storage_with_integers 1
       sample_integer_fields) /\
  Forall
    (fun r =>
       get_meta_data_integer
         (set_meta_data_integer_all sample_storage_with_integers 1
            sample_integer_fields) 1
         (MetaDataInteger.type r) =
       Ok (MetaDataInteger.value r))
    (canonical_meta_data_integer 1 sample_integer_fields).
Proof.
  assert (H : MetaDataInteger_keyed sample_storage_with_integers).
  { unfold MetaDataInteger_keyed. cbn.
    repeat (constructor; [cbn; intuition discriminate|]). constructor. }
  split; [exact H|].
  exact (get_meta_data_integer_after_canonical_write 1
           sample_integer_fields H).
Defined.
